(** * PicoGraphics zoomable Mandelbrot: a shallow embedding

    The development follows [PicoGraphics_Zoomable_Mandelbrot.py]:
    the escape-time evaluator [mandelbrot], the two column computations of
    the renderer ([mandelbrotThreadX] on the worker, [DrawMandelbrotX] on
    the coordinator), the cursor overlay [MoveCursor] and the navigation
    commands [ZoomIn], [ZoomOut], [Center] and [ChangeRez].

    Numbers.  Python [int] is [Z].  Python [float] is modelled by the exact
    rationals [Q]: rounding is not modelled, which is stated wherever a
    result depends on it.  The complex arithmetic of the evaluator is kept
    behind an interface, so that the properties of the loop hold for every
    implementation of it.

    Exceptions.  A function that can raise returns an [option], and [None]
    is the exception: an [IndexError] of a subscript, or the [NameError]
    of a global name that is read before it is bound. *)

From Stdlib Require Import ZArith QArith Qround Lia Lra Psatz Bool Strings.Byte.
From stdpp Require Import base option list.

Local Open Scope Z_scope.

(** ** Complex arithmetic used by the evaluator *)

(** What [mandelbrot] needs from Python's [complex]: the initial [0], the
    update [mz*mz + c], the test [abs(mz) <= 2], and [complex(xx, yy)]. *)
Class ComplexArith (C : Type) := {
  czero : C;
  csqr_add : C -> C -> C;
  cabs_le2 : C -> bool;
  cmake : Q -> Q -> C;
  cabs_le2_zero : cabs_le2 czero = true
}.

(** Exact complex numbers over the rationals. *)
Record qcomplex := QComplex { re : Q; im : Q }.

Definition qc_sqr_add (z c : qcomplex) : qcomplex :=
  QComplex (re z * re z - im z * im z + re c)%Q
           (re z * im z + im z * re z + im c)%Q.

(** [abs(z) <= 2] is [re^2 + im^2 <= 4], decided exactly.  Python's
    [abs] rounds, so the program's test can differ from this one for a
    point within rounding of the circle of radius 2; what is proved for
    every [ComplexArith] does not rest on this instance. *)
Definition qc_abs_le2 (z : qcomplex) : bool :=
  Qle_bool (re z * re z + im z * im z)%Q 4%Q.

#[export] Instance qcomplex_arith : ComplexArith qcomplex := {|
  czero := QComplex 0 0;
  csqr_add := qc_sqr_add;
  cabs_le2 := qc_abs_le2;
  cmake := QComplex;
  cabs_le2_zero := eq_refl
|}.

(** ** The escape-time evaluator *)

Section Evaluator.
Context {C : Type} `{ComplexArith C}.

(** The loop of [mandelbrot], with the iteration bound [MAX_ITER] (a
    Python number: [15], [30], or [15.0] after two toggles) passed in.
    [fuel] bounds the number of times the loop test is evaluated. *)
Fixpoint mandelbrot_loop (fuel : nat) (MAX_ITER : Q) (c mz : C) (n : Z)
  : option Z :=
  match fuel with
  | O => None
  | S fuel' =>
      if cabs_le2 mz && Qle_bool (inject_Z n) MAX_ITER
      then mandelbrot_loop fuel' MAX_ITER c (csqr_add mz c) (n + 1)
      else Some n
  end.

(** The loop test is evaluated for [n = 0 .. floor MAX_ITER + 1], and
    once when the bound is negative. *)
Definition mandelbrot_fuel (MAX_ITER : Q) : nat :=
  S (Z.to_nat (Qfloor MAX_ITER + 1)).

Definition mandelbrot (MAX_ITER : Q) (c : C) : option Z :=
  mandelbrot_loop (mandelbrot_fuel MAX_ITER) MAX_ITER c czero 0.

(** The value of [mz] after [k] passes through the loop body. *)
Fixpoint orbit (c : C) (k : nat) : C :=
  match k with
  | O => czero
  | S k' => csqr_add (orbit c k') c
  end.

(** The loop test at counter [k]. *)
Definition continues (MAX_ITER : Q) (c : C) (k : nat) : bool :=
  cabs_le2 (orbit c k) && Qle_bool (inject_Z (Z.of_nat k)) MAX_ITER.
End Evaluator.

(** ** Python values used by the program *)

(** [int(q)] on a float truncates toward zero. *)
Definition py_int (q : Q) : Z := Qnum q ÷ Z.pos (Qden q).

(** [range(n)] and [range(0, n, 2)]. *)
Definition py_range (n : Z) : list Z := seqZ 0 n.
Definition py_range2 (n : Z) : list Z :=
  (fun k => 2 * k) <$> seqZ 0 ((n + 1) `div` 2).

(** Subscripting a [list] or [bytearray] of length [len] with [i]: negative
    subscripts count from the end, anything else out of range raises
    [IndexError] ([None]). *)
Definition py_index (len : nat) (i : Z) : option nat :=
  if bool_decide (0 <= i < Z.of_nat len) then Some (Z.to_nat i)
  else if bool_decide (- Z.of_nat len <= i < 0) then Some (Z.to_nat (Z.of_nat len + i))
  else None.

Definition getitem {A} (a : list A) (i : Z) : option A :=
  k ← py_index (length a) i; a !! k.

Definition setitem {A} (a : list A) (i : Z) (v : A) : option (list A) :=
  k ← py_index (length a) i; Some (<[k := v]> a).

(** A [for] loop over a list of subscripts whose body may raise. *)
Fixpoint for_each {S} (body : Z -> S -> option S) (idxs : list Z) (s : S)
  : option S :=
  match idxs with
  | [] => Some s
  | i :: rest => s' ← body i s; for_each body rest s'
  end.

(** ** Settings and the palette *)

Definition rgb : Type := Z * Z * Z.

Definition pen_colour : list rgb :=
  [ (0,0,0);
    (255,0,0); (0,255,0); (0,0,255); (255,255,0); (255,0,255); (0,255,255);
    (255,255,255);
    (128,0,0); (0,128,0); (0,0,128); (128,128,0); (128,0,128); (0,128,128);
    (128,128,128) ].

(** [MAX_COLOURS = 10] then [MAX_COLOURS = min(MAX_COLOURS, len(pen_colour))]. *)
Definition MAX_COLOURS : Z := Z.min 10 (Z.of_nat (length pen_colour)).

(** The viewport globals [realStart], [realEnd], [imStart], [imEnd]. *)
Record viewport := Viewport {
  realStart : Q; realEnd : Q; imStart : Q; imEnd : Q
}.

Definition default_viewport : viewport :=
  Viewport (-(205 # 100)) (55 # 100) (-(12 # 10)) (12 # 10).

Definition default_MAX_ITER : Q := 15.

(** ** The column renderer *)

(** What the render pass asks of the display: a pixel plotted with the pen
    made from palette entry [idx], and [display.update()]. *)
Inductive display_op :=
| Plot (x y : Z) (idx : Z) (pen : rgb)
| Update.

Definition is_update (op : display_op) : bool :=
  match op with Update => true | Plot _ _ _ _ => false end.

Section Renderer.
Context {C : Type} `{ComplexArith C}.
Variables (WIDTH HEIGHT : Z) (MAX_ITER : Q) (view : viewport).

(** [xx = realStart + (x / WIDTH) * (realEnd - realStart)], and [yy]. *)
Definition sample_re (x : Z) : Q :=
  (realStart view
   + (inject_Z x / inject_Z WIDTH) * (realEnd view - realStart view))%Q.
Definition sample_im (y : Z) : Q :=
  (imStart view
   + (inject_Z y / inject_Z HEIGHT) * (imEnd view - imStart view))%Q.

(** One pixel of [mandelbrotThreadX]: the colour stored in [results[y]]. *)
Definition thread_colour (x y : Z) : option Z :=
  m ← mandelbrot MAX_ITER (cmake (sample_re x) (sample_im y));
  Some ((m - 1) `mod` 15).

(** One pixel of the coordinator's column in [DrawMandelbrotX]. *)
Definition main_colour (x1 y : Z) : option Z :=
  m ← mandelbrot MAX_ITER (cmake (sample_re x1) (sample_im y));
  Some ((m - 1) `mod` MAX_COLOURS).

(** [mandelbrotThreadX(x)] on the shared [results] list ([False] is 0). *)
Definition mandelbrotThreadX (x : Z) (results : list Z) : option (list Z) :=
  for_each (fun y results =>
              results ← setitem results y 0;
              colour ← thread_colour x y;
              setitem results y colour)
           (py_range HEIGHT) results.

(** [set_pen(create_pen(pen_colour[i][0], ...)); pixel(x, y)]. *)
Definition plot (x y i : Z) : option display_op :=
  pen ← getitem pen_colour i; Some (Plot x y i pen).

(** The coordinator's own column. *)
Definition main_column (x1 : Z) (trace : list display_op)
  : option (list display_op) :=
  for_each (fun y trace =>
              colour ← main_colour x1 y;
              if bool_decide (colour > 0)
              then op ← plot x1 y colour; Some (trace ++ [op])
              else Some trace)
           (py_range HEIGHT) trace.

(** Plotting the column the thread left in [results]. *)
Definition plot_results (x : Z) (results : list Z) (trace : list display_op)
  : option (list display_op) :=
  for_each (fun y trace =>
              r ← getitem results y;
              if bool_decide (r <> 0)
              then op ← plot x y r; Some (trace ++ [op])
              else Some trace)
           (py_range HEIGHT) trace.

(** One pass through the body of the [x] loop.  The thread only writes
    [results] and the coordinator reads it after [resultsReady], so the
    two columns are computed one after the other here. *)
Definition draw_pair (x : Z) (st : list Z * list display_op)
  : option (list Z * list display_op) :=
  let '(results, trace) := st in
  results ← mandelbrotThreadX x results;
  trace ← main_column (x + 1) trace;
  trace ← plot_results x results trace;
  Some (results, if bool_decide (x `mod` 2 = 0) then trace ++ [Update] else trace).

Definition DrawMandelbrotX (results : list Z)
  : option (list Z * list display_op) :=
  '(results, trace) ← for_each draw_pair (py_range2 WIDTH) (results, []);
  Some (results, trace ++ [Update]).
End Renderer.

(** The number of [display.update()] calls in a trace. *)
Definition flushes (trace : list display_op) : nat :=
  length (List.filter is_update trace).

(** What the shared [results] list looks like between columns: one entry
    per row, each a colour stored by the thread (or the initial [False]). *)
Definition results_ok (HEIGHT : Z) (results : list Z) : Prop :=
  Z.of_nat (length results) = HEIGHT /\ Forall (fun c => 0 <= c <= 14) results.

(** A plotted pixel used a palette entry other than entry 0. *)
Definition plot_ok (op : display_op) : Prop :=
  match op with
  | Plot _ _ i pen => 0 < i <= 14 /\ pen_colour !! Z.to_nat i = Some pen
  | Update => True
  end.

(** What a column loop keeps true of the trace. *)
Definition trace_kept (trace trace' : list display_op) : Prop :=
  (Forall plot_ok trace -> Forall plot_ok trace')
  /\ flushes trace' = flushes trace.

(** ** Program state *)

(** A cursor rectangle: [left, right, top, bottom] of the source, and
    [left0, right0, top0, bottom0] for the previous one. *)
Record region := Region { left : Z; right : Z; top : Z; bottom : Z }.

Record globals := Globals {
  MAX_ITER : Q;
  isHiRez : bool;
  view : viewport;
  buffer : list Byte.byte;
  top_pix : list Byte.byte;
  bottom_pix : list Byte.byte;
  left_pix : list Byte.byte;
  right_pix : list Byte.byte;
  prev : region;
  cur : region;
  x0 : option Z; y0 : option Z; z : option Z;
  newHeight : option Z; newWidth : option Z;
  nextSensorRead : Z
}.

(** The names [x0], [y0], [z], [newHeight] and [newWidth] are bound by
    [MoveCursor] only; [None] is a name that is not bound yet.  [ZoomIn]
    prints [z], [newWidth] and [newHeight]. *)
Definition cursor_bound (s : globals) : Prop :=
  is_Some (z s) /\ is_Some (newWidth s) /\ is_Some (newHeight s).

(** What the hardware reports during one call: the two clock readings of
    [MoveCursor], the three potentiometer voltages, the four buttons. *)
Record inputs := Inputs {
  ticks_ms : Z;
  ticks_ms_end : Z;
  mPot0 : Q;
  mPot1 : Q;
  mZoomPot : Q;
  buttonZoomIn : bool;
  buttonCenter : bool;
  buttonZoomOut : bool;
  buttonRez : bool
}.

#[export] Instance byte_eq_decision : EqDecision Byte.byte := Byte.byte_eq_dec.

Definition WHITE : Byte.byte := Byte.xff.
Definition BLACK : Byte.byte := Byte.x00.

(** ** The display driver, as far as the overlay uses it *)

(** [display.line(x1, y1, x2, y2)] with the current pen, on the frame
    buffer of a [WIDTH] by [HEIGHT] display.  The driver is not part of the
    program; what is assumed of it is that it keeps the buffer's size and
    leaves every pixel outside the (clipped) segment alone. *)
Class DisplayDriver := {
  display_line :
    Z -> Z -> Byte.byte -> Z -> Z -> Z -> Z -> list Byte.byte -> list Byte.byte;
  display_line_length W H pen x1 y1 x2 y2 buf :
    length (display_line W H pen x1 y1 x2 y2 buf) = length buf;
  display_line_frame W H pen x1 y1 x2 y2 buf (k : nat) :
    (forall x y, Z.min x1 x2 <= x <= Z.max x1 x2 ->
                 Z.min y1 y2 <= y <= Z.max y1 y2 ->
                 0 <= x < W -> 0 <= y < H -> Z.of_nat k <> x + y * W) ->
    display_line W H pen x1 y1 x2 y2 buf !! k = buf !! k
}.

(** A driver for horizontal and vertical lines, end points included; it
    meets what is assumed of a display driver. *)
Definition axis_line (W H : Z) (pen : Byte.byte) (x1 y1 x2 y2 : Z)
  (buf : list Byte.byte) : list Byte.byte :=
  imap (fun k v =>
          let x := Z.of_nat k `mod` W in
          let y := Z.of_nat k `div` W in
          if bool_decide (0 < W /\ y < H /\ (x1 = x2 \/ y1 = y2)
                          /\ Z.min x1 x2 <= x <= Z.max x1 x2
                          /\ Z.min y1 y2 <= y <= Z.max y1 y2)
          then pen else v) buf.

Definition axis_display : DisplayDriver.
Proof.
  refine (Build_DisplayDriver axis_line _ _).
  - intros W H pen x1 y1 x2 y2 buf. unfold axis_line. apply length_imap.
  - intros W H pen x1 y1 x2 y2 buf k Hoff.
    unfold axis_line. rewrite list_lookup_imap.
    destruct (buf !! k) as [v|]; [|reflexivity]. simpl. f_equal.
    case_bool_decide as Hc; [|reflexivity]. exfalso.
    destruct Hc as (HW & HyH & _ & Hx & Hy).
    apply (Hoff (Z.of_nat k `mod` W) (Z.of_nat k `div` W)); try assumption.
    + apply Z.mod_pos_bound. assumption.
    + split; [apply Z.div_pos; lia|assumption].
    + pose proof (Z.div_mod (Z.of_nat k) W). lia.
Defined.

(** ** The cursor overlay *)

(** The three knob readings.  [int()] truncates the exact product here;
    the program truncates the rounded float, which can be one less (or
    more) when the exact product is an integer: 2.475 V on 8 rows is row
    2 here and row 1 in the program.  No statement below rests on a
    reading at such a voltage. *)
Definition getCursorX (WIDTH : Z) (voltage : Q) : Z :=
  py_int (voltage / (33 # 10) * inject_Z WIDTH)%Q.

Definition getCursorY (HEIGHT : Z) (voltage : Q) : Z :=
  py_int (inject_Z HEIGHT - voltage / (33 # 10) * inject_Z HEIGHT)%Q.

Definition getZoomLevel (WIDTH HEIGHT : Z) (voltage : Q) : Z :=
  py_int (voltage / (33 # 10) * inject_Z (Z.min HEIGHT WIDTH))%Q.

(** The four save buffers [top_pix, bottom_pix, left_pix, right_pix]. *)
Record edges := Edges {
  e_top : list Byte.byte; e_bottom : list Byte.byte;
  e_left : list Byte.byte; e_right : list Byte.byte
}.

Section Overlay.
Context `{DisplayDriver}.
Variables (WIDTH HEIGHT : Z).

(** The first half of [MoveCursor]: zoom, clamped centre, rectangle. *)
Definition cursor_zoom (inp : inputs) : Z :=
  getZoomLevel WIDTH HEIGHT (mZoomPot inp).
Definition cursor_newHeight (inp : inputs) : Z :=
  py_int (inject_Z (cursor_zoom inp) / 2)%Q.
Definition cursor_newWidth (inp : inputs) : Z :=
  py_int (inject_Z (cursor_zoom inp * WIDTH) / inject_Z HEIGHT / 2)%Q.
Definition cursor_x0 (inp : inputs) : Z :=
  let x0 := getCursorX WIDTH (mPot0 inp) in
  let x0 := Z.max (cursor_newWidth inp) x0 in
  Z.min x0 (WIDTH - 1 - cursor_newWidth inp).
Definition cursor_y0 (inp : inputs) : Z :=
  let y0 := getCursorY HEIGHT (mPot1 inp) in
  let y0 := Z.max (cursor_newHeight inp) y0 in
  Z.min y0 (HEIGHT - 1 - cursor_newHeight inp).
Definition cursor_region (inp : inputs) : region :=
  Region (cursor_x0 inp - cursor_newWidth inp)
         (cursor_x0 inp + cursor_newWidth inp)
         (cursor_y0 inp - cursor_newHeight inp)
         (cursor_y0 inp + cursor_newHeight inp).

(** "restore previous cursor rectangle outline" *)
Definition restore_outline (r0 : region) (pix : edges)
  (buffer : list Byte.byte) : option (list Byte.byte) :=
  buffer ← for_each (fun i buffer =>
      v ← getitem (e_top pix) i;
      buffer ← setitem buffer (left r0 + i - 1 + top r0 * WIDTH) v;
      v ← getitem (e_bottom pix) i;
      setitem buffer (left r0 + i + bottom r0 * WIDTH) v)
    (py_range (right r0 - left r0 + 1)) buffer;
  for_each (fun i buffer =>
      v ← getitem (e_left pix) i;
      buffer ← setitem buffer (left r0 + (top r0 + i) * WIDTH) v;
      v ← getitem (e_right pix) i;
      setitem buffer (right r0 + (top r0 + i - 1) * WIDTH) v)
    (py_range (bottom r0 - top r0 + 1)) buffer.

(** "store new cursor rectangle outline" *)
Definition save_outline (r : region) (buffer : list Byte.byte)
  (pix : edges) : option edges :=
  pix ← for_each (fun i pix =>
      v ← getitem buffer (left r + i - 1 + top r * WIDTH);
      tp ← setitem (e_top pix) i v;
      v ← getitem buffer (left r + i + bottom r * WIDTH);
      bp ← setitem (e_bottom pix) i v;
      Some (Edges tp bp (e_left pix) (e_right pix)))
    (py_range (right r - left r + 1)) pix;
  for_each (fun i pix =>
      v ← getitem buffer (left r + (top r + i) * WIDTH);
      lp ← setitem (e_left pix) i v;
      v ← getitem buffer (right r + (top r + i - 1) * WIDTH);
      rp ← setitem (e_right pix) i v;
      Some (Edges (e_top pix) (e_bottom pix) lp rp))
    (py_range (bottom r - top r + 1)) pix.

(** "draw cursor rectangle outline": the four [display.line] calls. *)
Definition draw_outline (r : region) (buffer : list Byte.byte)
  : list Byte.byte :=
  let line := display_line WIDTH HEIGHT WHITE in
  let buffer := line (left r) (top r) (right r) (top r) buffer in
  let buffer := line (right r) (top r) (right r) (bottom r) buffer in
  let buffer := line (left r) (bottom r) (right r) (bottom r) buffer in
  line (left r) (top r) (left r) (bottom r) buffer.

Definition pix_of (s : globals) : edges :=
  Edges (top_pix s) (bottom_pix s) (left_pix s) (right_pix s).

(** Is there a previous cursor to restore? *)
Definition has_previous (r0 : region) : bool :=
  negb (left r0 + right r0 + top r0 + bottom r0 =? 0).

(** The buffer after the restore step, before the new outline is saved
    and drawn. *)
Definition restore_previous (s : globals) : option (list Byte.byte) :=
  if has_previous (prev s)
  then restore_outline (prev s) (pix_of s) (buffer s)
  else Some (buffer s).

(** [MoveCursor].  [display.update()] sends the frame buffer to the panel
    and changes none of the globals, so it does not appear. *)
Definition MoveCursor (inp : inputs) (s : globals) : option globals :=
  if ticks_ms inp >=? nextSensorRead s then
    let r := cursor_region inp in
    if bool_decide (left (prev s) <> left r \/ right (prev s) <> right r
                    \/ top (prev s) <> top r \/ bottom (prev s) <> bottom r)
    then
      buffer ← restore_previous s;
      pix ← save_outline r buffer (pix_of s);
      let buffer := draw_outline r buffer in
      Some (Globals (MAX_ITER s) (isHiRez s) (view s)
              buffer (e_top pix) (e_bottom pix) (e_left pix) (e_right pix)
              r r
              (Some (cursor_x0 inp)) (Some (cursor_y0 inp))
              (Some (cursor_zoom inp))
              (Some (cursor_newHeight inp)) (Some (cursor_newWidth inp))
              (ticks_ms_end inp + 100))
    else
      Some (Globals (MAX_ITER s) (isHiRez s) (view s)
              (buffer s) (top_pix s) (bottom_pix s) (left_pix s) (right_pix s)
              (prev s) r
              (Some (cursor_x0 inp)) (Some (cursor_y0 inp))
              (Some (cursor_zoom inp))
              (Some (cursor_newHeight inp)) (Some (cursor_newWidth inp))
              (ticks_ms_end inp + 100))
  else Some s.
End Overlay.

(** ** Navigation commands *)

Definition with_view (v : viewport) (s : globals) : globals :=
  Globals (MAX_ITER s) (isHiRez s) v
    (buffer s) (top_pix s) (bottom_pix s) (left_pix s) (right_pix s)
    (prev s) (cur s) (x0 s) (y0 s) (z s) (newHeight s) (newWidth s)
    (nextSensorRead s).

Definition with_rez (hi : bool) (max_iter : Q) (s : globals) : globals :=
  Globals max_iter hi (view s)
    (buffer s) (top_pix s) (bottom_pix s) (left_pix s) (right_pix s)
    (prev s) (cur s) (x0 s) (y0 s) (z s) (newHeight s) (newWidth s)
    (nextSensorRead s).

Section Navigation.
Variables (WIDTH HEIGHT : Z).

(** The viewport arithmetic of [ZoomIn]; [realEnd] is computed from the
    new [realStart].  The bounds are exact here; in the program's floats
    they round, and at a deep zoom onto each other. *)
Definition zoom_in_view (r : region) (v : viewport) : viewport :=
  let realRange := (realEnd v - realStart v)%Q in
  let imRange := (imEnd v - imStart v)%Q in
  let realStart' :=
    (realStart v + realRange * inject_Z (left r) / inject_Z WIDTH)%Q in
  let realEnd' :=
    (realStart' + inject_Z (right r - left r) * realRange / inject_Z WIDTH)%Q in
  let imStart' :=
    (imStart v + imRange * inject_Z (top r) / inject_Z HEIGHT)%Q in
  let imEnd' :=
    (imStart' + inject_Z (bottom r - top r) * imRange / inject_Z HEIGHT)%Q in
  Viewport realStart' realEnd' imStart' imEnd'.

(** [ZoomIn].  Its second [print] reads [z], [newWidth] and [newHeight]:
    a [NameError] ([None]) while [MoveCursor] has not bound them. *)
Definition ZoomIn (inp : inputs) (s : globals) : option (bool * globals) :=
  let pressed := buttonZoomIn inp in
  if pressed then
    _ ← z s; _ ← newWidth s; _ ← newHeight s;
    Some (pressed, with_view (zoom_in_view (cur s) (view s)) s)
  else Some (pressed, s).

Definition zoom_out_view (v : viewport) : viewport :=
  let zoomDelta := 2%Q in
  let realRange := (realEnd v - realStart v)%Q in
  let imRange := (imEnd v - imStart v)%Q in
  let realDelta := (realRange / zoomDelta)%Q in
  let imDelta := (imRange / zoomDelta)%Q in
  Viewport (realStart v - realDelta) (realEnd v + realDelta)
           (imStart v - imDelta) (imEnd v + imDelta).

Definition ZoomOut (inp : inputs) (s : globals) : bool * globals :=
  let pressed := buttonZoomOut inp in
  (pressed, if pressed then with_view (zoom_out_view (view s)) s else s).

Definition ChangeRez (inp : inputs) (s : globals) : bool * globals :=
  let pressed := buttonRez inp in
  (pressed,
   if pressed then
     let isHiRez' := negb (isHiRez s) in
     if isHiRez' then with_rez isHiRez' (MAX_ITER s * 2)%Q s
     else with_rez isHiRez' (MAX_ITER s / 2)%Q s
   else s).

Definition center_view (inp : inputs) (v : viewport) : viewport :=
  let realRange := (realEnd v - realStart v)%Q in
  let imRange := (imEnd v - imStart v)%Q in
  let xDelta := getCursorX WIDTH (mPot0 inp) - Z.shiftr WIDTH 1 in
  let yDelta := getCursorY HEIGHT (mPot1 inp) - Z.shiftr HEIGHT 1 in
  let realDelta := (realRange * inject_Z xDelta / inject_Z WIDTH)%Q in
  let imDelta := (imRange * inject_Z yDelta / inject_Z HEIGHT)%Q in
  Viewport (realStart v + realDelta) (realEnd v + realDelta)
           (imStart v + imDelta) (imEnd v + imDelta).

Definition Center (inp : inputs) (s : globals) : bool * globals :=
  let pressed := buttonCenter inp in
  (pressed, if pressed then with_view (center_view inp (view s)) s else s).

(** [ChangeRez() or Center() or ZoomIn() or ZoomOut()], left to right,
    stopping at the first button found pressed. *)
Definition ButtonPressed (inp : inputs) (s : globals)
  : option (bool * globals) :=
  let '(pressed, s) := ChangeRez inp s in
  if pressed then Some (true, s) else
  let '(pressed, s) := Center inp s in
  if pressed then Some (true, s) else
  '(pressed, s) ← ZoomIn inp s;
  if pressed : bool then Some (true, s) else
  Some (ZoomOut inp s).
End Navigation.

(** ** The program at start-up *)

(** The globals as [main] leaves them when the first render pass begins:
    a cleared frame buffer, zeroed save buffers, no previous cursor.  The
    names that only [MoveCursor] assigns are not bound yet. *)
Definition startup_globals (WIDTH HEIGHT : Z) : globals :=
  Globals default_MAX_ITER false default_viewport
    (replicate (Z.to_nat (WIDTH * HEIGHT)) BLACK)
    (replicate (Z.to_nat WIDTH) BLACK) (replicate (Z.to_nat WIDTH) BLACK)
    (replicate (Z.to_nat HEIGHT) BLACK) (replicate (Z.to_nat HEIGHT) BLACK)
    (Region 0 0 0 0) (Region 0 0 0 0)
    None None None None None (-1).

(** [results = [False] * HEIGHT]. *)
Definition startup_results (HEIGHT : Z) : list Z :=
  replicate (Z.to_nat HEIGHT) 0.

(** Hardware readings with no button pressed. *)
Definition idle_inputs (now : Z) (vx vy vzoom : Q) : inputs :=
  Inputs now now vx vy vzoom false false false false.

Definition press_Y (inp : inputs) : inputs :=
  Inputs (ticks_ms inp) (ticks_ms_end inp) (mPot0 inp) (mPot1 inp)
    (mZoomPot inp) (buttonZoomIn inp) (buttonCenter inp) (buttonZoomOut inp)
    true.

Definition press_A (inp : inputs) : inputs :=
  Inputs (ticks_ms inp) (ticks_ms_end inp) (mPot0 inp) (mPot1 inp)
    (mZoomPot inp) true (buttonCenter inp) (buttonZoomOut inp)
    (buttonRez inp).

(** The rectangle that covers every pixel of the surface. *)
Definition full_surface (WIDTH HEIGHT : Z) : region :=
  Region 0 (WIDTH - 1) 0 (HEIGHT - 1).

(** The cursor rectangle lies on the surface. *)
Definition region_on_surface (WIDTH HEIGHT : Z) (r : region) : Prop :=
  0 <= left r <= right r /\ right r < WIDTH
  /\ 0 <= top r <= bottom r /\ bottom r < HEIGHT.

(** ** A small surface for running the overlay *)

(** An 8 by 8 frame buffer whose 64 bytes are all different, and none of
    them the pen of the cursor. *)
Definition test_surface : list Byte.byte :=
  omap (fun n => Byte.of_N (N.of_nat n)) (seq 1 64).

(** The start-up globals of an 8 by 8 display with that picture on it. *)
Definition test_globals : globals :=
  let s := startup_globals 8 8 in
  Globals (MAX_ITER s) (isHiRez s) (view s)
    test_surface (top_pix s) (bottom_pix s) (left_pix s) (right_pix s)
    (prev s) (cur s) (x0 s) (y0 s) (z s) (newHeight s) (newWidth s)
    (nextSensorRead s).

(** Knob positions that give the rectangles (1,3,1,3), (5,7,5,7) and
    (0,0,0,0) on the 8 by 8 display.  The voltages of the first two put
    every product that [int()] truncates half-way between two integers
    (2.5, 5.5, 6.5, 1.5), so that rounding in the program's floats gives
    the same rectangles; those of the third are exact in floats. *)
Definition knobs_1313 (now : Z) : inputs :=
  idle_inputs now (33 # 32) (363 # 160) (33 # 32).
Definition knobs_5757 (now : Z) : inputs :=
  idle_inputs now (429 # 160) (99 # 160) (33 # 32).
Definition knobs_0000 (now : Z) : inputs :=
  idle_inputs now 0 (33 # 10) 0.

(** Knob positions that give the rectangle (0,6,0,6), the whole surface,
    on a 7 by 7 display: the zoom level is [int(6.5) = 6]. *)
Definition knobs_full_7 (now : Z) : inputs :=
  idle_inputs now (165 # 100) (165 # 100) (429 # 140).

(** ** Vocabulary for the overlay *)

(** The place of pixel [(x, y)] in the frame buffer. *)
Definition pixel (WIDTH x y : Z) : nat := Z.to_nat (x + y * WIDTH).

(** The pixels of the outline of [r]. *)
Definition on_border (r : region) (x y : Z) : Prop :=
  left r <= x <= right r /\ top r <= y <= bottom r
  /\ (x = left r \/ x = right r \/ y = top r \/ y = bottom r).

Definition regions_disjoint (r1 r2 : region) : Prop :=
  right r1 < left r2 \/ right r2 < left r1
  \/ bottom r1 < top r2 \/ bottom r2 < top r1.

(** The sizes [bytearray(WIDTH*HEIGHT)], [bytearray(WIDTH)] and
    [bytearray(HEIGHT)] of the frame buffer and the save buffers. *)
Definition edges_ok (WIDTH HEIGHT : Z) (pix : edges) : Prop :=
  Z.of_nat (length (e_top pix)) = WIDTH
  /\ Z.of_nat (length (e_bottom pix)) = WIDTH
  /\ Z.of_nat (length (e_left pix)) = HEIGHT
  /\ Z.of_nat (length (e_right pix)) = HEIGHT.

Definition buffer_ok (WIDTH HEIGHT : Z) (buffer : list Byte.byte) : Prop :=
  Z.of_nat (length buffer) = WIDTH * HEIGHT.

(** The frame-buffer subscripts of the four loops over an outline. *)
Definition top_sub (WIDTH : Z) (r : region) (i : Z) : Z :=
  left r + i - 1 + top r * WIDTH.
Definition bottom_sub (WIDTH : Z) (r : region) (i : Z) : Z :=
  left r + i + bottom r * WIDTH.
Definition left_sub (WIDTH : Z) (r : region) (i : Z) : Z :=
  left r + (top r + i) * WIDTH.
Definition right_sub (WIDTH : Z) (r : region) (i : Z) : Z :=
  right r + (top r + i - 1) * WIDTH.

(** Entry [i] of the save buffer [a] holds what [b0] has at [sub i]. *)
Definition saved (a b0 : list Byte.byte) (sub : Z -> Z) (i : Z) : Prop :=
  exists v, getitem a i = Some v /\ getitem b0 (sub i) = Some v.

(** The save buffers hold the outline of [r] as it is in [b0]. *)
Definition saved_outline (WIDTH : Z) (r : region) (b0 : list Byte.byte)
  (pix : edges) : Prop :=
  (forall i, 0 <= i <= right r - left r ->
     saved (e_top pix) b0 (top_sub WIDTH r) i
     /\ saved (e_bottom pix) b0 (bottom_sub WIDTH r) i)
  /\ (forall i, 0 <= i <= bottom r - top r ->
     saved (e_left pix) b0 (left_sub WIDTH r) i
     /\ saved (e_right pix) b0 (right_sub WIDTH r) i).

(** Place [k] of the frame buffer is written by the restore loops for [r]. *)
Definition restored_place (WIDTH : Z) (r : region) (len : nat) (k : nat)
  : Prop :=
  (exists i, 0 <= i <= right r - left r
     /\ (py_index len (top_sub WIDTH r i) = Some k
         \/ py_index len (bottom_sub WIDTH r i) = Some k))
  \/ (exists i, 0 <= i <= bottom r - top r
     /\ (py_index len (left_sub WIDTH r i) = Some k
         \/ py_index len (right_sub WIDTH r i) = Some k)).

(** ** The outer loop *)

(** "reset previous cursor", lines 357 and 358 of [Loop]: the previous
    rectangle becomes (0,0,0,0) and entry 0 of each save buffer is set
    to 0. *)
Definition reset_previous_cursor (s : globals) : option globals :=
  tp ← setitem (top_pix s) 0 Byte.x00;
  bp ← setitem (bottom_pix s) 0 Byte.x00;
  lp ← setitem (left_pix s) 0 Byte.x00;
  rp ← setitem (right_pix s) 0 Byte.x00;
  Some (Globals (MAX_ITER s) (isHiRez s) (view s) (buffer s) tp bp lp rp
          (Region 0 0 0 0) (cur s) (x0 s) (y0 s) (z s)
          (newHeight s) (newWidth s) (nextSensorRead s)).

Section Tracking.
Context `{DisplayDriver}.
Variables (WIDTH HEIGHT : Z).

(** [while not ButtonPressed(): MoveCursor()], run on the hardware readings
    of its successive passes, one [inputs] per pass.  The result says
    whether a button ended the loop before the readings ran out; [None] is
    an exception raised by [ZoomIn] or [MoveCursor]. *)
Fixpoint track (readings : list inputs) (s : globals)
  : option (bool * globals) :=
  match readings with
  | [] => Some (false, s)
  | inp :: rest =>
      '(pressed, s) ← ButtonPressed WIDTH HEIGHT inp s;
      if pressed : bool then Some (true, s)
      else s ← MoveCursor WIDTH HEIGHT inp s; track rest s
  end.
End Tracking.

(** [display.clear()] and [display.pixel(x, y)] with the current pen, on
    the frame buffer of a [WIDTH] by [HEIGHT] display.  All that is
    assumed of the driver is that it keeps the buffer's size. *)
Class PlotDriver := {
  display_clear : Z -> Z -> Byte.byte -> list Byte.byte -> list Byte.byte;
  display_clear_length W H pen buf :
    length (display_clear W H pen buf) = length buf;
  display_pixel : Z -> Z -> rgb -> Z -> Z -> list Byte.byte -> list Byte.byte;
  display_pixel_length W H pen x y buf :
    length (display_pixel W H pen x y buf) = length buf
}.

(** The RGB332 pen of a colour: three bits of red, three of green, two of
    blue. *)
Definition rgb332 (c : rgb) : Byte.byte :=
  let '(r, g, b) := c in
  default Byte.x00
    (Byte.of_N (Z.to_N (Z.lor (Z.land r 224)
                          (Z.lor (Z.shiftr (Z.land g 224) 3) (Z.shiftr b 6))))).

(** A driver that writes the frame buffer directly and clips at the edge
    of the surface. *)
Definition direct_pixel (W H : Z) (pen : rgb) (x y : Z) (buf : list Byte.byte)
  : list Byte.byte :=
  if bool_decide (0 <= x < W /\ 0 <= y < H)
  then <[Z.to_nat (x + y * W) := rgb332 pen]> buf
  else buf.

Definition direct_plot : PlotDriver.
Proof.
  refine (Build_PlotDriver (fun W H pen buf => replicate (length buf) pen) _
            direct_pixel _).
  - intros W H pen buf. apply length_replicate.
  - intros W H pen x y buf. unfold direct_pixel.
    case_bool_decide; [apply length_insert|reflexivity].
Defined.

Definition with_buffer (b : list Byte.byte) (s : globals) : globals :=
  Globals (MAX_ITER s) (isHiRez s) (view s)
    b (top_pix s) (bottom_pix s) (left_pix s) (right_pix s)
    (prev s) (cur s) (x0 s) (y0 s) (z s) (newHeight s) (newWidth s)
    (nextSensorRead s).

Section MainLoop.
Context {C : Type} `{ComplexArith C} {line_driver : DisplayDriver}
  {plot_driver : PlotDriver}.
Variables (WIDTH HEIGHT : Z).

(** What a display request of the render pass does to the frame buffer. *)
Definition paint (buf : list Byte.byte) (op : display_op) : list Byte.byte :=
  match op with
  | Plot x y _ pen => display_pixel WIDTH HEIGHT pen x y buf
  | Update => buf
  end.

(** The assignments of [Loop] before its [while True]. *)
Definition Loop_init (s : globals) : globals :=
  Globals (MAX_ITER s) false (view s)
    (buffer s) (top_pix s) (bottom_pix s) (left_pix s) (right_pix s)
    (prev s) (cur s) (x0 s) (y0 s) (z s) (newHeight s) (newWidth s) (-1).

(** One pass through the body of [while True]: clear the screen, forget
    the previous cursor, render, then track the cursor until a button is
    pressed.  [readings] are the hardware readings of the successive passes
    of the tracking loop; the result says whether a button ended it. *)
Definition Loop_pass (readings : list inputs) (st : globals * list Z)
  : option (bool * (globals * list Z)) :=
  let '(s, results) := st in
  let s := with_buffer (display_clear WIDTH HEIGHT BLACK (buffer s)) s in
  s ← reset_previous_cursor s;
  '(results, trace) ← DrawMandelbrotX WIDTH HEIGHT (MAX_ITER s) (view s) results;
  let s := with_buffer (foldl paint (buffer s) trace) s in
  '(pressed, s) ← track WIDTH HEIGHT readings s;
  Some (pressed, (s, results)).

(** [while True], for as many passes as there are lists of readings; it
    stops early, with [false], when the readings of a pass run out before
    a button is pressed. *)
Fixpoint Loop_passes (passes : list (list inputs)) (st : globals * list Z)
  : option (bool * (globals * list Z)) :=
  match passes with
  | [] => Some (true, st)
  | readings :: rest =>
      '(pressed, st) ← Loop_pass readings st;
      if pressed : bool then Loop_passes rest st else Some (false, st)
  end.

(** [Loop] *)
Definition Loop (passes : list (list inputs)) (st : globals * list Z)
  : option (bool * (globals * list Z)) :=
  Loop_passes passes (Loop_init st.1, st.2).
End MainLoop.

(** ** Vocabulary for the navigation commands *)

Definition press_X (inp : inputs) : inputs :=
  Inputs (ticks_ms inp) (ticks_ms_end inp) (mPot0 inp) (mPot1 inp)
    (mZoomPot inp) (buttonZoomIn inp) (buttonCenter inp) true (buttonRez inp).

Definition press_B (inp : inputs) : inputs :=
  Inputs (ticks_ms inp) (ticks_ms_end inp) (mPot0 inp) (mPot1 inp)
    (mZoomPot inp) (buttonZoomIn inp) true (buttonZoomOut inp) (buttonRez inp).

(** [realEnd > realStart] and [imEnd > imStart]. *)
Definition view_ok (v : viewport) : Prop :=
  (realStart v < realEnd v)%Q /\ (imStart v < imEnd v)%Q.

(** The iteration budget is the base value in normal resolution and twice
    the base value in high resolution. *)
Definition rez_inv (base : Q) (s : globals) : Prop :=
  if isHiRez s then (MAX_ITER s == 2 * base)%Q else (MAX_ITER s == base)%Q.

(** The knobs give a rectangle that lies on the surface and is not taken
    for the "no previous cursor" sentinel. *)
Definition cursor_shown (WIDTH HEIGHT : Z) (inp : inputs) : Prop :=
  region_on_surface WIDTH HEIGHT (cursor_region WIDTH HEIGHT inp)
  /\ has_previous (cursor_region WIDTH HEIGHT inp) = true.

Section OverlayInvariant.
Context `{DisplayDriver}.
Variables (WIDTH HEIGHT : Z).

(** The frame buffer is [picture], or [picture] with the outline of the
    previous rectangle drawn on it and that outline's pixels, as they are
    in [picture], kept in the save buffers. *)
Definition overlay_inv (picture : list Byte.byte) (s : globals) : Prop :=
  buffer_ok WIDTH HEIGHT picture
  /\ edges_ok WIDTH HEIGHT (pix_of s)
  /\ ((has_previous (prev s) = false /\ buffer s = picture)
      \/ (has_previous (prev s) = true
          /\ region_on_surface WIDTH HEIGHT (prev s)
          /\ saved_outline WIDTH (prev s) picture (pix_of s)
          /\ buffer s = draw_outline WIDTH HEIGHT (prev s) picture)).
End OverlayInvariant.

(** The zoom knob is below full scale. *)
Definition zoom_below_full (inp : inputs) : Prop :=
  (0 <= mZoomPot inp)%Q /\ (mZoomPot inp < 33 # 10)%Q.

(** Readings under which the overlay works: the zoom knob below full
    scale, and a rectangle other than (0,0,0,0). *)
Definition knobs_ok (WIDTH HEIGHT : Z) (inp : inputs) : Prop :=
  zoom_below_full inp /\ cursor_region WIDTH HEIGHT inp <> Region 0 0 0 0.

(** No button is down. *)
Definition no_button (inp : inputs) : Prop :=
  buttonRez inp = false /\ buttonCenter inp = false
  /\ buttonZoomIn inp = false /\ buttonZoomOut inp = false.

(** [ZoomIn] will not meet an unbound name in the tracking loop: the
    cursor names are bound already, or the first poll finds no button down
    and [MoveCursor] due, which binds them. *)
Definition zoom_ready (s : globals) (readings : list inputs) : Prop :=
  cursor_bound s
  \/ match readings with
     | [] => True
     | inp :: _ => no_button inp /\ nextSensorRead s <= ticks_ms inp
     end.

(** Both spans of the viewport are 0. *)
Definition view_collapsed (v : viewport) : Prop :=
  (realEnd v == realStart v)%Q /\ (imEnd v == imStart v)%Q.

(** ** The display trace of a render pass, written out *)

(** The plot of one pixel whose colour index is [colour y], if it is not
    index 0. *)
Definition pixel_plot (colour : Z -> option Z) (x y : Z) : list display_op :=
  match colour y with
  | Some c =>
      if bool_decide (c <> 0)
      then match getitem pen_colour c with
           | Some pen => [Plot x y c pen]
           | None => []
           end
      else []
  | None => []
  end.

(** The plots of column [x], rows in the order [ys]. *)
Definition column_plots (colour : Z -> option Z) (x : Z) (ys : list Z)
  : list display_op :=
  ys ≫= pixel_plot colour x.

Section PassTrace.
Context {C : Type} `{ComplexArith C}.
Variables (WIDTH HEIGHT : Z) (MAX_ITER : Q) (view : viewport).

(** One column pair: the coordinator's column, the thread's, a flush. *)
Definition pair_trace (x : Z) : list display_op :=
  column_plots (main_colour WIDTH HEIGHT MAX_ITER view (x + 1)) (x + 1)
    (py_range HEIGHT)
  ++ column_plots (thread_colour WIDTH HEIGHT MAX_ITER view x) x
       (py_range HEIGHT)
  ++ [Update].

Definition pass_trace : list display_op :=
  (py_range2 WIDTH ≫= pair_trace) ++ [Update].
End PassTrace.

(** The pixel a display request plots, if it plots one. *)
Definition plot_place (op : display_op) : option (Z * Z) :=
  match op with
  | Plot x y _ _ => Some (x, y)
  | Update => None
  end.

(** * Properties *)

(** ** The loop of [mandelbrot] *)

Lemma Qle_bool_inject_floor (n : Z) (q : Q) :
  Qle_bool (inject_Z n) q = true <-> n <= Qfloor q.
Proof.
  rewrite Qle_bool_iff. split; intros Hle.
  - apply Qfloor_resp_le in Hle. now rewrite Qfloor_Z in Hle.
  - apply Qle_trans with (inject_Z (Qfloor q)).
    + now rewrite <- Zle_Qle.
    + apply Qfloor_le.
Qed.

Lemma Qfloor_nonneg (q : Q) : (0 <= q)%Q -> 0 <= Qfloor q.
Proof.
  intros Hq. change 0%Q with (inject_Z 0) in Hq.
  apply Qle_bool_iff in Hq. now apply Qle_bool_inject_floor in Hq.
Qed.

Section EvaluatorFacts.
Context {C : Type} `{ComplexArith C}.
Implicit Types (c mz : C) (k : nat) (n r : Z).

(** With more fuel than remaining counter values the loop returns. *)
Lemma mandelbrot_loop_returns fuel MAX_ITER c mz n :
  (Z.to_nat (Qfloor MAX_ITER + 1 - n) < fuel)%nat ->
  exists r, mandelbrot_loop fuel MAX_ITER c mz n = Some r.
Proof.
  revert mz n. induction fuel as [|fuel IH]; intros mz n Hfuel; [lia|].
  simpl. destruct (cabs_le2 mz && Qle_bool (inject_Z n) MAX_ITER) eqn:Hc.
  - apply andb_true_iff in Hc as [_ Hn].
    apply Qle_bool_inject_floor in Hn. apply IH. lia.
  - eauto.
Qed.

(** The function of the source always returns a count. *)
Lemma mandelbrot_returns MAX_ITER c :
  exists r, mandelbrot MAX_ITER c = Some r.
Proof.
  apply mandelbrot_loop_returns. unfold mandelbrot_fuel. lia.
Qed.

(** What the loop returns, started on the orbit at counter [k]: the
    first counter at or after [k] where the loop test fails. *)
Lemma mandelbrot_loop_first_exit fuel MAX_ITER c k r :
  mandelbrot_loop fuel MAX_ITER c (orbit c k) (Z.of_nat k) = Some r ->
  exists j, r = Z.of_nat j /\ (k <= j)%nat
    /\ continues MAX_ITER c j = false
    /\ forall i, (k <= i < j)%nat -> continues MAX_ITER c i = true.
Proof.
  revert k. induction fuel as [|fuel IH]; intros k Hrun; [discriminate|].
  simpl in Hrun.
  destruct (cabs_le2 (orbit c k) && Qle_bool (inject_Z (Z.of_nat k)) MAX_ITER)
    eqn:Hc.
  - replace (Z.of_nat k + 1) with (Z.of_nat (S k)) in Hrun by lia.
    change (csqr_add (orbit c k) c) with (orbit c (S k)) in Hrun.
    destruct (IH _ Hrun) as (j & -> & Hkj & Hstop & Hgo).
    exists j. repeat split; [lia|assumption|].
    intros i Hi. destruct (decide (i = k)) as [->|Hne]; [exact Hc|].
    apply Hgo. lia.
  - injection Hrun as <-. exists k. repeat split; [lia|exact Hc|].
    intros i Hi. lia.
Qed.

Lemma mandelbrot_first_exit MAX_ITER c r :
  mandelbrot MAX_ITER c = Some r ->
  exists j, r = Z.of_nat j
    /\ continues MAX_ITER c j = false
    /\ forall i, (i < j)%nat -> continues MAX_ITER c i = true.
Proof.
  intros Hrun. apply (mandelbrot_loop_first_exit _ _ c 0%nat) in Hrun.
  destruct Hrun as (j & -> & _ & Hstop & Hgo).
  exists j. repeat split; [assumption|]. intros i Hi. apply Hgo. lia.
Qed.

Lemma continues_bound MAX_ITER c k :
  continues MAX_ITER c k = true -> Z.of_nat k <= Qfloor MAX_ITER.
Proof.
  unfold continues. intros [_ Hk]%andb_true_iff.
  now apply Qle_bool_inject_floor.
Qed.

Lemma continues_mono MAX1 MAX2 c k :
  (MAX1 <= MAX2)%Q ->
  continues MAX1 c k = true -> continues MAX2 c k = true.
Proof.
  unfold continues. intros Hle [Hin Hk]%andb_true_iff.
  apply andb_true_iff. split; [assumption|].
  apply Qle_bool_iff. apply Qle_bool_iff in Hk. lra.
Qed.

(** A raised bound never lowers the count, for arbitrary numeric bounds. *)
Lemma mandelbrot_mono_gen MAX1 MAX2 c r1 r2 :
  (MAX1 <= MAX2)%Q ->
  mandelbrot MAX1 c = Some r1 -> mandelbrot MAX2 c = Some r2 ->
  r1 <= r2.
Proof.
  intros Hle (j1 & -> & Hstop1 & Hgo1)%mandelbrot_first_exit
             (j2 & -> & Hstop2 & Hgo2)%mandelbrot_first_exit.
  destruct (decide (j2 < j1)%nat) as [Hlt|]; [|lia].
  apply Hgo1 in Hlt. apply (continues_mono _ MAX2) in Hlt; [|assumption].
  congruence.
Qed.

(** A count at or below the bound means the point escaped, and then the
    bound no longer matters. *)
Lemma mandelbrot_escaped_gen MAX1 MAX2 c r1 r2 :
  (MAX1 <= MAX2)%Q ->
  mandelbrot MAX1 c = Some r1 -> mandelbrot MAX2 c = Some r2 ->
  (inject_Z r1 <= MAX1)%Q -> r1 = r2.
Proof.
  intros Hle Hr1 Hr2 Hesc.
  pose proof (mandelbrot_mono_gen _ _ _ _ _ Hle Hr1 Hr2) as Hmono.
  apply mandelbrot_first_exit in Hr1 as (j1 & -> & Hstop1 & Hgo1).
  apply mandelbrot_first_exit in Hr2 as (j2 & -> & Hstop2 & Hgo2).
  destruct (decide (j1 < j2)%nat) as [Hlt|]; [|lia].
  apply Hgo2 in Hlt. unfold continues in Hlt, Hstop1.
  apply andb_true_iff in Hlt as [Hin _]. rewrite Hin in Hstop1.
  apply Qle_bool_iff in Hesc. simpl in Hstop1. congruence.
Qed.

(** The range of the count, for arbitrary non-negative numeric bounds. *)
Lemma mandelbrot_range_gen MAX_ITER c r :
  (0 <= MAX_ITER)%Q -> mandelbrot MAX_ITER c = Some r ->
  1 <= r <= Qfloor MAX_ITER + 1.
Proof.
  intros Hpos (j & -> & Hstop & Hgo)%mandelbrot_first_exit. split.
  - destruct j as [|j]; [|lia].
    unfold continues in Hstop. simpl in Hstop.
    rewrite cabs_le2_zero in Hstop. simpl in Hstop.
    apply not_true_iff_false in Hstop. exfalso. apply Hstop.
    now apply Qle_bool_iff.
  - destruct j as [|j]; [|].
    + apply Qfloor_nonneg in Hpos. lia.
    + specialize (Hgo j (Nat.lt_succ_diag_r j)).
      apply continues_bound in Hgo. lia.
Qed.

(** A point whose orbit stays within radius 2 for every counter up to
    the bound gets the count [floor MAX_ITER + 1]. *)
Lemma mandelbrot_never_escapes MAX_ITER c r :
  (0 <= MAX_ITER)%Q -> mandelbrot MAX_ITER c = Some r ->
  (forall k, Z.of_nat k <= Qfloor MAX_ITER -> cabs_le2 (orbit c k) = true) ->
  r = Qfloor MAX_ITER + 1.
Proof.
  intros Hpos Hr Hin.
  pose proof (mandelbrot_range_gen _ _ _ Hpos Hr) as [_ Hhi].
  apply mandelbrot_first_exit in Hr as (j & -> & Hstop & _).
  destruct (decide (Z.of_nat j <= Qfloor MAX_ITER)) as [Hle|]; [|lia].
  unfold continues in Hstop. rewrite (Hin _ Hle) in Hstop. simpl in Hstop.
  apply Qle_bool_inject_floor in Hle. congruence.
Qed.
End EvaluatorFacts.


(** ** The iteration bound and the count *)

(** C5.  For positive integer bounds [maxIter1 < maxIter2] the evaluator
    returns counts [n1 <= n2] at every point, and [n1 = n2] whenever
    [n1 < maxIter1], that is, whenever the point escaped under the smaller
    bound. *)
Theorem mandelbrot_monotone_in_bound {C} `{ComplexArith C}
  (c : C) (maxIter1 maxIter2 : Z) :
  0 < maxIter1 -> maxIter1 < maxIter2 ->
  exists n1 n2,
    mandelbrot (inject_Z maxIter1) c = Some n1
    /\ mandelbrot (inject_Z maxIter2) c = Some n2
    /\ n1 <= n2
    /\ (n1 < maxIter1 -> n1 = n2).
Proof.
  intros Hpos Hlt.
  destruct (mandelbrot_returns (inject_Z maxIter1) c) as [n1 Hn1].
  destruct (mandelbrot_returns (inject_Z maxIter2) c) as [n2 Hn2].
  assert (Hle : (inject_Z maxIter1 <= inject_Z maxIter2)%Q).
  { rewrite <- Zle_Qle. lia. }
  exists n1, n2. repeat split; try assumption.
  - eapply mandelbrot_mono_gen; eassumption.
  - intros Hesc. eapply mandelbrot_escaped_gen; try eassumption.
    rewrite <- Zle_Qle. lia.
Qed.

Lemma mandelbrot_monotone_in_bound_witness :
  exists n1 n2,
    mandelbrot (inject_Z 3) (QComplex 1 1) = Some n1
    /\ mandelbrot (inject_Z 5) (QComplex 1 1) = Some n2
    /\ n1 <= n2
    /\ (n1 < 3 -> n1 = n2).
Proof. apply (mandelbrot_monotone_in_bound (QComplex 1 1) 3 5); lia. Defined.

(** C9.  For every point and every integer bound [maxIter >= 1] the
    evaluator returns a count [n] with [1 <= n <= maxIter + 1]; the count
    is never 0, and it is [maxIter + 1], one more than the bound, when the
    point stays within radius 2 for every counter up to the bound. *)
Theorem mandelbrot_count_range {C} `{ComplexArith C} (c : C) (maxIter : Z) :
  1 <= maxIter ->
  exists n,
    mandelbrot (inject_Z maxIter) c = Some n
    /\ 1 <= n <= maxIter + 1
    /\ ((forall k, Z.of_nat k <= maxIter -> cabs_le2 (orbit c k) = true) ->
        n = maxIter + 1).
Proof.
  intros Hpos.
  destruct (mandelbrot_returns (inject_Z maxIter) c) as [n Hn].
  assert (Hq : (0 <= inject_Z maxIter)%Q).
  { change 0%Q with (inject_Z 0). rewrite <- Zle_Qle. lia. }
  exists n. split; [assumption|]. split.
  - pose proof (mandelbrot_range_gen _ _ _ Hq Hn) as Hr.
    rewrite Qfloor_Z in Hr. exact Hr.
  - intros Hin.
    pose proof (mandelbrot_never_escapes _ c n Hq Hn) as Hr.
    rewrite Qfloor_Z in Hr. apply Hr. exact Hin.
Qed.

Lemma mandelbrot_count_range_witness :
  exists n,
    mandelbrot (inject_Z 15) (QComplex 0 0) = Some n
    /\ 1 <= n <= 15 + 1
    /\ ((forall k, Z.of_nat k <= 15 -> cabs_le2 (orbit (QComplex 0 0) k) = true)
        -> n = 15 + 1).
Proof. apply (mandelbrot_count_range (QComplex 0 0) 15); lia. Defined.

(** The origin never escapes: with the bound 15 its count is 16. *)
Example mandelbrot_origin : mandelbrot 15 (QComplex 0 0) = Some 16.
Proof. reflexivity. Qed.

(** ** The navigation commands *)

(** C7.  Two resolution toggles in a row, from either resolution mode,
    bring [MAX_ITER] back to a numerically equal value (and [isHiRez] back
    to what it was). *)
Theorem ChangeRez_twice_restores_MAX_ITER (inp1 inp2 : inputs) (s : globals) :
  buttonRez inp1 = true -> buttonRez inp2 = true ->
  let s2 := (ChangeRez inp2 (ChangeRez inp1 s).2).2 in
  (MAX_ITER s2 == MAX_ITER s)%Q /\ isHiRez s2 = isHiRez s.
Proof.
  intros H1 H2. unfold ChangeRez. rewrite H1, H2.
  destruct (isHiRez s) eqn:Hhi; simpl; rewrite ?Hhi; simpl; split;
    try reflexivity; try (symmetry; exact Hhi); field.
Qed.

Lemma ChangeRez_twice_restores_MAX_ITER_witness :
  let inp := press_Y (idle_inputs 0 0 0 0) in
  let s := startup_globals 8 8 in
  let s2 := (ChangeRez inp (ChangeRez inp s).2).2 in
  (MAX_ITER s2 == MAX_ITER s)%Q /\ isHiRez s2 = isHiRez s.
Proof.
  apply (ChangeRez_twice_restores_MAX_ITER
           (press_Y (idle_inputs 0 0 0 0)) (press_Y (idle_inputs 0 0 0 0))
           (startup_globals 8 8)); reflexivity.
Defined.

(** The two toggles from the start-up state: 15, 30, then 30/2. *)
Example ChangeRez_twice_startup :
  let inp := press_Y (idle_inputs 0 0 0 0) in
  let s1 := (ChangeRez inp (startup_globals 8 8)).2 in
  let s2 := (ChangeRez inp s1).2 in
  MAX_ITER s1 = (15 * 2)%Q /\ isHiRez s1 = true
  /\ MAX_ITER s2 = (15 * 2 / 2)%Q /\ isHiRez s2 = false.
Proof. repeat split. Qed.

(** C8.  [ChangeRez] changes nothing but [isHiRez] and [MAX_ITER]: the
    four viewport bounds, and every other global, are as before. *)
Theorem ChangeRez_frame (inp : inputs) (s : globals) :
  let s' := (ChangeRez inp s).2 in
  realStart (view s') = realStart (view s)
  /\ realEnd (view s') = realEnd (view s)
  /\ imStart (view s') = imStart (view s)
  /\ imEnd (view s') = imEnd (view s)
  /\ buffer s' = buffer s
  /\ pix_of s' = pix_of s
  /\ prev s' = prev s /\ cur s' = cur s
  /\ (x0 s', y0 s', z s') = (x0 s, y0 s, z s)
  /\ (newHeight s', newWidth s') = (newHeight s, newWidth s)
  /\ nextSensorRead s' = nextSensorRead s.
Proof.
  unfold ChangeRez.
  destruct (buttonRez inp), (isHiRez s); simpl; repeat split; reflexivity.
Qed.

(** When the resolution button is down, [ButtonPressed] is [ChangeRez]. *)
Lemma ButtonPressed_rez (W H : Z) (inp : inputs) (s : globals) :
  buttonRez inp = true -> ButtonPressed W H inp s = Some (ChangeRez inp s).
Proof.
  intros Hy. unfold ButtonPressed, ChangeRez. rewrite Hy. reflexivity.
Qed.

Lemma inject_Z_nonzero (n : Z) : 0 < n -> ~ (inject_Z n == 0)%Q.
Proof.
  intros Hn Heq. unfold Qeq in Heq. simpl in Heq. lia.
Qed.

(** A rectangle reaching one past the last column and row, which
    [MoveCursor] never produces, is the one that [ZoomIn] maps to the
    viewport itself. *)
Lemma zoom_in_view_whole_range (W H : Z) (v : viewport) :
  0 < W -> 0 < H ->
  let v' := zoom_in_view W H (Region 0 W 0 H) v in
  (realStart v' == realStart v)%Q /\ (realEnd v' == realEnd v)%Q
  /\ (imStart v' == imStart v)%Q /\ (imEnd v' == imEnd v)%Q.
Proof.
  intros HW HH. apply inject_Z_nonzero in HW, HH.
  unfold zoom_in_view. simpl. rewrite !Z.sub_0_r.
  change (inject_Z 0) with 0%Q.
  split; [|split; [|split]]; field; assumption.
Qed.

(** [ZoomIn] with the cursor names bound. *)
Lemma ZoomIn_bound (W H : Z) (inp : inputs) (s : globals) :
  buttonZoomIn inp = true -> cursor_bound s ->
  ZoomIn W H inp s = Some (true, with_view (zoom_in_view W H (cur s) (view s)) s).
Proof.
  intros Hpressed ([zv Hz] & [nw Hnw] & [nh Hnh]).
  unfold ZoomIn. rewrite Hpressed, Hz, Hnw, Hnh. reflexivity.
Qed.

(** The rectangle of [MoveCursor] has an even width [right - left], so
    on a display with an even [WIDTH] it is never the whole surface. *)
Lemma cursor_region_not_full_surface (W H : Z) (inp : inputs) :
  W `mod` 2 = 0 -> cursor_region W H inp <> full_surface W H.
Proof.
  intros Heven Heq.
  apply (f_equal (fun r => right r - left r)) in Heq.
  unfold cursor_region, full_surface in Heq. simpl in Heq.
  pose proof (Z.div_mod W 2). lia.
Qed.


(** On a 7 by 7 display the zoom knob at 3.064 V makes [MoveCursor] give
    the rectangle of all pixels. *)
Lemma MoveCursor_full_7 :
  exists s1,
    @MoveCursor axis_display 7 7 (knobs_full_7 0) (startup_globals 7 7)
      = Some s1
    /\ cur s1 = full_surface 7 7 /\ cursor_bound s1
    /\ view s1 = default_viewport.
Proof.
  eexists. split; [vm_compute; reflexivity|].
  split; [reflexivity|]. split; [|reflexivity].
  repeat split; eexists; reflexivity.
Qed.



(** ** The cursor rectangle *)

(** C3, at the input where the code breaks it: with the zoom knob at full
    scale (3.3 V) on the 240 by 240 display, the rectangle of [MoveCursor]
    starts one pixel off the surface, at [left = -1] and [top = -1]. *)
Theorem cursor_region_at_full_zoom :
  let r := cursor_region 240 240 (idle_inputs 0 (165 # 100) (165 # 100) (33 # 10)) in
  r = Region (-1) 239 (-1) 239 /\ ~ region_on_surface 240 240 r.
Proof.
  split; [reflexivity|].
  intros [[Hleft _] _]. vm_compute in Hleft. now apply Hleft.
Qed.

(** ** The cursor rectangle below full zoom *)

Lemma py_int_floor (q : Q) : (0 <= q)%Q -> py_int q = Qfloor q.
Proof.
  destruct q as [n d]. unfold Qle, py_int, Qfloor. simpl. intros Hn.
  apply Z.quot_div_nonneg; lia.
Qed.

Lemma py_int_bounds (q : Q) :
  (0 <= q)%Q -> 0 <= py_int q /\ (inject_Z (py_int q) <= q)%Q.
Proof.
  intros Hq. rewrite py_int_floor by assumption.
  split; [now apply Qfloor_nonneg|apply Qfloor_le].
Qed.

Lemma inject_Z_pos (n : Z) : 0 < n -> (0 < inject_Z n)%Q.
Proof. intros Hn. change 0%Q with (inject_Z 0). now rewrite <- Zlt_Qlt. Qed.

Lemma inject_Z_nonneg (n : Z) : 0 <= n -> (0 <= inject_Z n)%Q.
Proof. intros Hn. change 0%Q with (inject_Z 0). now rewrite <- Zle_Qle. Qed.

(** [int(b / c / 2)] for integers [b >= 0] and [c > 0]. *)
Lemma py_int_half_ratio (b c : Z) :
  0 <= b -> 0 < c ->
  0 <= py_int (inject_Z b / inject_Z c / 2)%Q
  /\ 2 * py_int (inject_Z b / inject_Z c / 2)%Q * c <= b.
Proof.
  intros Hb Hc.
  pose proof (inject_Z_nonneg b Hb) as Hbq.
  pose proof (inject_Z_pos c Hc) as Hcq.
  assert (Hq : (0 <= inject_Z b / inject_Z c / 2)%Q).
  { apply Qle_shift_div_l; [lra|]. apply Qle_shift_div_l; [assumption|]. lra. }
  destruct (py_int_bounds _ Hq) as [Hn Hle]. split; [assumption|].
  set (n := py_int (inject_Z b / inject_Z c / 2)%Q) in *.
  rewrite Zle_Qle, !inject_Z_mult.
  assert (Hmul : (inject_Z n * (inject_Z c * 2)
                  <= inject_Z b / inject_Z c / 2 * (inject_Z c * 2))%Q).
  { apply Qmult_le_compat_r; [assumption|lra]. }
  assert (Hexact : (inject_Z b / inject_Z c / 2 * (inject_Z c * 2)
                    == inject_Z b)%Q) by (field; lra).
  rewrite Hexact in Hmul. change (inject_Z 2) with 2%Q. lra.
Qed.

(** [int(z / 2)] for an integer [z >= 0]. *)
Lemma py_int_half (z : Z) :
  0 <= z -> 0 <= py_int (inject_Z z / 2)%Q /\ 2 * py_int (inject_Z z / 2)%Q <= z.
Proof.
  intros Hz. pose proof (inject_Z_nonneg z Hz) as Hzq.
  assert (Hq : (0 <= inject_Z z / 2)%Q) by (apply Qle_shift_div_l; lra).
  destruct (py_int_bounds _ Hq) as [Hn Hle]. split; [assumption|].
  set (n := py_int (inject_Z z / 2)%Q) in *.
  rewrite Zle_Qle, inject_Z_mult.
  assert (Hmul : (inject_Z n * 2 <= inject_Z z / 2 * 2)%Q).
  { apply Qmult_le_compat_r; [assumption|lra]. }
  assert (Hexact : (inject_Z z / 2 * 2 == inject_Z z)%Q) by field.
  rewrite Hexact in Hmul. change (inject_Z 2) with 2%Q. lra.
Qed.

(** Below full scale the zoom level stays under the smaller side. *)
Lemma getZoomLevel_bounds (WIDTH HEIGHT : Z) (voltage : Q) :
  0 < WIDTH -> 0 < HEIGHT -> (0 <= voltage)%Q -> (voltage < 33 # 10)%Q ->
  0 <= getZoomLevel WIDTH HEIGHT voltage <= Z.min HEIGHT WIDTH - 1.
Proof.
  intros HW HH Hlo Hhi. unfold getZoomLevel.
  set (m := Z.min HEIGHT WIDTH). assert (Hm : 0 < m) by (unfold m; lia).
  pose proof (inject_Z_pos m Hm) as Hmq.
  set (t := (voltage / (33 # 10))%Q).
  assert (Ht : (0 <= t)%Q /\ (t < 1)%Q).
  { unfold t. split.
    - apply Qle_shift_div_l; [reflexivity|]. lra.
    - apply Qlt_shift_div_r; [reflexivity|]. lra. }
  destruct Ht as [Ht0 Ht1].
  assert (Hq : (0 <= t * inject_Z m)%Q) by nra.
  destruct (py_int_bounds _ Hq) as [Hn Hle]. split; [assumption|].
  assert (Hlt : (inject_Z (py_int (t * inject_Z m)) < inject_Z m)%Q) by nra.
  rewrite <- Zlt_Qlt in Hlt. lia.
Qed.

(** With the zoom knob below full scale the rectangle of [MoveCursor] lies
    on the surface, wherever the two cursor knobs are. *)
Lemma cursor_region_on_surface (WIDTH HEIGHT : Z) (inp : inputs) :
  0 < WIDTH -> 0 < HEIGHT ->
  (0 <= mZoomPot inp)%Q -> (mZoomPot inp < 33 # 10)%Q ->
  region_on_surface WIDTH HEIGHT (cursor_region WIDTH HEIGHT inp).
Proof.
  intros HW HH Hlo Hhi.
  pose proof (getZoomLevel_bounds WIDTH HEIGHT _ HW HH Hlo Hhi) as Hz.
  fold (cursor_zoom WIDTH HEIGHT inp) in Hz.
  assert (HzW : 0 <= cursor_zoom WIDTH HEIGHT inp * WIDTH) by nia.
  destruct (py_int_half _ (proj1 Hz)) as [Hnh0 Hnh].
  fold (cursor_newHeight WIDTH HEIGHT inp) in Hnh0, Hnh.
  destruct (py_int_half_ratio _ HEIGHT HzW HH) as [Hnw0 Hnw].
  fold (cursor_newWidth WIDTH HEIGHT inp) in Hnw0, Hnw.
  assert (Hfit : 2 * cursor_newWidth WIDTH HEIGHT inp <= WIDTH - 1) by nia.
  unfold region_on_surface, cursor_region, cursor_x0, cursor_y0. simpl. lia.
Qed.

(** ** One pixel, computed by the thread and by the coordinator *)

(** The two colour maps agree on the counts 1 to 10 only. *)
Lemma colour_maps_agree (m : Z) :
  1 <= m <= 10 -> (m - 1) `mod` 15 = (m - 1) `mod` MAX_COLOURS.
Proof.
  intros Hm. change MAX_COLOURS with 10.
  rewrite !Z.mod_small by lia. reflexivity.
Qed.

Lemma colour_maps_differ (m : Z) :
  11 <= m <= 16 -> (m - 1) `mod` 15 <> (m - 1) `mod` MAX_COLOURS.
Proof.
  intros Hm. change MAX_COLOURS with 10.
  assert (Hcases : m = 11 \/ m = 12 \/ m = 13 \/ m = 14 \/ m = 15 \/ m = 16)
    by lia.
  destruct Hcases as [->|[->|[->|[->|[->| ->]]]]]; vm_compute; discriminate.
Qed.

(** The orbit of a real point [c] with [-1 <= c <= 0] stays on the real
    segment [[c, 0]], whatever fractions represent the numbers. *)
Lemma orbit_real_segment (c : qcomplex) (k : nat) :
  (-(1) <= re c)%Q -> (re c <= 0)%Q -> (im c == 0)%Q ->
  (im (orbit c k) == 0)%Q
  /\ (re c <= re (orbit c k))%Q /\ (re (orbit c k) <= 0)%Q.
Proof.
  intros Hlo Hhi Him. induction k as [|k (IHim & IHlo & IHhi)].
  - simpl. repeat split; try reflexivity; lra.
  - simpl. rewrite Him, IHim. repeat split; [ring|nra|nra].
Qed.

Lemma orbit_real_segment_inside (c : qcomplex) (k : nat) :
  (-(1) <= re c)%Q -> (re c <= 0)%Q -> (im c == 0)%Q ->
  cabs_le2 (orbit c k) = true.
Proof.
  intros Hlo Hhi Him.
  destruct (orbit_real_segment c k Hlo Hhi Him) as (Hi & Hlo' & Hhi').
  simpl. unfold qc_abs_le2. apply Qle_bool_iff. rewrite Hi. nra.
Qed.

(** Such a point never escapes: its count is one more than the bound. *)
Lemma mandelbrot_real_segment (MAX_ITER : Q) (c : qcomplex) :
  (0 <= MAX_ITER)%Q ->
  (-(1) <= re c)%Q -> (re c <= 0)%Q -> (im c == 0)%Q ->
  mandelbrot MAX_ITER c = Some (Qfloor MAX_ITER + 1).
Proof.
  intros Hpos Hlo Hhi Him.
  destruct (mandelbrot_returns MAX_ITER c) as [r Hr].
  rewrite Hr. f_equal.
  apply (mandelbrot_never_escapes _ _ _ Hpos Hr).
  intros k _. now apply orbit_real_segment_inside.
Qed.

(** C1, at an input where the code breaks it.  The centre pixel (120, 120)
    of the start-up picture samples the point -3/4, which never escapes:
    the count is 16.  The thread's map [% 15] gives index 0, the
    coordinator's map [% MAX_COLOURS] gives index 5.  In the pass itself
    the thread computes column 120 and the coordinator column 121, whose
    pixel in row 120 has the count 16 as well and gets index 5. *)
Theorem thread_and_main_colour_differ :
  mandelbrot default_MAX_ITER
    (QComplex (sample_re 240 default_viewport 120)
              (sample_im 240 default_viewport 120)) = Some 16
  /\ thread_colour 240 240 default_MAX_ITER default_viewport 120 120 = Some 0
  /\ main_colour 240 240 default_MAX_ITER default_viewport 120 120 = Some 5
  /\ main_colour 240 240 default_MAX_ITER default_viewport 121 120 = Some 5.
Proof.
  assert (Hpos : (0 <= default_MAX_ITER)%Q) by (unfold default_MAX_ITER; lra).
  assert (Hcount : forall x, x = 120 \/ x = 121 ->
    mandelbrot default_MAX_ITER
      (QComplex (sample_re 240 default_viewport x)
                (sample_im 240 default_viewport 120)) = Some 16).
  { intros x Hx. change 16 with (Qfloor default_MAX_ITER + 1).
    apply mandelbrot_real_segment; [assumption|..];
      destruct Hx as [-> | ->]; vm_compute; congruence. }
  split; [apply Hcount; now left|].
  unfold thread_colour, main_colour. simpl cmake.
  rewrite !Hcount by auto. repeat split.
Qed.

(** ** Python subscripts and loops *)

Lemma elem_of_py_range (i n : Z) : i ∈ py_range n <-> 0 <= i < n.
Proof. unfold py_range. rewrite elem_of_seqZ. lia. Qed.

Lemma py_index_in_range (len : nat) (i : Z) :
  0 <= i < Z.of_nat len -> py_index len i = Some (Z.to_nat i).
Proof.
  intros Hi. unfold py_index. rewrite bool_decide_eq_true_2 by assumption.
  reflexivity.
Qed.

Lemma py_index_negative (len : nat) (i : Z) :
  - Z.of_nat len <= i < 0 -> py_index len i = Some (Z.to_nat (Z.of_nat len + i)).
Proof.
  intros Hi. unfold py_index. rewrite bool_decide_eq_false_2 by lia.
  rewrite bool_decide_eq_true_2 by assumption. reflexivity.
Qed.

Lemma py_index_lt (len : nat) (i : Z) (k : nat) :
  py_index len i = Some k -> (k < len)%nat.
Proof.
  unfold py_index. repeat case_bool_decide; intros [= <-]; lia.
Qed.

Lemma setitem_in_range {A} (a : list A) (i : Z) (v : A) :
  0 <= i < Z.of_nat (length a) -> setitem a i v = Some (<[Z.to_nat i := v]> a).
Proof.
  intros Hi. unfold setitem. rewrite py_index_in_range by assumption.
  reflexivity.
Qed.

Lemma getitem_in_range {A} (a : list A) (i : Z) :
  0 <= i < Z.of_nat (length a) -> getitem a i = a !! Z.to_nat i.
Proof.
  intros Hi. unfold getitem. rewrite py_index_in_range by assumption.
  reflexivity.
Qed.

(** The loop rule: an invariant of the subscripts handled so far. *)
Lemma for_each_prefix_inv {S} (body : Z -> S -> option S)
  (I : list Z -> S -> Prop) (idxs : list Z) (s : S) :
  I [] s ->
  (forall done i rest s, idxs = done ++ i :: rest -> I done s ->
     exists s', body i s = Some s' /\ I (done ++ [i]) s') ->
  exists s', for_each body idxs s = Some s' /\ I idxs s'.
Proof.
  intros Hinit Hstep.
  assert (Hgen : forall rest done s, idxs = done ++ rest -> I done s ->
            exists s', for_each body rest s = Some s' /\ I idxs s').
  { induction rest as [|i rest IH]; intros done s0 Hsplit Hinv.
    - rewrite app_nil_r in Hsplit. subst done. simpl. eauto.
    - destruct (Hstep done i rest s0 Hsplit Hinv) as (s1 & Hbody & Hinv1).
      simpl. rewrite Hbody. simpl. apply (IH (done ++ [i])); [|assumption].
      rewrite <- app_assoc. exact Hsplit. }
  apply (Hgen idxs []); [reflexivity|assumption].
Qed.

(** The loop rule for an invariant that does not mention the subscripts. *)
Lemma for_each_inv {S} (body : Z -> S -> option S) (I : S -> Prop)
  (idxs : list Z) (s : S) :
  I s ->
  (forall i s, i ∈ idxs -> I s -> exists s', body i s = Some s' /\ I s') ->
  exists s', for_each body idxs s = Some s' /\ I s'.
Proof.
  intros Hinit Hstep.
  apply (for_each_prefix_inv body (fun _ => I)); [assumption|].
  intros done i rest s0 Hsplit Hinv. apply Hstep; [|assumption].
  subst idxs. apply elem_of_app. right. apply elem_of_cons. now left.
Qed.

(** ** The render pass *)

Lemma flushes_app (t1 t2 : list display_op) :
  flushes (t1 ++ t2) = (flushes t1 + flushes t2)%nat.
Proof. unfold flushes. rewrite List.filter_app, length_app. reflexivity. Qed.

Lemma MAX_COLOURS_value : MAX_COLOURS = 10.
Proof. reflexivity. Qed.

Lemma plot_in_palette (x y i : Z) :
  0 < i <= 14 -> exists op, plot x y i = Some op /\ plot_ok op /\ is_update op = false.
Proof.
  intros Hi. unfold plot. rewrite getitem_in_range by (simpl; lia).
  destruct (pen_colour !! Z.to_nat i) as [pen|] eqn:Hpen.
  - exists (Plot x y i pen). simpl. auto.
  - apply lookup_ge_None in Hpen. simpl in Hpen. lia.
Qed.

Section RenderFacts.
Context {C : Type} `{ComplexArith C}.
Variables (WIDTH HEIGHT : Z) (MAX_ITER : Q) (view : viewport).

Lemma thread_colour_returns (x y : Z) :
  exists c, thread_colour WIDTH HEIGHT MAX_ITER view x y = Some c
            /\ 0 <= c <= 14.
Proof.
  unfold thread_colour.
  destruct (mandelbrot_returns MAX_ITER
              (cmake (sample_re WIDTH view x) (sample_im HEIGHT view y)))
    as [m ->].
  simpl. eexists. split; [reflexivity|].
  pose proof (Z.mod_pos_bound (m - 1) 15). lia.
Qed.

Lemma main_colour_returns (x y : Z) :
  exists c, main_colour WIDTH HEIGHT MAX_ITER view x y = Some c
            /\ 0 <= c <= MAX_COLOURS - 1.
Proof.
  unfold main_colour.
  destruct (mandelbrot_returns MAX_ITER
              (cmake (sample_re WIDTH view x) (sample_im HEIGHT view y)))
    as [m ->].
  simpl. eexists. split; [reflexivity|].
  rewrite MAX_COLOURS_value.
  pose proof (Z.mod_pos_bound (m - 1) 10). lia.
Qed.

(** The thread fills [results] and leaves it well formed. *)
Lemma mandelbrotThreadX_ok (x : Z) (results : list Z) :
  results_ok HEIGHT results ->
  exists results',
    mandelbrotThreadX WIDTH HEIGHT MAX_ITER view x results = Some results'
    /\ results_ok HEIGHT results'.
Proof.
  intros Hok. unfold mandelbrotThreadX.
  apply for_each_inv; [assumption|].
  intros y res Hy [Hlen Hall]. apply elem_of_py_range in Hy.
  rewrite setitem_in_range by lia. simpl.
  destruct (thread_colour_returns x y) as (c & -> & Hc). simpl.
  rewrite setitem_in_range by (rewrite length_insert; lia).
  eexists. split; [reflexivity|]. split.
  - rewrite !length_insert. assumption.
  - apply Forall_insert; [apply Forall_insert|]; [assumption|lia|assumption].
Qed.

Lemma trace_kept_snoc (trace : list display_op) (op : display_op) :
  plot_ok op -> is_update op = false -> trace_kept trace (trace ++ [op]).
Proof.
  intros Hop Hupd. split.
  - intros Hall. apply Forall_app. split; [assumption|].
    apply Forall_cons. split; [assumption|apply Forall_nil_2].
  - rewrite flushes_app. unfold flushes at 2. simpl. rewrite Hupd. simpl. lia.
Qed.

Lemma trace_kept_trans (t1 t2 t3 : list display_op) :
  trace_kept t1 t2 -> trace_kept t2 t3 -> trace_kept t1 t3.
Proof. intros [Ha Hb] [Hc Hd]. split; [auto|congruence]. Qed.

Lemma main_column_ok (x1 : Z) (trace : list display_op) :
  exists trace',
    main_column WIDTH HEIGHT MAX_ITER view x1 trace = Some trace'
    /\ trace_kept trace trace'.
Proof.
  unfold main_column.
  apply (for_each_inv _ (trace_kept trace)); [split; auto|].
  intros y t _ Hkept.
  destruct (main_colour_returns x1 y) as (c & -> & Hc). simpl.
  rewrite MAX_COLOURS_value in Hc.
  case_bool_decide as Hpos.
  - destruct (plot_in_palette x1 y c) as (op & -> & Hop & Hupd); [lia|].
    simpl. eexists. split; [reflexivity|].
    eapply trace_kept_trans; [eassumption|]. now apply trace_kept_snoc.
  - eauto.
Qed.

Lemma plot_results_ok (x : Z) (results : list Z) (trace : list display_op) :
  results_ok HEIGHT results ->
  exists trace',
    plot_results HEIGHT x results trace = Some trace'
    /\ trace_kept trace trace'.
Proof.
  intros [Hlen Hall]. unfold plot_results.
  apply (for_each_inv _ (trace_kept trace)); [split; auto|].
  intros y t Hy Hkept. apply elem_of_py_range in Hy.
  rewrite getitem_in_range by lia.
  destruct (lookup_lt_is_Some_2 results (Z.to_nat y)) as [r Hr]; [lia|].
  rewrite Hr. simpl. pose proof (Forall_lookup_1 _ _ _ _ Hall Hr) as Hrange.
  simpl in Hrange. case_bool_decide as Hnz.
  - destruct (plot_in_palette x y r) as (op & -> & Hop & Hupd); [lia|].
    simpl. eexists. split; [reflexivity|].
    eapply trace_kept_trans; [eassumption|]. now apply trace_kept_snoc.
  - eauto.
Qed.

(** One column pair: both columns are plotted from the palette, and the
    pair ends with a flush. *)
Lemma draw_pair_ok (x : Z) (results : list Z) (trace : list display_op) :
  x `mod` 2 = 0 -> results_ok HEIGHT results ->
  exists results' trace',
    draw_pair WIDTH HEIGHT MAX_ITER view x (results, trace)
      = Some (results', trace')
    /\ results_ok HEIGHT results'
    /\ (Forall plot_ok trace -> Forall plot_ok trace')
    /\ flushes trace' = S (flushes trace).
Proof.
  intros Heven Hok. unfold draw_pair.
  destruct (mandelbrotThreadX_ok x results Hok) as (res1 & -> & Hok1). simpl.
  destruct (main_column_ok (x + 1) trace) as (t1 & -> & Hk1 & Hf1). simpl.
  destruct (plot_results_ok x res1 t1 Hok1) as (t2 & -> & Hk2 & Hf2). simpl.
  rewrite bool_decide_eq_true_2 by assumption.
  eexists _, _. split; [reflexivity|]. split; [assumption|]. split.
  - intros Hall. apply Forall_app. split; [auto|].
    apply Forall_cons. split; [exact I|apply Forall_nil_2].
  - rewrite flushes_app. unfold flushes at 2. simpl. lia.
Qed.

Lemma py_range2_even (x : Z) : x ∈ py_range2 WIDTH -> x `mod` 2 = 0.
Proof.
  unfold py_range2. intros (k & -> & _)%list_elem_of_fmap.
  rewrite Z.mul_comm. apply Z.mod_mul. lia.
Qed.

(** The whole pass: it completes, every plotted pixel took an entry other
    than 0 from within the palette, and there is one flush per column pair
    and one more at the end. *)
Lemma DrawMandelbrotX_ok (results : list Z) :
  results_ok HEIGHT results ->
  exists results' trace,
    DrawMandelbrotX WIDTH HEIGHT MAX_ITER view results = Some (results', trace)
    /\ results_ok HEIGHT results'
    /\ Forall plot_ok trace
    /\ flushes trace = S (length (py_range2 WIDTH)).
Proof.
  intros Hok. unfold DrawMandelbrotX.
  destruct (for_each_prefix_inv
              (draw_pair WIDTH HEIGHT MAX_ITER view)
              (fun done st => results_ok HEIGHT st.1 /\ Forall plot_ok st.2
                              /\ flushes st.2 = length done)
              (py_range2 WIDTH) (results, []))
    as ([res' trace'] & -> & Hok' & Hall & Hfl).
  - simpl. repeat split; [apply Hok|apply Hok|apply Forall_nil_2].
  - intros done x rest [res t] Hsplit (Hr & Ht & Hf). simpl in Hr, Ht, Hf.
    assert (Heven : x `mod` 2 = 0).
    { apply py_range2_even. rewrite Hsplit. apply elem_of_app. right.
      apply elem_of_cons. now left. }
    destruct (draw_pair_ok x res t Heven Hr) as (res1 & t1 & -> & Hr1 & Ht1 & Hf1).
    eexists. split; [reflexivity|]. simpl. repeat split; try apply Hr1; auto.
    rewrite length_app. simpl. lia.
  - simpl in *. eexists _, _. split; [reflexivity|]. split; [assumption|]. split.
    + apply Forall_app. split; [assumption|].
      apply Forall_cons. split; [exact I|apply Forall_nil_2].
    + rewrite flushes_app. unfold flushes at 2. simpl. lia.
Qed.
End RenderFacts.

Lemma startup_results_ok (HEIGHT : Z) :
  0 <= HEIGHT -> results_ok HEIGHT (startup_results HEIGHT).
Proof.
  intros HH. unfold results_ok, startup_results. rewrite length_replicate.
  split; [lia|]. apply Forall_replicate. lia.
Qed.

Lemma length_py_range2 (WIDTH : Z) :
  length (py_range2 WIDTH) = Z.to_nat ((WIDTH + 1) `div` 2).
Proof. unfold py_range2. rewrite length_fmap. apply length_seqZ. Qed.

(** C10.  The palette has 15 entries and [MAX_COLOURS <= 15]; the colour
    the thread stores lies in [0, 14], the coordinator's in
    [0, MAX_COLOURS - 1]; the render pass completes without a failed
    palette lookup, and every pixel it plots took a palette entry with an
    index strictly above 0 and at most 14. *)
Theorem palette_lookups_in_bounds {C} `{ComplexArith C}
  (WIDTH HEIGHT : Z) (MAX_ITER : Q) (view : viewport) (results : list Z) :
  results_ok HEIGHT results ->
  length pen_colour = 15%nat
  /\ MAX_COLOURS <= 15
  /\ (forall x y c, thread_colour WIDTH HEIGHT MAX_ITER view x y = Some c ->
        0 <= c <= 14)
  /\ (forall x y c, main_colour WIDTH HEIGHT MAX_ITER view x y = Some c ->
        0 <= c <= MAX_COLOURS - 1)
  /\ exists results' trace,
       DrawMandelbrotX WIDTH HEIGHT MAX_ITER view results
         = Some (results', trace)
       /\ results_ok HEIGHT results'
       /\ forall x y i pen, Plot x y i pen ∈ trace ->
            0 < i <= 14 /\ pen_colour !! Z.to_nat i = Some pen.
Proof.
  intros Hok. split; [reflexivity|]. split; [rewrite MAX_COLOURS_value; lia|].
  split; [|split].
  - intros x y c Hc.
    destruct (thread_colour_returns WIDTH HEIGHT MAX_ITER view x y)
      as (c' & Hc' & Hrange).
    congruence.
  - intros x y c Hc.
    destruct (main_colour_returns WIDTH HEIGHT MAX_ITER view x y)
      as (c' & Hc' & Hrange).
    congruence.
  - destruct (DrawMandelbrotX_ok WIDTH HEIGHT MAX_ITER view results Hok)
      as (res' & trace & Hrun & Hok' & Hall & _).
    exists res', trace. split; [assumption|]. split; [assumption|].
    intros x y i pen Hin. rewrite Forall_forall in Hall.
    exact (Hall _ Hin).
Qed.

Lemma palette_lookups_in_bounds_witness :
  length pen_colour = 15%nat
  /\ MAX_COLOURS <= 15
  /\ (forall x y c,
        thread_colour (C:=qcomplex) 4 2 3 (Viewport (-2) 2 (-2) 2) x y = Some c ->
        0 <= c <= 14)
  /\ (forall x y c,
        main_colour (C:=qcomplex) 4 2 3 (Viewport (-2) 2 (-2) 2) x y = Some c ->
        0 <= c <= MAX_COLOURS - 1)
  /\ exists results' trace,
       DrawMandelbrotX (C:=qcomplex) 4 2 3 (Viewport (-2) 2 (-2) 2)
         (startup_results 2) = Some (results', trace)
       /\ results_ok 2 results'
       /\ forall x y i pen, Plot x y i pen ∈ trace ->
            0 < i <= 14 /\ pen_colour !! Z.to_nat i = Some pen.
Proof.
  apply (palette_lookups_in_bounds (C:=qcomplex) 4 2 3 (Viewport (-2) 2 (-2) 2)
           (startup_results 2)).
  split; [reflexivity|]. repeat constructor; lia.
Defined.

(** A small pass, run: 4 columns of 2 rows with the bound 3.  Both column
    pairs end with [Update], and one more follows. *)
Example DrawMandelbrotX_4_by_2 :
  DrawMandelbrotX (C:=qcomplex) 4 2 3 (Viewport (-2) 2 (-2) 2) (startup_results 2)
  = Some ([1; 3],
          [Plot 1 1 3 (0, 0, 255); Plot 0 1 3 (0, 0, 255); Update;
           Plot 3 1 2 (0, 255, 0); Plot 2 0 1 (255, 0, 0);
           Plot 2 1 3 (0, 0, 255); Update; Update]).
Proof. vm_compute. reflexivity. Qed.

(** For an even width the pass flushes [WIDTH / 2 + 1] times. *)
Lemma DrawMandelbrotX_flushes {C} `{ComplexArith C}
  (WIDTH HEIGHT : Z) (MAX_ITER : Q) (view : viewport) (results : list Z) :
  0 <= WIDTH -> WIDTH `mod` 2 = 0 -> results_ok HEIGHT results ->
  exists results' trace,
    DrawMandelbrotX WIDTH HEIGHT MAX_ITER view results = Some (results', trace)
    /\ Z.of_nat (flushes trace) = WIDTH `div` 2 + 1.
Proof.
  intros HW Heven Hok.
  destruct (DrawMandelbrotX_ok WIDTH HEIGHT MAX_ITER view results Hok)
    as (res' & trace & Hrun & _ & _ & Hfl).
  exists res', trace. split; [assumption|].
  rewrite Hfl, length_py_range2.
  assert (Hhalf : (WIDTH + 1) `div` 2 = WIDTH `div` 2).
  { pose proof (Z.div_mod WIDTH 2). pose proof (Z.div_mod (WIDTH + 1) 2).
    pose proof (Z.mod_pos_bound (WIDTH + 1) 2). lia. }
  rewrite Hhalf. pose proof (Z.div_pos WIDTH 2). lia.
Qed.

(** C4, at the input where the code breaks it.  On the 240-column display
    the pass over the start-up picture has 120 column pairs and flushes 121
    times: after every pair, since [x % 2 == 0] holds for every [x] of
    [range(0, WIDTH, 2)], and once at the end.  Flushing on every second
    pair would give 61. *)
Theorem DrawMandelbrotX_flushes_every_pair :
  exists results trace,
    DrawMandelbrotX (C:=qcomplex) 240 240 default_MAX_ITER default_viewport
      (startup_results 240) = Some (results, trace)
    /\ length (py_range2 240) = 120%nat
    /\ Forall (fun x => x `mod` 2 = 0) (py_range2 240)
    /\ flushes trace = 121%nat.
Proof.
  destruct (DrawMandelbrotX_ok (C:=qcomplex) 240 240 default_MAX_ITER
              default_viewport (startup_results 240))
    as (res' & trace & Hrun & _ & _ & Hfl).
  { apply startup_results_ok. lia. }
  exists res', trace. split; [assumption|]. split; [reflexivity|]. split.
  - apply Forall_forall. intros x Hx. exact (py_range2_even 240 x Hx).
  - rewrite Hfl. reflexivity.
Qed.

(** ** The cursor overlay: saving and restoring an outline *)

Lemma getitem_wrapped {A} (a : list A) (i : Z) :
  - Z.of_nat (length a) <= i < Z.of_nat (length a) ->
  exists k v, py_index (length a) i = Some k /\ a !! k = Some v
              /\ getitem a i = Some v.
Proof.
  intros Hi. unfold getitem.
  destruct (decide (0 <= i)) as [Hpos|Hneg].
  - rewrite py_index_in_range by lia.
    destruct (lookup_lt_is_Some_2 a (Z.to_nat i)) as [v Hv]; [lia|].
    exists (Z.to_nat i), v. simpl. auto.
  - rewrite py_index_negative by lia.
    destruct (lookup_lt_is_Some_2 a (Z.to_nat (Z.of_nat (length a) + i)))
      as [v Hv]; [lia|].
    exists (Z.to_nat (Z.of_nat (length a) + i)), v. simpl. auto.
Qed.

Lemma getitem_insert_eq {A} (a : list A) (i : Z) (v : A) :
  0 <= i < Z.of_nat (length a) ->
  getitem (<[Z.to_nat i := v]> a) i = Some v.
Proof.
  intros Hi. rewrite getitem_in_range by (rewrite length_insert; lia).
  apply list_lookup_insert_eq. lia.
Qed.

Lemma getitem_insert_ne {A} (a : list A) (i j : Z) (v : A) :
  0 <= i -> 0 <= j -> i <> j ->
  getitem (<[Z.to_nat i := v]> a) j = getitem a j.
Proof.
  intros Hi Hj Hne. unfold getitem. rewrite length_insert.
  destruct (py_index (length a) j) as [k|] eqn:Hk; [|reflexivity]. simpl.
  apply list_lookup_insert_ne.
  unfold py_index in Hk. repeat case_bool_decide; simplify_eq; lia.
Qed.

Lemma saved_after_write (a b0 : list Byte.byte) (sub : Z -> Z) (i : Z)
  (v : Byte.byte) :
  0 <= i < Z.of_nat (length a) -> getitem b0 (sub i) = Some v ->
  saved (<[Z.to_nat i := v]> a) b0 sub i.
Proof. intros Hi Hv. exists v. split; [now apply getitem_insert_eq|exact Hv]. Qed.

Lemma saved_kept (a b0 : list Byte.byte) (sub : Z -> Z) (i j : Z)
  (v : Byte.byte) :
  0 <= i -> 0 <= j -> i <> j ->
  saved a b0 sub j -> saved (<[Z.to_nat i := v]> a) b0 sub j.
Proof.
  intros Hi Hj Hne (w & Ha & Hb). exists w.
  split; [|exact Hb]. now rewrite getitem_insert_ne.
Qed.

(** The position reached in a loop over [range(n)]. *)
Lemma py_range_split (n : Z) (done rest : list Z) (i : Z) :
  py_range n = done ++ i :: rest ->
  0 <= i < n /\ (i ∉ done) /\ forall j, j ∈ done -> 0 <= j < n.
Proof.
  intros Hsplit.
  assert (Hmem : forall j, j ∈ done ++ i :: rest -> 0 <= j < n).
  { intros j Hj. rewrite <- Hsplit in Hj. now apply elem_of_py_range. }
  pose proof (NoDup_seqZ 0 n) as Hnd. fold (py_range n) in Hnd.
  rewrite Hsplit in Hnd. apply NoDup_app in Hnd as (_ & Hsep & _).
  split; [|split].
  - apply Hmem. apply elem_of_app. right. apply elem_of_cons. now left.
  - intros Hin. apply (Hsep i Hin). apply elem_of_cons. now left.
  - intros j Hj. apply Hmem. apply elem_of_app. now left.
Qed.

Section OutlineSubscripts.
Variables (WIDTH HEIGHT : Z) (r : region).
Hypotheses (HW : 0 < WIDTH) (HH : 0 < HEIGHT)
  (Hr : region_on_surface WIDTH HEIGHT r).

Lemma top_sub_bounds (i : Z) :
  0 <= i <= right r - left r ->
  - (WIDTH * HEIGHT) <= top_sub WIDTH r i < WIDTH * HEIGHT.
Proof.
  destruct Hr as (Hl & Hrw & Ht & Hb). unfold top_sub. intros Hi. nia.
Qed.

Lemma bottom_sub_bounds (i : Z) :
  0 <= i <= right r - left r ->
  0 <= bottom_sub WIDTH r i < WIDTH * HEIGHT.
Proof.
  destruct Hr as (Hl & Hrw & Ht & Hb). unfold bottom_sub. intros Hi. nia.
Qed.

Lemma left_sub_bounds (i : Z) :
  0 <= i <= bottom r - top r ->
  0 <= left_sub WIDTH r i < WIDTH * HEIGHT.
Proof.
  destruct Hr as (Hl & Hrw & Ht & Hb). unfold left_sub. intros Hi. nia.
Qed.

Lemma right_sub_bounds (i : Z) :
  0 <= i <= bottom r - top r ->
  - (WIDTH * HEIGHT) <= right_sub WIDTH r i < WIDTH * HEIGHT.
Proof.
  destruct Hr as (Hl & Hrw & Ht & Hb). unfold right_sub. intros Hi. nia.
Qed.

Lemma row_count_fits : right r - left r + 1 <= WIDTH.
Proof. destruct Hr as (Hl & Hrw & Ht & Hb). lia. Qed.

Lemma col_count_fits : bottom r - top r + 1 <= HEIGHT.
Proof. destruct Hr as (Hl & Hrw & Ht & Hb). lia. Qed.
End OutlineSubscripts.

Section SaveRestore.
Context `{DisplayDriver}.
Variables (WIDTH HEIGHT : Z) (r : region).
Hypotheses (HW : 0 < WIDTH) (HH : 0 < HEIGHT)
  (Hr : region_on_surface WIDTH HEIGHT r).

(** Reading the frame buffer at a subscript of the outline succeeds. *)
Lemma outline_read (b0 : list Byte.byte) (i : Z) :
  buffer_ok WIDTH HEIGHT b0 ->
  - (WIDTH * HEIGHT) <= i < WIDTH * HEIGHT ->
  exists k v, py_index (length b0) i = Some k /\ b0 !! k = Some v
              /\ getitem b0 i = Some v.
Proof.
  unfold buffer_ok. intros Hlen Hi. apply getitem_wrapped. lia.
Qed.

(** The save step completes and leaves the outline of [r], as it is in the
    frame buffer [b0], in the four save buffers. *)
Lemma save_outline_ok (b0 : list Byte.byte) (pix : edges) :
  buffer_ok WIDTH HEIGHT b0 -> edges_ok WIDTH HEIGHT pix ->
  exists pix',
    save_outline WIDTH r b0 pix = Some pix'
    /\ edges_ok WIDTH HEIGHT pix'
    /\ saved_outline WIDTH r b0 pix'.
Proof.
  intros Hb0 Hpix. unfold save_outline.
  pose proof (row_count_fits WIDTH HEIGHT r Hr) as Hrows.
  pose proof (col_count_fits WIDTH HEIGHT r Hr) as Hcols.
  match goal with |- context [for_each ?body (py_range (right r - left r + 1)) pix] =>
    destruct (for_each_prefix_inv body
      (fun done p => edges_ok WIDTH HEIGHT p
         /\ forall i, i ∈ done ->
              saved (e_top p) b0 (top_sub WIDTH r) i
              /\ saved (e_bottom p) b0 (bottom_sub WIDTH r) i)
      (py_range (right r - left r + 1)) pix) as (pix1 & -> & Hok1 & Hrowsaved)
  end.
  { split; [assumption|]. intros i Hi. inversion Hi. }
  { intros done i rest p Hsplit ((Ht & Hb & Hl & Hri) & Hsaved).
    apply py_range_split in Hsplit as (Hi & Hfresh & Hdone).
    destruct (outline_read b0 (top_sub WIDTH r i) Hb0)
      as (k1 & v1 & _ & _ & Hv1); [apply (top_sub_bounds WIDTH HEIGHT); auto; lia|].
    destruct (outline_read b0 (bottom_sub WIDTH r i) Hb0)
      as (k2 & v2 & _ & _ & Hv2).
    { assert (0 <= bottom_sub WIDTH r i < WIDTH * HEIGHT)
        by (apply (bottom_sub_bounds WIDTH HEIGHT); auto; lia).
      lia. }
    pose proof Hv1 as Hv1'. pose proof Hv2 as Hv2'.
    unfold top_sub in Hv1'. unfold bottom_sub in Hv2'.
    rewrite Hv1'. simpl. rewrite setitem_in_range by lia. simpl.
    rewrite Hv2'. simpl. rewrite setitem_in_range by lia. simpl.
    eexists. split; [reflexivity|]. split.
    - unfold edges_ok. simpl. rewrite !length_insert. auto.
    - intros j [Hj| ->%list_elem_of_singleton]%elem_of_app; simpl.
      + destruct (Hsaved j Hj) as [Hs1 Hs2]. specialize (Hdone j Hj).
        assert (i <> j) by (intros ->; contradiction).
        split; apply saved_kept; auto; lia.
      + split; apply saved_after_write; auto; lia. }
  simpl.
  match goal with |- context [for_each ?body (py_range (bottom r - top r + 1)) pix1] =>
    destruct (for_each_prefix_inv body
      (fun done p => edges_ok WIDTH HEIGHT p
         /\ e_top p = e_top pix1 /\ e_bottom p = e_bottom pix1
         /\ forall i, i ∈ done ->
              saved (e_left p) b0 (left_sub WIDTH r) i
              /\ saved (e_right p) b0 (right_sub WIDTH r) i)
      (py_range (bottom r - top r + 1)) pix1)
      as (pix2 & -> & Hok2 & Htop2 & Hbot2 & Hcolsaved)
  end.
  { split; [assumption|]. split; [reflexivity|]. split; [reflexivity|].
    intros i Hi. inversion Hi. }
  { intros done i rest p Hsplit ((Ht & Hb & Hl & Hri) & Het & Heb & Hsaved).
    apply py_range_split in Hsplit as (Hi & Hfresh & Hdone).
    destruct (outline_read b0 (left_sub WIDTH r i) Hb0)
      as (k1 & v1 & _ & _ & Hv1).
    { assert (0 <= left_sub WIDTH r i < WIDTH * HEIGHT)
        by (apply (left_sub_bounds WIDTH HEIGHT); auto; lia).
      lia. }
    destruct (outline_read b0 (right_sub WIDTH r i) Hb0)
      as (k2 & v2 & _ & _ & Hv2); [apply (right_sub_bounds WIDTH HEIGHT); auto; lia|].
    pose proof Hv1 as Hv1'. pose proof Hv2 as Hv2'.
    unfold left_sub in Hv1'. unfold right_sub in Hv2'.
    rewrite Hv1'. simpl. rewrite setitem_in_range by lia. simpl.
    rewrite Hv2'. simpl. rewrite setitem_in_range by lia. simpl.
    eexists. split; [reflexivity|]. split; [|split; [|split]]; simpl; auto.
    - unfold edges_ok. simpl. rewrite !length_insert. auto.
    - intros j [Hj| ->%list_elem_of_singleton]%elem_of_app; simpl.
      + destruct (Hsaved j Hj) as [Hs1 Hs2]. specialize (Hdone j Hj).
        assert (i <> j) by (intros ->; contradiction).
        split; apply saved_kept; auto; lia.
      + split; apply saved_after_write; auto; lia. }
  exists pix2. split; [reflexivity|]. split; [assumption|]. split.
  - intros i Hi. rewrite Htop2, Hbot2. apply Hrowsaved.
    apply elem_of_py_range. lia.
  - intros i Hi. apply Hcolsaved. apply elem_of_py_range. lia.
Qed.

(** Writing back a value that was read from [b0] at the same subscript. *)
Lemma restoring_write (b0 b : list Byte.byte) (sub_i : Z) (v : Byte.byte)
  (K : nat -> Prop) :
  length b = length b0 -> getitem b0 sub_i = Some v ->
  (forall k, K k -> b !! k = b0 !! k) ->
  exists b',
    setitem b sub_i v = Some b' /\ length b' = length b0
    /\ forall k, K k \/ py_index (length b0) sub_i = Some k ->
         b' !! k = b0 !! k.
Proof.
  intros Hlen Hread Hagree. unfold getitem in Hread. unfold setitem.
  rewrite Hlen.
  destruct (py_index (length b0) sub_i) as [k1|] eqn:Hk1; [|discriminate].
  simpl in Hread. simpl. eexists. split; [reflexivity|].
  split; [now rewrite length_insert|].
  intros k Hk. destruct (decide (k = k1)) as [->|Hne].
  - rewrite list_lookup_insert_eq; [now rewrite Hread|].
    apply py_index_lt in Hk1. lia.
  - rewrite list_lookup_insert_ne by auto.
    destruct Hk as [Hk|Hk]; [now apply Hagree|congruence].
Qed.

(** The restore step completes and puts back, at every place it writes,
    what [b0] had there when the outline was saved. *)
Lemma restore_outline_ok (b0 buf : list Byte.byte) (pix : edges) :
  buffer_ok WIDTH HEIGHT b0 -> buffer_ok WIDTH HEIGHT buf ->
  saved_outline WIDTH r b0 pix ->
  exists buf',
    restore_outline WIDTH r pix buf = Some buf'
    /\ buffer_ok WIDTH HEIGHT buf'
    /\ forall k, restored_place WIDTH r (length b0) k -> buf' !! k = b0 !! k.
Proof.
  intros Hb0 Hbuf [Hrowsaved Hcolsaved]. unfold restore_outline.
  assert (Hsame : forall b, buffer_ok WIDTH HEIGHT b <-> length b = length b0).
  { intros b. unfold buffer_ok in *. lia. }
  match goal with |- context [for_each ?body (py_range (right r - left r + 1)) buf] =>
    destruct (for_each_prefix_inv body
      (fun done b => length b = length b0
         /\ forall k,
              (exists i, i ∈ done
                 /\ (py_index (length b0) (top_sub WIDTH r i) = Some k
                     \/ py_index (length b0) (bottom_sub WIDTH r i) = Some k)) ->
              b !! k = b0 !! k)
      (py_range (right r - left r + 1)) buf) as (buf1 & -> & Hlen1 & Hrows)
  end.
  { split; [now apply Hsame|]. intros k (i & Hi & _). inversion Hi. }
  { intros done i rest b Hsplit (Hlen & Hagree).
    apply py_range_split in Hsplit as (Hi & _ & _).
    destruct (Hrowsaved i) as ((v1 & Hp1 & Hr1) & (v2 & Hp2 & Hr2)); [lia|].
    rewrite Hp1. simpl.
    destruct (restoring_write b0 b _ v1 _ Hlen Hr1 Hagree)
      as (b1 & Hw1 & Hlen1 & Hagree1).
    unfold top_sub in Hw1. rewrite Hw1. simpl. rewrite Hp2. simpl.
    destruct (restoring_write b0 b1 _ v2 _ Hlen1 Hr2 Hagree1)
      as (b2 & Hw2 & Hlen2 & Hagree2).
    unfold bottom_sub in Hw2. rewrite Hw2.
    eexists. split; [reflexivity|]. split; [assumption|].
    intros k (j & [Hj| ->%list_elem_of_singleton]%elem_of_app & Hk).
    - apply Hagree2. left. left. eauto.
    - apply Hagree2. destruct Hk as [Hk|Hk]; [left; right|right]; exact Hk. }
  simpl.
  match goal with |- context [for_each ?body (py_range (bottom r - top r + 1)) buf1] =>
    destruct (for_each_prefix_inv body
      (fun done b => length b = length b0
         /\ forall k,
              ((exists i, i ∈ py_range (right r - left r + 1)
                 /\ (py_index (length b0) (top_sub WIDTH r i) = Some k
                     \/ py_index (length b0) (bottom_sub WIDTH r i) = Some k))
               \/ (exists i, i ∈ done
                 /\ (py_index (length b0) (left_sub WIDTH r i) = Some k
                     \/ py_index (length b0) (right_sub WIDTH r i) = Some k))) ->
              b !! k = b0 !! k)
      (py_range (bottom r - top r + 1)) buf1) as (buf2 & -> & Hlen2 & Hall)
  end.
  { split; [assumption|]. intros k [Hk|(i & Hi & _)]; [auto|inversion Hi]. }
  { intros done i rest b Hsplit (Hlen & Hagree).
    apply py_range_split in Hsplit as (Hi & _ & _).
    destruct (Hcolsaved i) as ((v1 & Hp1 & Hr1) & (v2 & Hp2 & Hr2)); [lia|].
    rewrite Hp1. simpl.
    destruct (restoring_write b0 b _ v1 _ Hlen Hr1 Hagree)
      as (b1 & Hw1 & Hlen1' & Hagree1).
    unfold left_sub in Hw1. rewrite Hw1. simpl. rewrite Hp2. simpl.
    destruct (restoring_write b0 b1 _ v2 _ Hlen1' Hr2 Hagree1)
      as (b2 & Hw2 & Hlen2 & Hagree2).
    unfold right_sub in Hw2. rewrite Hw2.
    eexists. split; [reflexivity|]. split; [assumption|].
    intros k [Hk|(j & [Hj| ->%list_elem_of_singleton]%elem_of_app & Hk)].
    - apply Hagree2. left. left. left. exact Hk.
    - apply Hagree2. left. left. right. eauto.
    - apply Hagree2. destruct Hk as [Hk|Hk]; [left; right|right]; exact Hk. }
  exists buf2. split; [reflexivity|]. split; [now apply Hsame|].
  intros k [(i & Hi & Hk)|(i & Hi & Hk)]; apply Hall.
  - left. exists i. split; [apply elem_of_py_range; lia|exact Hk].
  - right. exists i. split; [apply elem_of_py_range; lia|exact Hk].
Qed.
End SaveRestore.

(** Every pixel of the outline is at a place the restore loops write. *)
Lemma border_is_restored (WIDTH HEIGHT : Z) (r : region) (len : nat) (x y : Z) :
  0 < WIDTH -> 0 < HEIGHT -> region_on_surface WIDTH HEIGHT r ->
  Z.of_nat len = WIDTH * HEIGHT ->
  on_border r x y ->
  restored_place WIDTH r len (pixel WIDTH x y).
Proof.
  intros HW HH (Hl & Hrw & Ht & Hb) Hlen (Hx & Hy & Hedge).
  assert (Hpix : 0 <= x + y * WIDTH < WIDTH * HEIGHT) by nia.
  unfold restored_place, pixel.
  destruct (decide (y = bottom r)) as [->|Hnb].
  { left. exists (x - left r). split; [lia|]. right.
    unfold bottom_sub. replace (left r + (x - left r)) with x by lia.
    apply py_index_in_range. lia. }
  destruct (decide (x = left r)) as [->|Hnl].
  { right. exists (y - top r). split; [lia|]. left.
    unfold left_sub. replace (top r + (y - top r)) with y by lia.
    apply py_index_in_range. lia. }
  destruct (decide (x = right r)) as [->|Hnr].
  { right. exists (y - top r + 1). split; [lia|]. right.
    unfold right_sub. replace (top r + (y - top r + 1) - 1) with y by lia.
    apply py_index_in_range. lia. }
  left. exists (x - left r + 1). split; [lia|]. left.
  unfold top_sub. replace (left r + (x - left r + 1) - 1) with x by lia.
  replace (top r) with y by lia.
  apply py_index_in_range. lia.
Qed.

(** A pixel of the surface has one place in the frame buffer. *)
Lemma pixel_inj (WIDTH x y x' y' : Z) :
  0 <= x < WIDTH -> 0 <= x' < WIDTH ->
  x + y * WIDTH = x' + y' * WIDTH -> x = x' /\ y = y'.
Proof.
  intros Hx Hx' Heq.
  assert (Hy : y = y').
  { destruct (Z.lt_trichotomy y y') as [Hlt|[Heq'|Hgt]]; [|assumption|].
    - assert (WIDTH <= (y' - y) * WIDTH) by nia. lia.
    - assert (WIDTH <= (y - y') * WIDTH) by nia. lia. }
  subst y'. lia.
Qed.

Section DrawFacts.
Context `{DisplayDriver}.
Variables (WIDTH HEIGHT : Z).

Lemma draw_outline_length (r : region) (buf : list Byte.byte) :
  length (draw_outline WIDTH HEIGHT r buf) = length buf.
Proof. unfold draw_outline. now rewrite !display_line_length. Qed.

(** Drawing an outline leaves every place that is not one of its pixels
    on the surface as it was. *)
Lemma draw_outline_frame (r : region) (buf : list Byte.byte) (k : nat) :
  left r <= right r -> top r <= bottom r ->
  (forall x y, on_border r x y -> 0 <= x < WIDTH -> 0 <= y < HEIGHT ->
               Z.of_nat k <> x + y * WIDTH) ->
  draw_outline WIDTH HEIGHT r buf !! k = buf !! k.
Proof.
  intros Hlr Htb Hoff. unfold draw_outline.
  rewrite !display_line_frame; [reflexivity|..];
    intros x y Hx Hy Hxs Hys; apply Hoff; try assumption;
    unfold on_border; lia.
Qed.
End DrawFacts.

(** ** One cycle of [MoveCursor] *)

Lemma region_changed (p r : region) :
  (left p <> left r \/ right p <> right r
   \/ top p <> top r \/ bottom p <> bottom r) <-> p <> r.
Proof.
  destruct p as [l1 r1 t1 b1], r as [l2 r2 t2 b2]. simpl. split.
  - intros Hne [= -> -> -> ->]. lia.
  - intros Hne.
    destruct (decide (l1 = l2)) as [->|]; [|auto].
    destruct (decide (r1 = r2)) as [->|]; [|auto].
    destruct (decide (t1 = t2)) as [->|]; [|auto].
    destruct (decide (b1 = b2)) as [->|]; [|auto].
    contradiction.
Qed.

Lemma disjoint_regions_differ (WIDTH HEIGHT : Z) (r1 r2 : region) :
  region_on_surface WIDTH HEIGHT r1 -> regions_disjoint r1 r2 -> r2 <> r1.
Proof.
  unfold region_on_surface, regions_disjoint. intros Hr1 Hdis ->. lia.
Qed.

Lemma bind_Some {A B} (x : A) (f : A -> option B) : Some x ≫= f = f x.
Proof. reflexivity. Qed.

Lemma setitem_length {A} (a a' : list A) (i : Z) (v : A) :
  setitem a i v = Some a' -> length a' = length a.
Proof.
  unfold setitem. destruct (py_index (length a) i); [|discriminate].
  simpl. intros [= <-]. apply length_insert.
Qed.

(** The loop rule for what holds if the loop completes. *)
Lemma for_each_preserves {S} (body : Z -> S -> option S) (P : S -> Prop)
  (idxs : list Z) (s s' : S) :
  (forall i s s', body i s = Some s' -> P s -> P s') ->
  for_each body idxs s = Some s' -> P s -> P s'.
Proof.
  intros Hstep. revert s. induction idxs as [|i idxs IH]; intros s Hrun Hs.
  - simpl in Hrun. now injection Hrun as <-.
  - simpl in Hrun. destruct (body i s) as [s1|] eqn:Hbody; [|discriminate].
    simpl in Hrun. eapply IH; [eassumption|]. eapply Hstep; eassumption.
Qed.

Section CycleFacts.
Context `{DisplayDriver}.
Variables (WIDTH HEIGHT : Z).

Lemma restore_outline_length (r0 : region) (pix : edges)
  (buf buf' : list Byte.byte) :
  restore_outline WIDTH r0 pix buf = Some buf' -> length buf' = length buf.
Proof.
  unfold restore_outline. intros Hrun.
  match type of Hrun with context [for_each ?body ?idxs buf] =>
    destruct (for_each body idxs buf) as [buf1|] eqn:Hrows; [|discriminate]
  end.
  simpl in Hrun.
  assert (Hlen1 : length buf1 = length buf).
  { eapply (for_each_preserves _ (fun b => length b = length buf));
      [|exact Hrows|reflexivity].
    intros i b b' Hbody Hb. simplify_option_eq.
    repeat match goal with
           | Hs : setitem _ _ _ = Some _ |- _ => apply setitem_length in Hs
           end.
    congruence. }
  eapply (for_each_preserves _ (fun b => length b = length buf));
    [|exact Hrun|exact Hlen1].
  intros i b b' Hbody Hb. simplify_option_eq.
  repeat match goal with
         | Hs : setitem _ _ _ = Some _ |- _ => apply setitem_length in Hs
         end.
  congruence.
Qed.

Lemma restore_previous_ok (s : globals) (b0 : list Byte.byte) :
  buffer_ok WIDTH HEIGHT (buffer s) -> restore_previous WIDTH s = Some b0 ->
  buffer_ok WIDTH HEIGHT b0.
Proof.
  unfold restore_previous, buffer_ok. intros Hlen Hrun.
  destruct (has_previous (prev s)).
  - apply restore_outline_length in Hrun. congruence.
  - now injection Hrun as <-.
Qed.

(** [MoveCursor] when the sensors are due and the rectangle has changed. *)
Lemma MoveCursor_moved (inp : inputs) (s : globals) :
  nextSensorRead s <= ticks_ms inp -> cursor_region WIDTH HEIGHT inp <> prev s ->
  MoveCursor WIDTH HEIGHT inp s =
    (buffer ← restore_previous WIDTH s;
     pix ← save_outline WIDTH (cursor_region WIDTH HEIGHT inp) buffer (pix_of s);
     Some (Globals (MAX_ITER s) (isHiRez s) (view s)
             (draw_outline WIDTH HEIGHT (cursor_region WIDTH HEIGHT inp) buffer)
             (e_top pix) (e_bottom pix) (e_left pix) (e_right pix)
             (cursor_region WIDTH HEIGHT inp) (cursor_region WIDTH HEIGHT inp)
             (Some (cursor_x0 WIDTH HEIGHT inp))
             (Some (cursor_y0 WIDTH HEIGHT inp))
             (Some (cursor_zoom WIDTH HEIGHT inp))
             (Some (cursor_newHeight WIDTH HEIGHT inp))
             (Some (cursor_newWidth WIDTH HEIGHT inp))
             (ticks_ms_end inp + 100))).
Proof.
  intros Hdue Hmoved. unfold MoveCursor.
  assert (Hgate : (ticks_ms inp >=? nextSensorRead s) = true)
    by (apply Z.geb_le; assumption).
  rewrite Hgate. rewrite bool_decide_eq_true_2; [reflexivity|].
  apply region_changed. auto.
Qed.
End CycleFacts.

(** ** The restore law of the cursor overlay *)

(** C2, as the code has it.  [MoveCursor] draws the outline of a rectangle
    that lies on the surface and is not the "no previous cursor" sentinel
    (its four coordinates do not add up to 0); at the next reading the
    knobs give a disjoint rectangle on the surface.  Then the second call
    completes, its restore step writes back every pixel of the first
    outline to the value it had just before that outline was drawn, and
    the pixels still have those values when the call returns.  [b0] is the
    frame buffer just before the first outline was drawn. *)
Theorem MoveCursor_restores_outline `{DisplayDriver}
  (WIDTH HEIGHT : Z) (inp1 inp2 : inputs) (s s1 : globals) :
  0 < WIDTH -> 0 < HEIGHT ->
  buffer_ok WIDTH HEIGHT (buffer s) -> edges_ok WIDTH HEIGHT (pix_of s) ->
  nextSensorRead s <= ticks_ms inp1 ->
  cursor_region WIDTH HEIGHT inp1 <> prev s ->
  MoveCursor WIDTH HEIGHT inp1 s = Some s1 ->
  region_on_surface WIDTH HEIGHT (cursor_region WIDTH HEIGHT inp1) ->
  has_previous (cursor_region WIDTH HEIGHT inp1) = true ->
  nextSensorRead s1 <= ticks_ms inp2 ->
  region_on_surface WIDTH HEIGHT (cursor_region WIDTH HEIGHT inp2) ->
  regions_disjoint (cursor_region WIDTH HEIGHT inp1)
                   (cursor_region WIDTH HEIGHT inp2) ->
  exists b0 restored s2,
    restore_previous WIDTH s = Some b0
    /\ buffer s1 = draw_outline WIDTH HEIGHT (cursor_region WIDTH HEIGHT inp1) b0
    /\ restore_previous WIDTH s1 = Some restored
    /\ MoveCursor WIDTH HEIGHT inp2 s1 = Some s2
    /\ forall x y, on_border (cursor_region WIDTH HEIGHT inp1) x y ->
         restored !! pixel WIDTH x y = b0 !! pixel WIDTH x y
         /\ buffer s2 !! pixel WIDTH x y = b0 !! pixel WIDTH x y.
Proof.
  set (r1 := cursor_region WIDTH HEIGHT inp1).
  set (r2 := cursor_region WIDTH HEIGHT inp2).
  intros HW HH Hbuf Hpix Hdue1 Hmoved1 Hcycle1 Hr1 Hprev1 Hdue2 Hr2 Hdis.
  (* the first call *)
  rewrite MoveCursor_moved in Hcycle1 by assumption. fold r1 in Hcycle1.
  destruct (restore_previous WIDTH s) as [b0|] eqn:Hb0; [|discriminate].
  rewrite bind_Some in Hcycle1.
  assert (Hb0ok : buffer_ok WIDTH HEIGHT b0)
    by (eapply restore_previous_ok; eassumption).
  destruct (save_outline_ok WIDTH HEIGHT r1 HW HH Hr1 b0 (pix_of s) Hb0ok Hpix)
    as (pix1 & Hsave1 & Hpix1 & Hsaved1).
  rewrite Hsave1, bind_Some in Hcycle1. injection Hcycle1 as <-.
  simpl in Hdue2.
  (* the restore step of the second call *)
  assert (Hdrawn : buffer_ok WIDTH HEIGHT (draw_outline WIDTH HEIGHT r1 b0)).
  { unfold buffer_ok. rewrite draw_outline_length. exact Hb0ok. }
  destruct (restore_outline_ok WIDTH HEIGHT r1 b0
              (draw_outline WIDTH HEIGHT r1 b0) pix1 Hb0ok Hdrawn Hsaved1)
    as (restored & Hrestore & Hrestored_ok & Hplaces).
  assert (Hpix_eq : Edges (e_top pix1) (e_bottom pix1) (e_left pix1) (e_right pix1)
                    = pix1) by (destruct pix1; reflexivity).
  match goal with |- context [restore_previous WIDTH ?st] => set (s1 := st) end.
  assert (Hrestore2 : restore_previous WIDTH s1 = Some restored).
  { unfold restore_previous, s1, pix_of. simpl. rewrite Hprev1, Hpix_eq.
    exact Hrestore. }
  (* the rest of the second call *)
  assert (Hpix1' : edges_ok WIDTH HEIGHT (pix_of s1)).
  { unfold s1, pix_of. simpl. rewrite Hpix_eq. exact Hpix1. }
  destruct (save_outline_ok WIDTH HEIGHT r2 HW HH Hr2 restored (pix_of s1)
              Hrestored_ok Hpix1') as (pix2 & Hsave2 & _ & _).
  assert (Hmoved2 : cursor_region WIDTH HEIGHT inp2 <> prev s1).
  { unfold s1. simpl. eapply disjoint_regions_differ; eassumption. }
  pose proof (MoveCursor_moved WIDTH HEIGHT inp2 s1 Hdue2 Hmoved2) as Hcycle2.
  fold r2 in Hcycle2.
  rewrite Hrestore2, bind_Some, Hsave2, bind_Some in Hcycle2.
  eexists b0, restored, _. split; [reflexivity|]. split; [reflexivity|].
  split; [exact Hrestore2|]. split; [exact Hcycle2|].
  intros x y Hborder.
  assert (Hback : restored !! pixel WIDTH x y = b0 !! pixel WIDTH x y).
  { apply Hplaces. eapply border_is_restored; eauto. }
  split; [exact Hback|]. cbn [buffer]. rewrite <- Hback.
  destruct Hr1 as (Hl1 & Hrw1 & Ht1 & Hb1), Hr2 as (Hl2 & Hrw2 & Ht2 & Hb2).
  apply draw_outline_frame; [lia|lia|].
  intros x' y' Hborder' Hx' Hy' Heq.
  destruct Hborder as (Hx & Hy & _), Hborder' as (Hx2 & Hy2 & _).
  unfold pixel in Heq. rewrite Z2Nat.id in Heq by nia.
  apply pixel_inj in Heq as [-> ->]; [|lia|lia].
  unfold regions_disjoint in Hdis. lia.
Qed.

Example cursor_region_1313 (now : Z) :
  cursor_region 8 8 (knobs_1313 now) = Region 1 3 1 3.
Proof. reflexivity. Qed.

Example cursor_region_5757 (now : Z) :
  cursor_region 8 8 (knobs_5757 now) = Region 5 7 5 7.
Proof. reflexivity. Qed.

Example cursor_region_0000 (now : Z) :
  cursor_region 8 8 (knobs_0000 now) = Region 0 0 0 0.
Proof. reflexivity. Qed.

Lemma MoveCursor_restores_outline_witness :
  let s1 := default test_globals
              (@MoveCursor axis_display 8 8 (knobs_1313 0) test_globals) in
  exists b0 restored s2,
    restore_previous 8 test_globals = Some b0
    /\ buffer s1 = @draw_outline axis_display 8 8 (cursor_region 8 8 (knobs_1313 0)) b0
    /\ restore_previous 8 s1 = Some restored
    /\ @MoveCursor axis_display 8 8 (knobs_5757 200) s1 = Some s2
    /\ forall x y, on_border (cursor_region 8 8 (knobs_1313 0)) x y ->
         restored !! pixel 8 x y = b0 !! pixel 8 x y
         /\ buffer s2 !! pixel 8 x y = b0 !! pixel 8 x y.
Proof.
  apply (@MoveCursor_restores_outline axis_display 8 8
           (knobs_1313 0) (knobs_5757 200) test_globals).
  - lia.
  - lia.
  - reflexivity.
  - repeat split.
  - simpl. lia.
  - rewrite cursor_region_1313. discriminate.
  - vm_compute. reflexivity.
  - rewrite cursor_region_1313. unfold region_on_surface. simpl. lia.
  - reflexivity.
  - vm_compute. discriminate.
  - rewrite cursor_region_5757. unfold region_on_surface. simpl. lia.
  - rewrite cursor_region_1313, cursor_region_5757.
    unfold regions_disjoint. simpl. lia.
Defined.

(** C2, as stated, fails on the corners.  Saving the outline (1,3,1,3) of
    a picture whose bytes are all different: the top-left corner is saved
    twice, in [top_pix[1]] and in [left_pix[0]], so the left edge does not
    leave it to the top edge; and the top-right corner is not in [top_pix]
    at all, it is saved by the right edge, in [right_pix[1]]. *)
Lemma corners_not_saved_once :
  NoDup test_surface
  /\ exists pix top_left top_right,
       save_outline 8 (Region 1 3 1 3) test_surface (pix_of test_globals)
         = Some pix
       /\ test_surface !! pixel 8 1 1 = Some top_left
       /\ test_surface !! pixel 8 3 1 = Some top_right
       /\ getitem (e_top pix) 1 = Some top_left
       /\ getitem (e_left pix) 0 = Some top_left
       /\ (top_right ∉ e_top pix)
       /\ getitem (e_right pix) 1 = Some top_right.
Proof.
  split; [apply (bool_decide_unpack _); vm_compute; exact I|].
  eexists _, _, _. split; [vm_compute; reflexivity|].
  repeat split; try (vm_compute; reflexivity).
  apply (bool_decide_unpack _). vm_compute. exact I.
Qed.

(** Why the sentinel is excluded.  With the driver that draws end points,
    the one-pixel outline (0,0,0,0), drawn after another outline, is taken
    for "no previous cursor" at the next move: nothing is restored and
    pixel (0,0) stays white. *)
Example sentinel_outline_not_restored :
  let sA := default test_globals
              (@MoveCursor axis_display 8 8 (knobs_5757 0) test_globals) in
  let sB := default sA (@MoveCursor axis_display 8 8 (knobs_0000 200) sA) in
  let sC := default sB (@MoveCursor axis_display 8 8 (knobs_5757 400) sB) in
  prev sB = Region 0 0 0 0
  /\ restore_previous 8 sA = Some test_surface
  /\ test_surface !! pixel 8 0 0 = Some Byte.x01
  /\ buffer sB !! pixel 8 0 0 = Some WHITE
  /\ restore_previous 8 sB = Some (buffer sB)
  /\ prev sC = Region 5 7 5 7
  /\ buffer sC !! pixel 8 0 0 = Some WHITE.
Proof. vm_compute. repeat split. Qed.

(** Why the rectangle must lie on the surface.  At full zoom on the 240 by
    240 display the save loop runs over 241 subscripts and [top_pix[240]]
    raises [IndexError]. *)
Example MoveCursor_full_zoom_raises :
  @MoveCursor axis_display 240 240
    (idle_inputs 0 (165 # 100) (165 # 100) (33 # 10)) (startup_globals 240 240)
  = None.
Proof. vm_compute. reflexivity. Qed.

(** * Further properties *)

(** ** The viewport under the navigation commands *)


(** X1.  [ZoomOut] doubles the span of the viewport on both axes and keeps
    its centre; a viewport with [realStart < realEnd] and
    [imStart < imEnd] stays so. *)
Theorem ZoomOut_doubles_span (inp : inputs) (s : globals) :
  buttonZoomOut inp = true ->
  let v := view s in
  let v' := view (ZoomOut inp s).2 in
  (realEnd v' - realStart v' == 2 * (realEnd v - realStart v))%Q
  /\ (imEnd v' - imStart v' == 2 * (imEnd v - imStart v))%Q
  /\ (realStart v' + realEnd v' == realStart v + realEnd v)%Q
  /\ (imStart v' + imEnd v' == imStart v + imEnd v)%Q
  /\ (view_ok v -> view_ok v').
Proof.
  intros Hpressed. unfold ZoomOut. rewrite Hpressed. simpl.
  split; [field|]. split; [field|]. split; [field|]. split; [field|].
  unfold view_ok. simpl. intros [Hre Him].
  assert (Hr : ((realEnd (view s) - realStart (view s)) / 2 * 2
                == realEnd (view s) - realStart (view s))%Q) by field.
  assert (Hi : ((imEnd (view s) - imStart (view s)) / 2 * 2
                == imEnd (view s) - imStart (view s))%Q) by field.
  set (dr := ((realEnd (view s) - realStart (view s)) / 2)%Q) in *.
  set (di := ((imEnd (view s) - imStart (view s)) / 2)%Q) in *.
  split; lra.
Qed.

Lemma ZoomOut_doubles_span_witness :
  let inp := press_X (idle_inputs 0 0 0 0) in
  let s := startup_globals 8 8 in
  let v := view s in
  let v' := view (ZoomOut inp s).2 in
  (realEnd v' - realStart v' == 2 * (realEnd v - realStart v))%Q
  /\ (imEnd v' - imStart v' == 2 * (imEnd v - imStart v))%Q
  /\ (realStart v' + realEnd v' == realStart v + realEnd v)%Q
  /\ (imStart v' + imEnd v' == imStart v + imEnd v)%Q
  /\ (view_ok v -> view_ok v').
Proof.
  apply (ZoomOut_doubles_span (press_X (idle_inputs 0 0 0 0))
           (startup_globals 8 8)).
  reflexivity.
Defined.








(** X3.  [Center] translates the viewport without changing its spans: the
    point sampled at column [px] afterwards is the point that was sampled
    at [px + (getCursorX - width2)], so the centre column [width2] shows
    what the X knob pointed at; likewise for rows. *)
Theorem Center_recentres (W H : Z) (inp : inputs) (s : globals) :
  0 < W -> 0 < H -> buttonCenter inp = true ->
  let v := view s in
  let v' := view (Center W H inp s).2 in
  let cx := getCursorX W (mPot0 inp) in
  let cy := getCursorY H (mPot1 inp) in
  (realEnd v' - realStart v' == realEnd v - realStart v)%Q
  /\ (imEnd v' - imStart v' == imEnd v - imStart v)%Q
  /\ (forall px, sample_re W v' px == sample_re W v (px + (cx - Z.shiftr W 1)))%Q
  /\ (forall py, sample_im H v' py == sample_im H v (py + (cy - Z.shiftr H 1)))%Q
  /\ (sample_re W v' (Z.shiftr W 1) == sample_re W v cx)%Q
  /\ (sample_im H v' (Z.shiftr H 1) == sample_im H v cy)%Q.
Proof.
  intros HW HH Hpressed. apply inject_Z_nonzero in HW, HH.
  unfold Center. rewrite Hpressed. simpl.
  assert (Hre : forall px,
    (sample_re W (center_view W H inp (view s)) px
     == sample_re W (view s) (px + (getCursorX W (mPot0 inp) - Z.shiftr W 1)))%Q).
  { intros px. unfold sample_re, center_view. simpl.
    rewrite inject_Z_plus. field. assumption. }
  assert (Him : forall py,
    (sample_im H (center_view W H inp (view s)) py
     == sample_im H (view s) (py + (getCursorY H (mPot1 inp) - Z.shiftr H 1)))%Q).
  { intros py. unfold sample_im, center_view. simpl.
    rewrite inject_Z_plus. field. assumption. }
  split; [unfold center_view; simpl; ring|].
  split; [unfold center_view; simpl; ring|].
  split; [exact Hre|]. split; [exact Him|]. split.
  - rewrite Hre. now replace (Z.shiftr W 1 + (getCursorX W (mPot0 inp) - Z.shiftr W 1))
      with (getCursorX W (mPot0 inp)) by lia.
  - rewrite Him. now replace (Z.shiftr H 1 + (getCursorY H (mPot1 inp) - Z.shiftr H 1))
      with (getCursorY H (mPot1 inp)) by lia.
Qed.

Lemma Center_recentres_witness :
  let inp := press_B (knobs_1313 0) in
  let s := startup_globals 8 8 in
  let v := view s in
  let v' := view (Center 8 8 inp s).2 in
  let cx := getCursorX 8 (mPot0 inp) in
  let cy := getCursorY 8 (mPot1 inp) in
  (realEnd v' - realStart v' == realEnd v - realStart v)%Q
  /\ (imEnd v' - imStart v' == imEnd v - imStart v)%Q
  /\ (forall px, sample_re 8 v' px == sample_re 8 v (px + (cx - Z.shiftr 8 1)))%Q
  /\ (forall py, sample_im 8 v' py == sample_im 8 v (py + (cy - Z.shiftr 8 1)))%Q
  /\ (sample_re 8 v' (Z.shiftr 8 1) == sample_re 8 v cx)%Q
  /\ (sample_im 8 v' (Z.shiftr 8 1) == sample_im 8 v cy)%Q.
Proof.
  apply (Center_recentres 8 8 (press_B (knobs_1313 0)) (startup_globals 8 8));
    reflexivity || lia.
Defined.

(** ** The command dispatcher *)

(** [ButtonPressed] applies one command only, the first pressed one in
    the order resolution, centre, zoom in, zoom out. *)
Lemma ButtonPressed_cases (W H : Z) (inp : inputs) (s : globals) :
  ButtonPressed W H inp s
  = if buttonRez inp then Some (true, (ChangeRez inp s).2)
    else if buttonCenter inp then Some (true, (Center W H inp s).2)
    else if buttonZoomIn inp then ZoomIn W H inp s
    else Some (ZoomOut inp s).
Proof.
  unfold ButtonPressed, ChangeRez, Center, ZoomIn.
  destruct (buttonRez inp); [reflexivity|].
  destruct (buttonCenter inp); [reflexivity|].
  destruct (buttonZoomIn inp); [|reflexivity].
  destruct (z s), (newWidth s), (newHeight s); reflexivity.
Qed.

(** A command changes the viewport, the budget and the resolution flag
    only. *)
Lemma ButtonPressed_frame (W H : Z) (inp : inputs) (s s1 : globals)
  (pressed : bool) :
  ButtonPressed W H inp s = Some (pressed, s1) ->
  buffer s1 = buffer s /\ pix_of s1 = pix_of s /\ prev s1 = prev s
  /\ cur s1 = cur s /\ nextSensorRead s1 = nextSensorRead s
  /\ z s1 = z s /\ newWidth s1 = newWidth s /\ newHeight s1 = newHeight s.
Proof.
  rewrite ButtonPressed_cases. unfold ChangeRez, Center, ZoomIn, ZoomOut.
  destruct (buttonRez inp); [|destruct (buttonCenter inp);
    [|destruct (buttonZoomIn inp); [|destruct (buttonZoomOut inp)]]].
  - intros [= <- <-]. destruct (negb (isHiRez s)); repeat split.
  - intros [= <- <-]. repeat split.
  - destruct (z s) eqn:Hz, (newWidth s) eqn:Hnw, (newHeight s) eqn:Hnh;
      try discriminate.
    intros [= <- <-]. repeat split; assumption.
  - intros [= <- <-]. repeat split.
  - intros [= <- <-]. repeat split.
Qed.

Lemma ButtonPressed_none (W H : Z) (inp : inputs) (s s1 : globals) :
  ButtonPressed W H inp s = Some (false, s1) -> s1 = s.
Proof.
  rewrite ButtonPressed_cases. unfold ZoomIn, ZoomOut.
  destruct (buttonRez inp); [discriminate|].
  destruct (buttonCenter inp); [discriminate|].
  destruct (buttonZoomIn inp).
  - destruct (z s), (newWidth s), (newHeight s); discriminate.
  - destruct (buttonZoomOut inp); [discriminate|]. now intros [= <-].
Qed.

(** [ButtonPressed] raises only in [ZoomIn], on an unbound name. *)
Lemma ButtonPressed_returns (W H : Z) (inp : inputs) (s : globals) :
  cursor_bound s \/ no_button inp ->
  exists pressed s1, ButtonPressed W H inp s = Some (pressed, s1).
Proof.
  intros Hok. rewrite ButtonPressed_cases.
  destruct (buttonRez inp) eqn:HY; [eauto|].
  destruct (buttonCenter inp) eqn:HB; [eauto|].
  destruct (buttonZoomIn inp) eqn:HA; [|destruct (ZoomOut inp s); eauto].
  destruct Hok as [Hbound|(_ & _ & Hno & _)]; [|congruence].
  rewrite (ZoomIn_bound W H inp s HA Hbound). eauto.
Qed.

Lemma ButtonPressed_idle (W H : Z) (inp : inputs) (s : globals) :
  no_button inp -> ButtonPressed W H inp s = Some (false, s).
Proof.
  intros (HY & HB & HA & HX). rewrite ButtonPressed_cases.
  unfold ZoomOut. now rewrite HY, HB, HA, HX.
Qed.

(** ** The tracking loop *)

Section TrackingFacts.
Context `{DisplayDriver}.
Variables (WIDTH HEIGHT : Z).

(** [MoveCursor] changes neither the budget nor the viewport. *)
Lemma MoveCursor_keeps_settings (inp : inputs) (s s' : globals) :
  MoveCursor WIDTH HEIGHT inp s = Some s' ->
  MAX_ITER s' = MAX_ITER s /\ isHiRez s' = isHiRez s /\ view s' = view s.
Proof.
  unfold MoveCursor. intros Hrun.
  destruct (ticks_ms inp >=? nextSensorRead s); [|now injection Hrun as <-].
  case_bool_decide; [|now injection Hrun as <-].
  destruct (restore_previous WIDTH s) as [b|]; [|discriminate].
  rewrite bind_Some in Hrun.
  destruct (save_outline WIDTH (cursor_region WIDTH HEIGHT inp) b (pix_of s))
    as [pix|]; [|discriminate].
  rewrite bind_Some in Hrun. now injection Hrun as <-.
Qed.

(** [MoveCursor] binds the cursor names when it is due and keeps them
    bound otherwise. *)
Lemma MoveCursor_binds (inp : inputs) (s s' : globals) :
  MoveCursor WIDTH HEIGHT inp s = Some s' ->
  cursor_bound s \/ nextSensorRead s <= ticks_ms inp ->
  cursor_bound s'.
Proof.
  unfold MoveCursor. intros Hrun Hok.
  destruct (ticks_ms inp >=? nextSensorRead s) eqn:Hgate.
  - case_bool_decide.
    + destruct (restore_previous WIDTH s) as [b|]; [|discriminate].
      rewrite bind_Some in Hrun.
      destruct (save_outline WIDTH (cursor_region WIDTH HEIGHT inp) b (pix_of s))
        as [pix|]; [|discriminate].
      rewrite bind_Some in Hrun. injection Hrun as <-.
      repeat split; eexists; reflexivity.
    + injection Hrun as <-. repeat split; eexists; reflexivity.
  - injection Hrun as <-. destruct Hok as [Hb|Hdue]; [assumption|].
    rewrite Z.geb_leb in Hgate. apply Z.leb_gt in Hgate. lia.
Qed.

Lemma track_step (inp : inputs) (rest : list inputs) (s : globals) :
  track WIDTH HEIGHT (inp :: rest) s =
    match ButtonPressed WIDTH HEIGHT inp s with
    | Some (true, s1) => Some (true, s1)
    | Some (false, s1) =>
        s' ← MoveCursor WIDTH HEIGHT inp s1; track WIDTH HEIGHT rest s'
    | None => None
    end.
Proof.
  simpl. destruct (ButtonPressed WIDTH HEIGHT inp s) as [[[] s1]|];
    reflexivity.
Qed.

End TrackingFacts.

(** X4.  While the cursor is tracked and no button is pressed, however
    many passes the loop makes, the viewport, the iteration budget and the
    resolution flag stay as they were. *)
Theorem track_keeps_settings {D : DisplayDriver} (W H : Z)
  (readings : list inputs) (s s' : globals) :
  track W H readings s = Some (false, s') ->
  view s' = view s /\ MAX_ITER s' = MAX_ITER s /\ isHiRez s' = isHiRez s.
Proof.
  revert s. induction readings as [|inp rest IH]; intros s Hrun.
  - simpl in Hrun. injection Hrun as <-. auto.
  - rewrite track_step in Hrun.
    destruct (ButtonPressed W H inp s) as [[[] s0]|] eqn:Hpressed;
      [discriminate| |discriminate].
    apply ButtonPressed_none in Hpressed as ->.
    destruct (MoveCursor W H inp s) as [s1|] eqn:Hmove; [|discriminate].
    rewrite bind_Some in Hrun.
    destruct (MoveCursor_keeps_settings W H inp s s1 Hmove) as (Hm & Hh & Hv).
    destruct (IH s1 Hrun) as (Hv' & Hm' & Hh').
    repeat split; congruence.
Qed.

Lemma track_keeps_settings_witness :
  let readings := [knobs_1313 0; knobs_5757 200] in
  let s' := (default (false, test_globals)
               (@track axis_display 8 8 readings test_globals)).2 in
  view s' = view test_globals /\ MAX_ITER s' = MAX_ITER test_globals
  /\ isHiRez s' = isHiRez test_globals.
Proof.
  apply (@track_keeps_settings axis_display 8 8
           [knobs_1313 0; knobs_5757 200] test_globals).
  vm_compute. reflexivity.
Defined.

(** X5.  The iteration budget follows the resolution flag: if it is the
    base value in normal resolution and twice the base value in high
    resolution, it is so again after any run of the tracking loop, whether
    a button ended it or not. *)
Theorem track_keeps_rez_inv {D : DisplayDriver} (W H : Z) (base : Q)
  (readings : list inputs) (s s' : globals) (pressed : bool) :
  rez_inv base s ->
  track W H readings s = Some (pressed, s') ->
  rez_inv base s'.
Proof.
  revert s. induction readings as [|inp rest IH]; intros s Hinv Hrun.
  - simpl in Hrun. now injection Hrun as _ <-.
  - rewrite track_step in Hrun.
    destruct (ButtonPressed W H inp s) as [[[] s0]|] eqn:Hpressed;
      [|apply ButtonPressed_none in Hpressed as ->|discriminate].
    + injection Hrun as _ <-. clear IH.
      rewrite ButtonPressed_cases in Hpressed. unfold rez_inv in *.
      unfold ChangeRez, Center, ZoomIn, ZoomOut, with_rez, with_view
        in Hpressed.
      destruct (buttonRez inp), (buttonCenter inp), (buttonZoomIn inp),
        (buttonZoomOut inp), (z s), (newWidth s), (newHeight s);
        try discriminate Hpressed; injection Hpressed as <-;
        destruct (isHiRez s); cbn [isHiRez MAX_ITER negb snd];
        try assumption; rewrite Hinv; field.
    + destruct (MoveCursor W H inp s) as [s1|] eqn:Hmove; [|discriminate].
      rewrite bind_Some in Hrun. apply (IH s1); [|assumption].
      destruct (MoveCursor_keeps_settings W H inp s s1 Hmove) as (Hm & Hh & _).
      unfold rez_inv in *. now rewrite Hm, Hh.
Qed.

Lemma track_keeps_rez_inv_witness :
  let readings := [knobs_1313 0; press_Y (knobs_5757 200)] in
  let result := default (false, test_globals)
                  (@track axis_display 8 8 readings test_globals) in
  rez_inv 15 result.2.
Proof.
  apply (@track_keeps_rez_inv axis_display 8 8 15
           [knobs_1313 0; press_Y (knobs_5757 200)] test_globals
           (default (false, test_globals)
              (@track axis_display 8 8
                 [knobs_1313 0; press_Y (knobs_5757 200)] test_globals)).2
           (default (false, test_globals)
              (@track axis_display 8 8
                 [knobs_1313 0; press_Y (knobs_5757 200)] test_globals)).1).
  - reflexivity.
  - vm_compute. reflexivity.
Defined.

(** ** The knob readings *)

Lemma py_int_of_Z (q : Q) (n : Z) : 0 <= n -> (q == inject_Z n)%Q -> py_int q = n.
Proof.
  intros Hn Hq.
  assert (Hpos : (0 <= q)%Q) by (rewrite Hq; now apply inject_Z_nonneg).
  rewrite py_int_floor by assumption. rewrite (Qfloor_comp _ _ Hq).
  apply Qfloor_Z.
Qed.

Lemma py_int_mono (p q : Q) : (0 <= p)%Q -> (p <= q)%Q -> py_int p <= py_int q.
Proof.
  intros Hp Hpq. rewrite !py_int_floor by lra. now apply Qfloor_resp_le.
Qed.

Lemma knob_fraction (v : Q) :
  (0 <= v)%Q -> (v <= 33 # 10)%Q ->
  (0 <= v / (33 # 10))%Q /\ (v / (33 # 10) <= 1)%Q.
Proof.
  intros Hlo Hhi. split.
  - apply Qle_shift_div_l; [reflexivity|]. lra.
  - apply Qle_shift_div_r; [reflexivity|]. lra.
Qed.

(** X6.  For a knob voltage between 0 and 3.3 V, [getCursorX] lies in
    [0, WIDTH] and [getCursorY] in [0, HEIGHT], both ends included: at full
    scale [getCursorX] is [WIDTH], one past the last column, and
    [getCursorY], which runs the other way, is 0; at 0 V they are 0 and
    [HEIGHT].  [getZoomLevel] lies in [0, min(HEIGHT, WIDTH)] and reaches
    the maximum at full scale. *)
Theorem knob_readings_range (W H : Z) (v : Q) :
  0 < W -> 0 < H -> (0 <= v)%Q -> (v <= 33 # 10)%Q ->
  0 <= getCursorX W v <= W
  /\ 0 <= getCursorY H v <= H
  /\ 0 <= getZoomLevel W H v <= Z.min H W
  /\ getCursorX W 0 = 0 /\ getCursorX W (33 # 10) = W
  /\ getCursorY H 0 = H /\ getCursorY H (33 # 10) = 0
  /\ getZoomLevel W H 0 = 0 /\ getZoomLevel W H (33 # 10) = Z.min H W.
Proof.
  intros HW HH Hlo Hhi.
  destruct (knob_fraction v Hlo Hhi) as [Ht0 Ht1].
  set (t := (v / (33 # 10))%Q) in *.
  assert (Hm : 0 < Z.min H W) by lia.
  pose proof (inject_Z_pos W HW) as HWq.
  pose proof (inject_Z_pos H HH) as HHq.
  pose proof (inject_Z_pos _ Hm) as Hmq.
  assert (Hrange : forall n, 0 < n ->
            0 <= py_int (t * inject_Z n) <= n).
  { intros n Hn. pose proof (inject_Z_pos n Hn) as Hnq.
    assert (Hq : (0 <= t * inject_Z n)%Q) by nra.
    destruct (py_int_bounds _ Hq) as [Hge Hle]. split; [assumption|].
    rewrite Zle_Qle. nra. }
  split; [apply Hrange; assumption|]. split.
  { unfold getCursorY. fold t.
    assert (Hq : (0 <= inject_Z H - t * inject_Z H)%Q) by nra.
    destruct (py_int_bounds _ Hq) as [Hge Hle]. split; [assumption|].
    rewrite Zle_Qle. nra. }
  split; [apply Hrange; assumption|].
  repeat split; try reflexivity;
    (apply py_int_of_Z; [lia|]); try change (inject_Z 0) with 0%Q; field.
Qed.

Lemma knob_readings_range_witness :
  0 <= getCursorX 240 (165 # 100) <= 240
  /\ 0 <= getCursorY 240 (165 # 100) <= 240
  /\ 0 <= getZoomLevel 240 240 (165 # 100) <= Z.min 240 240
  /\ getCursorX 240 0 = 0 /\ getCursorX 240 (33 # 10) = 240
  /\ getCursorY 240 0 = 240 /\ getCursorY 240 (33 # 10) = 0
  /\ getZoomLevel 240 240 0 = 0 /\ getZoomLevel 240 240 (33 # 10) = Z.min 240 240.
Proof.
  apply (knob_readings_range 240 240 (165 # 100)); try lia; discriminate.
Defined.

(** With the zoom knob at 0 V the rectangle is a single pixel. *)
Lemma cursor_region_zero_zoom (W H : Z) (inp : inputs) :
  0 < W -> 0 < H -> (mZoomPot inp == 0)%Q ->
  left (cursor_region W H inp) = right (cursor_region W H inp)
  /\ top (cursor_region W H inp) = bottom (cursor_region W H inp).
Proof.
  intros HW HH Hz. apply inject_Z_nonzero in HH.
  assert (Hzoom : cursor_zoom W H inp = 0).
  { unfold cursor_zoom, getZoomLevel. apply py_int_of_Z; [lia|].
    rewrite Hz. change (inject_Z 0) with 0%Q. field. }
  assert (Hnh : cursor_newHeight W H inp = 0).
  { unfold cursor_newHeight. rewrite Hzoom. reflexivity. }
  assert (Hnw : cursor_newWidth W H inp = 0).
  { unfold cursor_newWidth. rewrite Hzoom, Z.mul_0_l.
    apply py_int_of_Z; [lia|].
    change (inject_Z 0) with 0%Q. field. assumption. }
  unfold cursor_region. simpl. rewrite Hnh, Hnw. lia.
Qed.

(** X7.  With the zoom knob at 0 V, a cursor move followed by [ZoomIn]
    collapses the viewport to a single point: [ZoomIn] completes, and
    afterwards [realEnd] equals [realStart] and [imEnd] equals
    [imStart]. *)
Theorem ZoomIn_at_zero_zoom_collapses {D : DisplayDriver} (W H : Z)
  (inp inpA : inputs) (s s1 : globals) :
  0 < W -> 0 < H -> (mZoomPot inp == 0)%Q ->
  nextSensorRead s <= ticks_ms inp ->
  MoveCursor W H inp s = Some s1 ->
  buttonZoomIn inpA = true ->
  exists s2,
    ZoomIn W H inpA s1 = Some (true, s2)
    /\ (realEnd (view s2) == realStart (view s2))%Q
    /\ (imEnd (view s2) == imStart (view s2))%Q.
Proof.
  intros HW HH Hz Hdue Hmove Hpressed.
  assert (Hcur : cur s1 = cursor_region W H inp).
  { unfold MoveCursor in Hmove.
    assert (Hgate : (ticks_ms inp >=? nextSensorRead s) = true)
      by (apply Z.geb_le; assumption).
    rewrite Hgate in Hmove. case_bool_decide.
    - destruct (restore_previous W s) as [b|]; [|discriminate].
      rewrite bind_Some in Hmove.
      destruct (save_outline W (cursor_region W H inp) b (pix_of s))
        as [pix|]; [|discriminate].
      rewrite bind_Some in Hmove. now injection Hmove as <-.
    - now injection Hmove as <-. }
  assert (Hbound : cursor_bound s1)
    by (apply (MoveCursor_binds W H inp s s1 Hmove); now right).
  destruct (cursor_region_zero_zoom W H inp HW HH Hz) as [Hlr Htb].
  apply inject_Z_nonzero in HW, HH.
  rewrite (ZoomIn_bound W H inpA s1 Hpressed Hbound). eexists.
  split; [reflexivity|]. cbn [with_view view].
  unfold zoom_in_view. cbn [realStart realEnd imStart imEnd].
  rewrite Hcur, <- Hlr, <- Htb, !Z.sub_diag.
  change (inject_Z 0) with 0%Q. split; field; assumption.
Qed.

Lemma ZoomIn_at_zero_zoom_collapses_witness :
  let inp := idle_inputs 0 (165 # 100) (165 # 100) 0 in
  let s1 := default test_globals (@MoveCursor axis_display 8 8 inp test_globals) in
  exists s2,
    ZoomIn 8 8 (press_A inp) s1 = Some (true, s2)
    /\ (realEnd (view s2) == realStart (view s2))%Q
    /\ (imEnd (view s2) == imStart (view s2))%Q.
Proof.
  apply (@ZoomIn_at_zero_zoom_collapses axis_display 8 8
           (idle_inputs 0 (165 # 100) (165 # 100) 0)
           (press_A (idle_inputs 0 (165 # 100) (165 # 100) 0))
           test_globals).
  - lia.
  - lia.
  - reflexivity.
  - simpl. lia.
  - vm_compute. reflexivity.
  - reflexivity.
Defined.

(** ** The overlay never damages the picture *)

Lemma setitem_inv {A} (a a' : list A) (i : Z) (v : A) :
  setitem a i v = Some a' ->
  exists k, py_index (length a) i = Some k /\ a' = <[k := v]> a.
Proof.
  unfold setitem. destruct (py_index (length a) i) as [k|]; [|discriminate].
  simpl. intros [= <-]. eauto.
Qed.

(** The loop rule for what holds if the loop completes, with the
    subscript known to be one of the loop's. *)
Lemma for_each_preserves_in {S} (body : Z -> S -> option S) (P : S -> Prop)
  (idxs : list Z) (s s' : S) :
  (forall i s s', i ∈ idxs -> body i s = Some s' -> P s -> P s') ->
  for_each body idxs s = Some s' -> P s -> P s'.
Proof.
  revert s. induction idxs as [|i idxs IH]; intros s Hstep Hrun Hs.
  - simpl in Hrun. now injection Hrun as <-.
  - simpl in Hrun. destruct (body i s) as [s1|] eqn:Hbody; [|discriminate].
    rewrite bind_Some in Hrun. apply (IH s1); [|assumption|].
    + intros j t t' Hj. apply Hstep. apply elem_of_cons. now right.
    + apply (Hstep i s s1); [apply elem_of_cons; now left|assumption..].
Qed.

(** Writing back a saved value leaves every place holding what [b0] has
    there or what the buffer had before the restore step. *)
Lemma restoring_write_either (b0 d b b' : list Byte.byte) (sub_i : Z)
  (v : Byte.byte) :
  getitem b0 sub_i = Some v -> setitem b sub_i v = Some b' ->
  (length b = length b0
   /\ forall k, b !! k = b0 !! k \/ b !! k = d !! k) ->
  length b' = length b0
  /\ forall k, b' !! k = b0 !! k \/ b' !! k = d !! k.
Proof.
  intros Hread Hwrite [Hlen Hagree].
  apply setitem_inv in Hwrite as (k1 & Hk1 & ->).
  split; [now rewrite length_insert|].
  unfold getitem in Hread. rewrite <- Hlen, Hk1 in Hread. simpl in Hread.
  intros k. destruct (decide (k = k1)) as [->|Hne].
  - left. rewrite list_lookup_insert_eq; [now rewrite Hread|].
    apply py_index_lt in Hk1. lia.
  - rewrite list_lookup_insert_ne by auto. apply Hagree.
Qed.

Section OverlayFacts.
Context `{DisplayDriver}.
Variables (WIDTH HEIGHT : Z).
Hypotheses (HW : 0 < WIDTH) (HH : 0 < HEIGHT).

Lemma restore_outline_either (r : region) (b0 buf buf' : list Byte.byte)
  (pix : edges) :
  saved_outline WIDTH r b0 pix -> length buf = length b0 ->
  restore_outline WIDTH r pix buf = Some buf' ->
  forall k, buf' !! k = b0 !! k \/ buf' !! k = buf !! k.
Proof.
  intros [Hrows Hcols] Hlen Hrun. unfold restore_outline in Hrun.
  match type of Hrun with context [for_each ?body ?idxs buf] =>
    destruct (for_each body idxs buf) as [buf1|] eqn:Hloop1; [|discriminate]
  end.
  rewrite bind_Some in Hrun.
  assert (Hmid : length buf1 = length b0
                 /\ forall k, buf1 !! k = b0 !! k \/ buf1 !! k = buf !! k).
  { eapply (for_each_preserves_in _
      (fun b => length b = length b0
                /\ forall k, b !! k = b0 !! k \/ b !! k = buf !! k));
      [|exact Hloop1|split; [assumption|now right]].
    intros i b b' Hi Hbody Hb. apply elem_of_py_range in Hi.
    destruct (Hrows i) as ((v1 & Hp1 & Hr1) & (v2 & Hp2 & Hr2)); [lia|].
    cbv beta in Hbody. rewrite Hp1, bind_Some in Hbody.
    match type of Hbody with context [setitem b ?sub v1] =>
      destruct (setitem b sub v1) as [b1|] eqn:Hw1; [|discriminate]
    end.
    rewrite bind_Some, Hp2, bind_Some in Hbody.
    eapply restoring_write_either; [exact Hr2|exact Hbody|].
    eapply restoring_write_either; [exact Hr1|exact Hw1|exact Hb]. }
  assert (Hend : length buf' = length b0
                 /\ forall k, buf' !! k = b0 !! k \/ buf' !! k = buf !! k).
  { eapply (for_each_preserves_in _
      (fun b => length b = length b0
                /\ forall k, b !! k = b0 !! k \/ b !! k = buf !! k));
      [|exact Hrun|exact Hmid].
    intros i b b' Hi Hbody Hb. apply elem_of_py_range in Hi.
    destruct (Hcols i) as ((v1 & Hp1 & Hr1) & (v2 & Hp2 & Hr2)); [lia|].
    cbv beta in Hbody. rewrite Hp1, bind_Some in Hbody.
    match type of Hbody with context [setitem b ?sub v1] =>
      destruct (setitem b sub v1) as [b1|] eqn:Hw1; [|discriminate]
    end.
    rewrite bind_Some, Hp2, bind_Some in Hbody.
    eapply restoring_write_either; [exact Hr2|exact Hbody|].
    eapply restoring_write_either; [exact Hr1|exact Hw1|exact Hb]. }
  apply Hend.
Qed.

(** Restoring an outline right after it was drawn gives back the picture
    it was drawn on, byte for byte. *)
Lemma restore_after_draw (r : region) (b0 : list Byte.byte) (pix : edges) :
  region_on_surface WIDTH HEIGHT r -> buffer_ok WIDTH HEIGHT b0 ->
  saved_outline WIDTH r b0 pix ->
  restore_outline WIDTH r pix (draw_outline WIDTH HEIGHT r b0) = Some b0.
Proof.
  intros Hr Hb0 Hsaved.
  assert (Hdrawn : buffer_ok WIDTH HEIGHT (draw_outline WIDTH HEIGHT r b0)).
  { unfold buffer_ok. rewrite draw_outline_length. exact Hb0. }
  destruct (restore_outline_ok WIDTH HEIGHT r b0 _ pix Hb0 Hdrawn Hsaved)
    as (buf' & Hrun & Hok' & Hplaces).
  rewrite Hrun. f_equal. apply list_eq. intros k.
  destruct (restore_outline_either r b0 _ buf' pix Hsaved
              (draw_outline_length WIDTH HEIGHT r b0) Hrun k) as [Hk|Hk];
    [exact Hk|].
  set (x := Z.of_nat k `mod` WIDTH). set (y := Z.of_nat k `div` WIDTH).
  assert (Hxy : Z.of_nat k = x + y * WIDTH).
  { unfold x, y. pose proof (Z.div_mod (Z.of_nat k) WIDTH). lia. }
  assert (Hx : 0 <= x < WIDTH) by (apply Z.mod_pos_bound; assumption).
  destruct (decide (left r <= x <= right r /\ top r <= y <= bottom r
                    /\ (x = left r \/ x = right r \/ y = top r \/ y = bottom r)))
    as [Hon|Hoff].
  - apply Hplaces. replace k with (pixel WIDTH x y)
      by (unfold pixel; rewrite <- Hxy; apply Nat2Z.id).
    eapply border_is_restored; eauto.
  - rewrite Hk. destruct Hr as (Hl & Hrw & Ht & Hb).
    apply draw_outline_frame; [lia|lia|].
    intros x' y' Hon' Hx' Hy' Heq. rewrite Hxy in Heq.
    apply pixel_inj in Heq as [-> ->]; [|assumption..].
    apply Hoff. exact Hon'.
Qed.

Lemma overlay_inv_frame (picture : list Byte.byte) (s s' : globals) :
  buffer s' = buffer s -> pix_of s' = pix_of s -> prev s' = prev s ->
  overlay_inv WIDTH HEIGHT picture s -> overlay_inv WIDTH HEIGHT picture s'.
Proof. unfold overlay_inv. intros -> -> ->. auto. Qed.

Lemma ButtonPressed_keeps_overlay (picture : list Byte.byte) (inp : inputs)
  (s s1 : globals) (pressed : bool) :
  ButtonPressed WIDTH HEIGHT inp s = Some (pressed, s1) ->
  overlay_inv WIDTH HEIGHT picture s ->
  overlay_inv WIDTH HEIGHT picture s1
  /\ (cursor_bound s -> cursor_bound s1).
Proof.
  intros Hrun Hinv.
  destruct (ButtonPressed_frame _ _ _ _ _ _ Hrun)
    as (Hb & Hp & Hpr & _ & _ & Hz & Hnw & Hnh).
  split; [now apply (overlay_inv_frame picture s)|].
  unfold cursor_bound. now rewrite Hz, Hnw, Hnh.
Qed.

(** One call of [MoveCursor] keeps the invariant and does not raise. *)
Lemma MoveCursor_keeps_overlay (picture : list Byte.byte) (inp : inputs)
  (s : globals) :
  overlay_inv WIDTH HEIGHT picture s -> cursor_shown WIDTH HEIGHT inp ->
  exists s', MoveCursor WIDTH HEIGHT inp s = Some s'
             /\ overlay_inv WIDTH HEIGHT picture s'.
Proof.
  intros Hinv [Hr Hshown]. pose proof Hinv as (Hpic & Hpix & Hstate).
  destruct (decide (nextSensorRead s <= ticks_ms inp)) as [Hdue|Hearly].
  2:{ exists s. split; [|assumption].
      unfold MoveCursor.
      assert (Hgate : (ticks_ms inp >=? nextSensorRead s) = false)
        by (rewrite Z.geb_leb; apply Z.leb_gt; lia).
      now rewrite Hgate. }
  set (r := cursor_region WIDTH HEIGHT inp) in *.
  destruct (decide (left (prev s) <> left r \/ right (prev s) <> right r
                    \/ top (prev s) <> top r \/ bottom (prev s) <> bottom r))
    as [Hmoved|Hsame].
  2:{ unfold MoveCursor.
      assert (Hgate : (ticks_ms inp >=? nextSensorRead s) = true)
        by (apply Z.geb_le; assumption).
      rewrite Hgate. fold r. rewrite bool_decide_eq_false_2 by assumption.
      eexists. split; [reflexivity|].
      eapply overlay_inv_frame; [..|exact Hinv]; reflexivity. }
  apply region_changed in Hmoved.
  assert (Hmoved' : r <> prev s) by congruence. unfold r in Hmoved'.
  rewrite MoveCursor_moved by assumption. fold r.
  assert (Hrestore : restore_previous WIDTH s = Some picture).
  { unfold restore_previous.
    destruct Hstate as [[-> ->]|(-> & Hprev & Hsaved & ->)]; [reflexivity|].
    now apply restore_after_draw. }
  rewrite Hrestore, bind_Some.
  destruct (save_outline_ok WIDTH HEIGHT _ HW HH Hr picture (pix_of s) Hpic Hpix)
    as (pix1 & -> & Hpix1 & Hsaved1).
  rewrite bind_Some. eexists. split; [reflexivity|].
  assert (Hpix_eq : Edges (e_top pix1) (e_bottom pix1) (e_left pix1) (e_right pix1)
                    = pix1) by (destruct pix1; reflexivity).
  unfold overlay_inv, pix_of. cbn [buffer top_pix bottom_pix left_pix right_pix prev].
  rewrite Hpix_eq. split; [assumption|]. split; [assumption|].
  right. auto.
Qed.
(** With the cursor names bound, the tracking loop keeps the invariant
    and never raises. *)
Lemma track_keeps_overlay_bound (picture : list Byte.byte)
  (readings : list inputs) (s : globals) :
  overlay_inv WIDTH HEIGHT picture s -> cursor_bound s ->
  Forall (cursor_shown WIDTH HEIGHT) readings ->
  exists pressed s',
    track WIDTH HEIGHT readings s = Some (pressed, s')
    /\ overlay_inv WIDTH HEIGHT picture s' /\ cursor_bound s'.
Proof.
  intros Hinv Hbound Hall. revert s Hinv Hbound.
  induction Hall as [|inp rest Hshown _ IH]; intros s Hinv Hbound.
  - exists false, s. auto.
  - rewrite track_step.
    destruct (ButtonPressed_returns WIDTH HEIGHT inp s (or_introl Hbound))
      as (pressed & s1 & Hrun). rewrite Hrun.
    destruct (ButtonPressed_keeps_overlay picture inp s s1 pressed Hrun Hinv)
      as [Hinv1 Hbound1]. specialize (Hbound1 Hbound).
    destruct pressed.
    + eexists _, _. split; [reflexivity|]. auto.
    + destruct (MoveCursor_keeps_overlay picture inp _ Hinv1 Hshown)
        as (s2 & Hmove & Hinv2).
      rewrite Hmove, bind_Some. apply IH; [assumption|].
      apply (MoveCursor_binds WIDTH HEIGHT inp s1 s2 Hmove). now left.
Qed.

(** The tracking loop keeps the invariant and never raises, also when the
    cursor names are bound by its first pass only. *)
Lemma track_keeps_overlay (picture : list Byte.byte) (readings : list inputs)
  (s : globals) :
  overlay_inv WIDTH HEIGHT picture s ->
  zoom_ready s readings ->
  Forall (cursor_shown WIDTH HEIGHT) readings ->
  exists pressed s',
    track WIDTH HEIGHT readings s = Some (pressed, s')
    /\ overlay_inv WIDTH HEIGHT picture s'
    /\ (pressed = true -> cursor_bound s').
Proof.
  intros Hinv [Hbound|Hfirst] Hall.
  - destruct (track_keeps_overlay_bound picture readings s Hinv Hbound Hall)
      as (pressed & s' & Hrun & Hinv' & Hbound').
    exists pressed, s'. auto.
  - destruct Hall as [|inp rest Hshown Hall].
    + exists false, s. split; [reflexivity|]. split; [assumption|discriminate].
    + destruct Hfirst as [Hidle Hdue].
      rewrite track_step, (ButtonPressed_idle WIDTH HEIGHT inp s Hidle).
      destruct (MoveCursor_keeps_overlay picture inp _ Hinv Hshown)
        as (s2 & Hmove & Hinv2).
      rewrite Hmove, bind_Some.
      assert (Hbound2 : cursor_bound s2)
        by (apply (MoveCursor_binds WIDTH HEIGHT inp s s2 Hmove); now right).
      destruct (track_keeps_overlay_bound picture rest s2 Hinv2 Hbound2 Hall)
        as (pressed & s' & Hrun & Hinv' & Hbound').
      exists pressed, s'. auto.
Qed.

(** Under the invariant the frame buffer differs from the picture on the
    last outline only. *)
Lemma overlay_inv_picture (picture : list Byte.byte) (s : globals) :
  overlay_inv WIDTH HEIGHT picture s ->
  (buffer s = picture
   \/ buffer s = draw_outline WIDTH HEIGHT (prev s) picture)
  /\ forall k : nat,
       (forall x y, on_border (prev s) x y ->
                    0 <= x < WIDTH -> 0 <= y < HEIGHT ->
                    Z.of_nat k <> x + y * WIDTH) ->
       buffer s !! k = picture !! k.
Proof.
  intros (_ & _ & [[_ Hbuf]|(_ & Hprev & _ & Hbuf)]).
  - split; [now left|]. intros k _. now rewrite Hbuf.
  - split; [now right|]. intros k Hoff. rewrite Hbuf.
    destruct Hprev as (Hl & _ & Ht & _).
    apply draw_outline_frame; [lia|lia|assumption].
Qed.
End OverlayFacts.

(** X8.  The overlay never damages the picture.  Start with a frame
    buffer that is [picture], or [picture] with the previous outline on
    it ([overlay_inv]); let every reading of the knobs give a rectangle on
    the surface that is not the sentinel; and let the cursor names that
    [ZoomIn] prints be bound, or the first poll find no button down and
    [MoveCursor] due ([zoom_ready]).  Then the tracking loop never
    raises, however often the cursor moves, and when it stops the frame
    buffer is again [picture] or [picture] with just the last outline
    drawn on it: every place that is not a pixel of that outline holds the
    byte of [picture]. *)
Theorem track_keeps_picture {D : DisplayDriver} (W H : Z)
  (picture : list Byte.byte) (readings : list inputs) (s : globals) :
  0 < W -> 0 < H ->
  overlay_inv W H picture s ->
  zoom_ready s readings ->
  Forall (cursor_shown W H) readings ->
  exists pressed s',
    track W H readings s = Some (pressed, s')
    /\ overlay_inv W H picture s'
    /\ (buffer s' = picture \/ buffer s' = draw_outline W H (prev s') picture)
    /\ forall k : nat,
         (forall x y, on_border (prev s') x y -> 0 <= x < W -> 0 <= y < H ->
                      Z.of_nat k <> x + y * W) ->
         buffer s' !! k = picture !! k.
Proof.
  intros HW HH Hinv Hready Hall.
  destruct (track_keeps_overlay W H HW HH picture readings s Hinv Hready Hall)
    as (pressed & s' & Hrun & Hinv' & _).
  exists pressed, s'. split; [assumption|]. split; [assumption|].
  now apply overlay_inv_picture.
Qed.

Lemma cursor_shown_1313 (now : Z) : cursor_shown 8 8 (knobs_1313 now).
Proof.
  unfold cursor_shown. rewrite cursor_region_1313.
  split; [unfold region_on_surface; simpl; lia|reflexivity].
Qed.

Lemma cursor_shown_5757 (now : Z) : cursor_shown 8 8 (knobs_5757 now).
Proof.
  unfold cursor_shown. rewrite cursor_region_5757.
  split; [unfold region_on_surface; simpl; lia|reflexivity].
Qed.

Lemma track_keeps_picture_witness :
  let readings := [knobs_1313 0; knobs_5757 200; knobs_1313 400] in
  exists pressed s',
    @track axis_display 8 8 readings test_globals = Some (pressed, s')
    /\ @overlay_inv axis_display 8 8 test_surface s'
    /\ (buffer s' = test_surface
        \/ buffer s' = @draw_outline axis_display 8 8 (prev s') test_surface)
    /\ forall k : nat,
         (forall x y, on_border (prev s') x y -> 0 <= x < 8 -> 0 <= y < 8 ->
                      Z.of_nat k <> x + y * 8) ->
         buffer s' !! k = test_surface !! k.
Proof.
  apply (@track_keeps_picture axis_display 8 8 test_surface
           [knobs_1313 0; knobs_5757 200; knobs_1313 400] test_globals).
  - lia.
  - lia.
  - split; [reflexivity|]. split; [repeat split|]. left. split; reflexivity.
  - right. split; [repeat split|simpl; lia].
  - apply Forall_cons. split; [apply cursor_shown_1313|].
    apply Forall_cons. split; [apply cursor_shown_5757|].
    apply Forall_cons. split; [apply cursor_shown_1313|].
    apply Forall_nil_2.
Defined.

(** ** The render pass, pixel by pixel *)

Lemma elem_of_py_range2 (W x : Z) :
  x ∈ py_range2 W <-> 0 <= x < W /\ x `mod` 2 = 0.
Proof.
  unfold py_range2. rewrite list_elem_of_fmap. split.
  - intros (k & -> & Hk). apply elem_of_seqZ in Hk.
    split; [|rewrite Z.mul_comm; apply Z.mod_mul; lia].
    pose proof (Z.div_mod (W + 1) 2). pose proof (Z.mod_pos_bound (W + 1) 2).
    lia.
  - intros [Hx Heven]. exists (x `div` 2).
    pose proof (Z.div_mod x 2). split; [lia|]. apply elem_of_seqZ.
    pose proof (Z.div_mod (W + 1) 2). pose proof (Z.mod_pos_bound (W + 1) 2).
    lia.
Qed.

Lemma NoDup_py_range2 (W : Z) : NoDup (py_range2 W).
Proof.
  unfold py_range2. apply NoDup_fmap_2_strong; [|apply NoDup_seqZ].
  intros a b _ _ Hab. lia.
Qed.

Lemma column_plots_snoc (colour : Z -> option Z) (x : Z) (ys : list Z) (y : Z) :
  column_plots colour x (ys ++ [y])
  = column_plots colour x ys ++ pixel_plot colour x y.
Proof.
  unfold column_plots. rewrite bind_app, bind_singleton. reflexivity.
Qed.

Lemma column_plots_ext (f g : Z -> option Z) (x : Z) (ys : list Z) :
  (forall y, y ∈ ys -> f y = g y) ->
  column_plots f x ys = column_plots g x ys.
Proof.
  unfold column_plots. induction ys as [|y ys IH]; intros Hfg; [reflexivity|].
  rewrite !bind_cons. f_equal.
  - unfold pixel_plot. rewrite (Hfg y); [reflexivity|]. apply elem_of_cons. now left.
  - apply IH. intros y' Hy'. apply Hfg. apply elem_of_cons. now right.
Qed.

Section PassFacts.
Context {C : Type} `{ComplexArith C}.
Variables (WIDTH HEIGHT : Z) (MAX_ITER : Q) (view : viewport).

(** What [mandelbrotThreadX] leaves in [results]. *)
Lemma mandelbrotThreadX_fills (x : Z) (results : list Z) :
  Z.of_nat (length results) = HEIGHT ->
  exists results',
    mandelbrotThreadX WIDTH HEIGHT MAX_ITER view x results = Some results'
    /\ Z.of_nat (length results') = HEIGHT
    /\ forall y, 0 <= y < HEIGHT ->
         getitem results' y = thread_colour WIDTH HEIGHT MAX_ITER view x y.
Proof.
  intros Hlen. unfold mandelbrotThreadX.
  match goal with |- context [for_each ?body (py_range HEIGHT) results] =>
    destruct (for_each_prefix_inv body
      (fun done res => Z.of_nat (length res) = HEIGHT
         /\ forall y, y ∈ done ->
              getitem res y = thread_colour WIDTH HEIGHT MAX_ITER view x y)
      (py_range HEIGHT) results) as (res' & Hrun & Hlen' & Hfilled)
  end.
  - split; [assumption|]. intros y Hy. inversion Hy.
  - intros done y rest res Hsplit (Hl & Hdone).
    apply py_range_split in Hsplit as (Hy & Hfresh & Hin).
    rewrite setitem_in_range by lia. rewrite bind_Some.
    destruct (thread_colour_returns WIDTH HEIGHT MAX_ITER view x y)
      as (c & Hc & _).
    rewrite Hc, bind_Some.
    rewrite setitem_in_range by (rewrite length_insert; lia).
    eexists. split; [reflexivity|]. split; [now rewrite !length_insert|].
    intros y' [Hy'| ->%list_elem_of_singleton]%elem_of_app.
    + specialize (Hin y' Hy').
      assert (y <> y') by (intros ->; contradiction).
      rewrite !getitem_insert_ne by lia. now apply Hdone.
    + rewrite getitem_insert_eq by (rewrite length_insert; lia).
      now rewrite Hc.
  - exists res'. split; [assumption|]. split; [assumption|].
    intros y Hy. apply Hfilled. now apply elem_of_py_range.
Qed.

Lemma pixel_plot_of_colour (colour : Z -> option Z) (x y c : Z) :
  colour y = Some c -> 0 <= c <= 14 ->
  (c <> 0 -> exists op, plot x y c = Some op /\ pixel_plot colour x y = [op])
  /\ (c = 0 -> pixel_plot colour x y = []).
Proof.
  intros Hc Hrange. unfold pixel_plot, plot. rewrite Hc. split.
  - intros Hnz. rewrite bool_decide_eq_true_2 by assumption.
    rewrite getitem_in_range by (simpl; lia).
    destruct (pen_colour !! Z.to_nat c) as [pen|] eqn:Hpen.
    + rewrite bind_Some. eauto.
    + apply lookup_ge_None in Hpen. simpl in Hpen. lia.
  - intros ->. reflexivity.
Qed.

Lemma main_column_trace (x1 : Z) (trace : list display_op) :
  main_column WIDTH HEIGHT MAX_ITER view x1 trace
  = Some (trace ++ column_plots (main_colour WIDTH HEIGHT MAX_ITER view x1) x1
                     (py_range HEIGHT)).
Proof.
  unfold main_column.
  match goal with |- for_each ?body _ _ = _ =>
    destruct (for_each_prefix_inv body
      (fun done t => t = trace ++ column_plots
                          (main_colour WIDTH HEIGHT MAX_ITER view x1) x1 done)
      (py_range HEIGHT) trace) as (t & -> & ->)
  end; [now rewrite app_nil_r| |reflexivity].
  intros done y rest t _ ->.
  destruct (main_colour_returns WIDTH HEIGHT MAX_ITER view x1 y) as (c & Hc & Hr).
  rewrite MAX_COLOURS_value in Hr.
  destruct (pixel_plot_of_colour _ x1 y c Hc) as [Hplot Hskip]; [lia|].
  rewrite Hc, bind_Some, column_plots_snoc. case_bool_decide as Hpos.
  - destruct Hplot as (op & -> & ->); [lia|]. rewrite bind_Some.
    eexists. split; [reflexivity|]. now rewrite app_assoc.
  - rewrite Hskip by lia. eexists. split; [reflexivity|].
    now rewrite app_nil_r.
Qed.

Lemma plot_results_trace (x : Z) (results : list Z) (trace : list display_op) :
  (forall y, 0 <= y < HEIGHT ->
     getitem results y = thread_colour WIDTH HEIGHT MAX_ITER view x y) ->
  plot_results HEIGHT x results trace
  = Some (trace ++ column_plots (thread_colour WIDTH HEIGHT MAX_ITER view x) x
                     (py_range HEIGHT)).
Proof.
  intros Hfilled. unfold plot_results.
  match goal with |- for_each ?body _ _ = _ =>
    destruct (for_each_prefix_inv body
      (fun done t => t = trace ++ column_plots
                          (thread_colour WIDTH HEIGHT MAX_ITER view x) x done)
      (py_range HEIGHT) trace) as (t & -> & ->)
  end; [now rewrite app_nil_r| |reflexivity].
  intros done y rest t Hsplit ->.
  apply py_range_split in Hsplit as (Hy & _ & _).
  destruct (thread_colour_returns WIDTH HEIGHT MAX_ITER view x y) as (c & Hc & Hr).
  destruct (pixel_plot_of_colour _ x y c Hc Hr) as [Hplot Hskip].
  rewrite (Hfilled y Hy), Hc, bind_Some, column_plots_snoc.
  case_bool_decide as Hnz.
  - destruct Hplot as (op & -> & ->); [assumption|]. rewrite bind_Some.
    eexists. split; [reflexivity|]. now rewrite app_assoc.
  - rewrite Hskip by lia. eexists. split; [reflexivity|].
    now rewrite app_nil_r.
Qed.

Lemma draw_pair_trace (x : Z) (results : list Z) (trace : list display_op) :
  x `mod` 2 = 0 -> Z.of_nat (length results) = HEIGHT ->
  exists results',
    draw_pair WIDTH HEIGHT MAX_ITER view x (results, trace)
      = Some (results', trace ++ pair_trace WIDTH HEIGHT MAX_ITER view x)
    /\ Z.of_nat (length results') = HEIGHT
    /\ forall y, 0 <= y < HEIGHT ->
         getitem results' y = thread_colour WIDTH HEIGHT MAX_ITER view x y.
Proof.
  intros Heven Hlen. unfold draw_pair.
  destruct (mandelbrotThreadX_fills x results Hlen) as (res' & -> & Hlen' & Hfilled).
  rewrite bind_Some, main_column_trace, bind_Some.
  rewrite (plot_results_trace x res' _ Hfilled), bind_Some.
  rewrite bool_decide_eq_true_2 by assumption.
  exists res'. split; [|split; assumption]. unfold pair_trace.
  now rewrite <- !app_assoc.
Qed.
End PassFacts.

(** X9.  [mandelbrotThreadX] overwrites every row of the shared [results]
    list: whatever the list held before, as long as it has [HEIGHT]
    entries, the call completes and entry [y] is then the colour of pixel
    [(x, y)], for every row [y]. *)
Theorem mandelbrotThreadX_overwrites_every_row {C} `{ComplexArith C}
  (WIDTH HEIGHT : Z) (MAX_ITER : Q) (view : viewport) (x : Z)
  (results : list Z) :
  Z.of_nat (length results) = HEIGHT ->
  exists results',
    mandelbrotThreadX WIDTH HEIGHT MAX_ITER view x results = Some results'
    /\ Z.of_nat (length results') = HEIGHT
    /\ forall y, 0 <= y < HEIGHT ->
         exists c, thread_colour WIDTH HEIGHT MAX_ITER view x y = Some c
                   /\ results' !! Z.to_nat y = Some c /\ 0 <= c <= 14.
Proof.
  intros Hlen.
  destruct (mandelbrotThreadX_fills WIDTH HEIGHT MAX_ITER view x results Hlen)
    as (res' & Hrun & Hlen' & Hfilled).
  exists res'. split; [assumption|]. split; [assumption|].
  intros y Hy.
  destruct (thread_colour_returns WIDTH HEIGHT MAX_ITER view x y) as (c & Hc & Hr).
  exists c. split; [assumption|]. split; [|assumption].
  rewrite <- Hc, <- (Hfilled y Hy). symmetry. apply getitem_in_range. lia.
Qed.

Lemma mandelbrotThreadX_overwrites_every_row_witness :
  exists results',
    mandelbrotThreadX (C:=qcomplex) 4 2 3 (Viewport (-2) 2 (-2) 2) 0 [7; 7]
      = Some results'
    /\ Z.of_nat (length results') = 2
    /\ forall y, 0 <= y < 2 ->
         exists c, thread_colour (C:=qcomplex) 4 2 3 (Viewport (-2) 2 (-2) 2) 0 y
                   = Some c
                   /\ results' !! Z.to_nat y = Some c /\ 0 <= c <= 14.
Proof.
  apply (mandelbrotThreadX_overwrites_every_row (C:=qcomplex) 4 2 3
           (Viewport (-2) 2 (-2) 2) 0 [7; 7]).
  reflexivity.
Defined.

(** The display requests of a render pass, in order: for every column
    pair the plots of the coordinator's column [x+1] from the top row
    down, then those of the thread's column [x], then a flush; and a last
    flush.  The pass completes for every [results] list of [HEIGHT]
    entries. *)
Lemma DrawMandelbrotX_pass_trace {C} `{ComplexArith C}
  (WIDTH HEIGHT : Z) (MAX_ITER : Q) (view : viewport) (results : list Z) :
  Z.of_nat (length results) = HEIGHT ->
  exists results',
    DrawMandelbrotX WIDTH HEIGHT MAX_ITER view results
      = Some (results', pass_trace WIDTH HEIGHT MAX_ITER view)
    /\ Z.of_nat (length results') = HEIGHT
    /\ forall x, last (py_range2 WIDTH) = Some x ->
         forall y, 0 <= y < HEIGHT ->
           getitem results' y = thread_colour WIDTH HEIGHT MAX_ITER view x y.
Proof.
  intros Hlen. unfold DrawMandelbrotX, pass_trace.
  destruct (for_each_prefix_inv
              (draw_pair WIDTH HEIGHT MAX_ITER view)
              (fun done st =>
                 Z.of_nat (length st.1) = HEIGHT
                 /\ st.2 = done ≫= pair_trace WIDTH HEIGHT MAX_ITER view
                 /\ forall x, last done = Some x ->
                      forall y, 0 <= y < HEIGHT ->
                        getitem st.1 y
                        = thread_colour WIDTH HEIGHT MAX_ITER view x y)
              (py_range2 WIDTH) (results, []))
    as ([res' trace] & -> & Hlen' & Htrace & Hlast).
  - split; [assumption|]. split; [reflexivity|]. intros x Hx. discriminate Hx.
  - intros done x rest [res t] Hsplit (Hl & Ht & _). simpl in Hl, Ht.
    assert (Heven : x `mod` 2 = 0).
    { apply (elem_of_py_range2 WIDTH). rewrite Hsplit.
      apply elem_of_app. right. apply elem_of_cons. now left. }
    destruct (draw_pair_trace WIDTH HEIGHT MAX_ITER view x res t Heven Hl)
      as (res1 & -> & Hl1 & Hfilled).
    eexists. split; [reflexivity|]. split; [assumption|]. simpl. split.
    + now rewrite Ht, bind_app, bind_singleton.
    + intros x' Hx'. rewrite last_snoc in Hx'. injection Hx' as <-.
      assumption.
  - simpl in Hlen', Htrace, Hlast. rewrite bind_Some. exists res'.
    split; [now rewrite Htrace|]. split; assumption.
Qed.

(** X10.  A render pass never raises and takes nothing from what an
    earlier pass left in the shared [results] list: started on any two
    lists of [HEIGHT] entries it makes the same display requests in the
    same order, and, when there is a column to draw, leaves the same
    list. *)
Theorem DrawMandelbrotX_ignores_stale_results {C} `{ComplexArith C}
  (WIDTH HEIGHT : Z) (MAX_ITER : Q) (view : viewport)
  (results1 results2 : list Z) :
  Z.of_nat (length results1) = HEIGHT ->
  Z.of_nat (length results2) = HEIGHT ->
  exists out1 out2 trace,
    DrawMandelbrotX WIDTH HEIGHT MAX_ITER view results1 = Some (out1, trace)
    /\ DrawMandelbrotX WIDTH HEIGHT MAX_ITER view results2 = Some (out2, trace)
    /\ (0 < WIDTH -> out1 = out2).
Proof.
  intros Hlen1 Hlen2.
  destruct (DrawMandelbrotX_pass_trace WIDTH HEIGHT MAX_ITER view results1 Hlen1)
    as (out1 & Hrun1 & Hout1 & Hlast1).
  destruct (DrawMandelbrotX_pass_trace WIDTH HEIGHT MAX_ITER view results2 Hlen2)
    as (out2 & Hrun2 & Hout2 & Hlast2).
  exists out1, out2, (pass_trace WIDTH HEIGHT MAX_ITER view).
  split; [assumption|]. split; [assumption|]. intros HW.
  destruct (last (py_range2 WIDTH)) as [x|] eqn:Hx.
  2:{ apply last_None in Hx.
      assert (Hin : 0 ∈ py_range2 WIDTH) by (apply elem_of_py_range2; split; [lia|reflexivity]).
      rewrite Hx in Hin. inversion Hin. }
  apply list_eq. intros k.
  destruct (decide (Z.of_nat k < HEIGHT)) as [Hk|Hk].
  - pose proof (Hlast1 x eq_refl (Z.of_nat k) ltac:(lia)) as H1.
    pose proof (Hlast2 x eq_refl (Z.of_nat k) ltac:(lia)) as H2.
    rewrite getitem_in_range in H1 by lia.
    rewrite getitem_in_range in H2 by lia.
    rewrite Nat2Z.id in H1, H2. congruence.
  - rewrite !lookup_ge_None_2 by lia. reflexivity.
Qed.

Lemma DrawMandelbrotX_ignores_stale_results_witness :
  exists out1 out2 trace,
    DrawMandelbrotX (C:=qcomplex) 4 2 3 (Viewport (-2) 2 (-2) 2) [7; 7]
      = Some (out1, trace)
    /\ DrawMandelbrotX (C:=qcomplex) 4 2 3 (Viewport (-2) 2 (-2) 2) [0; 3]
       = Some (out2, trace)
    /\ (0 < 4 -> out1 = out2).
Proof.
  apply (DrawMandelbrotX_ignores_stale_results (C:=qcomplex) 4 2 3
           (Viewport (-2) 2 (-2) 2) [7; 7] [0; 3]); reflexivity.
Defined.

Lemma elem_of_pixel_plot (colour : Z -> option Z) (x y : Z) (op : display_op) :
  op ∈ pixel_plot colour x y <->
  exists c pen, colour y = Some c /\ c <> 0
                /\ getitem pen_colour c = Some pen /\ op = Plot x y c pen.
Proof.
  unfold pixel_plot. split.
  - destruct (colour y) as [c|]; [|inversion 1].
    case_bool_decide; [|inversion 1].
    destruct (getitem pen_colour c) as [pen|] eqn:Hpen; [|inversion 1].
    intros ->%list_elem_of_singleton. exists c, pen. auto.
  - intros (c & pen & -> & Hnz & -> & ->).
    rewrite bool_decide_eq_true_2 by assumption. apply list_elem_of_singleton.
    reflexivity.
Qed.

Lemma elem_of_column_plots (colour : Z -> option Z) (x : Z) (ys : list Z)
  (op : display_op) :
  op ∈ column_plots colour x ys <->
  exists y c pen, y ∈ ys /\ colour y = Some c /\ c <> 0
                  /\ getitem pen_colour c = Some pen /\ op = Plot x y c pen.
Proof.
  unfold column_plots. rewrite list_elem_of_bind. split.
  - intros (y & (c & pen & Hc)%elem_of_pixel_plot & Hy). exists y, c, pen. tauto.
  - intros (y & c & pen & Hy & Hc). exists y. split; [|assumption].
    apply elem_of_pixel_plot. eauto.
Qed.

(** The plots among the display requests of a pass. *)
Lemma elem_of_pass_trace {C} `{ComplexArith C}
  (WIDTH HEIGHT : Z) (MAX_ITER : Q) (view : viewport) (x y i : Z) (pen : rgb) :
  Plot x y i pen ∈ pass_trace WIDTH HEIGHT MAX_ITER view <->
  0 <= y < HEIGHT /\ i <> 0 /\ getitem pen_colour i = Some pen
  /\ ((0 <= x < WIDTH /\ x `mod` 2 = 0
       /\ thread_colour WIDTH HEIGHT MAX_ITER view x y = Some i)
      \/ (0 <= x - 1 < WIDTH /\ (x - 1) `mod` 2 = 0
          /\ main_colour WIDTH HEIGHT MAX_ITER view x y = Some i)).
Proof.
  unfold pass_trace. rewrite elem_of_app, list_elem_of_bind. split.
  - intros [(x0 & Hin & Hx0)|Hin]; [|apply list_elem_of_singleton in Hin; discriminate].
    apply elem_of_py_range2 in Hx0 as [Hx0 Heven].
    unfold pair_trace in Hin. rewrite !elem_of_app in Hin.
    destruct Hin as [Hin|[Hin|Hin]];
      [| |apply list_elem_of_singleton in Hin; discriminate];
      apply elem_of_column_plots in Hin
        as (y' & c & pen' & Hy' & Hc & Hnz & Hpen & [= -> -> -> ->]);
      apply elem_of_py_range in Hy'.
    + repeat split; try assumption; try lia. right.
      replace (x0 + 1 - 1) with x0 by lia. auto.
    + repeat split; try assumption; try lia. left. auto.
  - intros (Hy & Hnz & Hpen & [(Hx & Heven & Hc)|(Hx & Heven & Hc)]).
    + left. exists x. split; [|now apply elem_of_py_range2].
      unfold pair_trace. rewrite !elem_of_app. right. left.
      apply elem_of_column_plots. exists y, i, pen.
      rewrite elem_of_py_range. auto.
    + left. exists (x - 1). split; [|now apply elem_of_py_range2].
      unfold pair_trace. rewrite !elem_of_app. left.
      replace (x - 1 + 1) with x by lia.
      apply elem_of_column_plots. exists y, i, pen.
      rewrite elem_of_py_range. auto.
Qed.

(** X11.  Which pixels a render pass plots.  [Plot x y i pen] is among the
    requests exactly when row [y] is on the surface, [i] is not 0, [pen]
    is palette entry [i], and either [x] is an even column below [WIDTH]
    and [i] is the thread's colour for the pixel, or [x - 1] is such a
    column and [i] is the coordinator's colour for the pixel.  For an even
    [WIDTH] every plotted column is on the surface. *)
Theorem DrawMandelbrotX_plots {C} `{ComplexArith C}
  (WIDTH HEIGHT : Z) (MAX_ITER : Q) (view : viewport)
  (results results' : list Z) (trace : list display_op) :
  Z.of_nat (length results) = HEIGHT ->
  DrawMandelbrotX WIDTH HEIGHT MAX_ITER view results = Some (results', trace) ->
  forall x y i pen,
    (Plot x y i pen ∈ trace <->
     0 <= y < HEIGHT /\ i <> 0 /\ getitem pen_colour i = Some pen
     /\ ((0 <= x < WIDTH /\ x `mod` 2 = 0
          /\ thread_colour WIDTH HEIGHT MAX_ITER view x y = Some i)
         \/ (0 <= x - 1 < WIDTH /\ (x - 1) `mod` 2 = 0
             /\ main_colour WIDTH HEIGHT MAX_ITER view x y = Some i)))
    /\ (Plot x y i pen ∈ trace -> WIDTH `mod` 2 = 0 -> 0 <= x < WIDTH).
Proof.
  intros Hlen Hrun x y i pen.
  destruct (DrawMandelbrotX_pass_trace WIDTH HEIGHT MAX_ITER view results Hlen)
    as (res1 & Hrun1 & _ & _).
  rewrite Hrun1 in Hrun. injection Hrun as _ <-.
  split; [apply elem_of_pass_trace|].
  intros Hin HWeven.
  apply elem_of_pass_trace in Hin as (_ & _ & _ & [(Hx & _)|(Hx & Hodd & _)]);
    [assumption|].
  pose proof (Z.div_mod WIDTH 2). pose proof (Z.div_mod (x - 1) 2). lia.
Qed.

Lemma DrawMandelbrotX_plots_witness :
  let view := Viewport (-2) 2 (-2) 2 in
  let out := default ([], [])
               (DrawMandelbrotX (C:=qcomplex) 4 2 3 view [7; 7]) in
  (Plot 1 1 3 (0, 0, 255) ∈ out.2 <->
   0 <= 1 < 2 /\ 3 <> 0 /\ getitem pen_colour 3 = Some (0, 0, 255)
   /\ ((0 <= 1 < 4 /\ 1 `mod` 2 = 0
        /\ thread_colour (C:=qcomplex) 4 2 3 view 1 1 = Some 3)
       \/ (0 <= 1 - 1 < 4 /\ (1 - 1) `mod` 2 = 0
           /\ main_colour (C:=qcomplex) 4 2 3 view 1 1 = Some 3)))
  /\ (Plot 1 1 3 (0, 0, 255) ∈ out.2 -> 4 `mod` 2 = 0 -> 0 <= 1 < 4).
Proof.
  refine (DrawMandelbrotX_plots (C:=qcomplex) 4 2 3 (Viewport (-2) 2 (-2) 2)
            [7; 7]
            (default ([], [])
               (DrawMandelbrotX (C:=qcomplex) 4 2 3 (Viewport (-2) 2 (-2) 2)
                  [7; 7])).1
            (default ([], [])
               (DrawMandelbrotX (C:=qcomplex) 4 2 3 (Viewport (-2) 2 (-2) 2)
                  [7; 7])).2
            _ _ 1 1 3 (0, 0, 255)).
  - reflexivity.
  - vm_compute. reflexivity.
Defined.

Lemma omap_bind {A B D} (f : B -> option D) (g : A -> list B) (l : list A) :
  omap f (l ≫= g) = l ≫= (fun a => omap f (g a)).
Proof.
  induction l as [|a l IH]; [reflexivity|].
  rewrite !bind_cons, omap_app, IH. reflexivity.
Qed.

Lemma pixel_plot_places (colour : Z -> option Z) (x y : Z) :
  omap plot_place (pixel_plot colour x y) = []
  \/ omap plot_place (pixel_plot colour x y) = [(x, y)].
Proof.
  unfold pixel_plot. destruct (colour y) as [c|]; [|now left].
  case_bool_decide; [|now left].
  destruct (getitem pen_colour c); [now right|now left].
Qed.

Lemma column_places (colour : Z -> option Z) (x : Z) (ys : list Z) (p : Z * Z) :
  p ∈ omap plot_place (column_plots colour x ys) -> p.1 = x /\ p.2 ∈ ys.
Proof.
  unfold column_plots. rewrite omap_bind, list_elem_of_bind.
  intros (y & Hp & Hy).
  destruct (pixel_plot_places colour x y) as [Heq|Heq]; rewrite Heq in Hp.
  - inversion Hp.
  - apply list_elem_of_singleton in Hp as ->. auto.
Qed.

Lemma column_places_NoDup (colour : Z -> option Z) (x : Z) (ys : list Z) :
  NoDup ys -> NoDup (omap plot_place (column_plots colour x ys)).
Proof.
  intros Hys. unfold column_plots. rewrite omap_bind.
  apply NoDup_bind; [| |assumption].
  - intros y1 y2 p _ _ Hp1 Hp2.
    destruct (pixel_plot_places colour x y1) as [H1|H1]; rewrite H1 in Hp1;
      [inversion Hp1|].
    destruct (pixel_plot_places colour x y2) as [H2|H2]; rewrite H2 in Hp2;
      [inversion Hp2|].
    apply list_elem_of_singleton in Hp1, Hp2. congruence.
  - intros y _. destruct (pixel_plot_places colour x y) as [-> | ->];
      [constructor|apply NoDup_singleton].
Qed.

Section PassPlaces.
Context {C : Type} `{ComplexArith C}.
Variables (WIDTH HEIGHT : Z) (MAX_ITER : Q) (view : viewport).

Lemma pair_places (x : Z) (p : Z * Z) :
  p ∈ omap plot_place (pair_trace WIDTH HEIGHT MAX_ITER view x) ->
  p.1 = x \/ p.1 = x + 1.
Proof.
  unfold pair_trace. rewrite !omap_app, !elem_of_app.
  intros [Hp|[Hp|Hp]].
  - apply column_places in Hp as [-> _]. now right.
  - apply column_places in Hp as [-> _]. now left.
  - inversion Hp.
Qed.

Lemma pair_places_NoDup (x : Z) :
  NoDup (omap plot_place (pair_trace WIDTH HEIGHT MAX_ITER view x)).
Proof.
  unfold pair_trace. rewrite !omap_app. simpl. rewrite app_nil_r.
  apply NoDup_app. split; [|split].
  - apply column_places_NoDup, NoDup_seqZ.
  - intros p Hp1 Hp2. apply column_places in Hp1 as [H1 _].
    apply column_places in Hp2 as [H2 _]. lia.
  - apply column_places_NoDup, NoDup_seqZ.
Qed.

Lemma pass_places_NoDup :
  NoDup (omap plot_place (pass_trace WIDTH HEIGHT MAX_ITER view)).
Proof.
  unfold pass_trace. rewrite omap_app. simpl. rewrite app_nil_r, omap_bind.
  apply NoDup_bind; [| |apply NoDup_py_range2].
  - intros x1 x2 p Hx1 Hx2 Hp1 Hp2.
    apply elem_of_py_range2 in Hx1 as [_ He1], Hx2 as [_ He2].
    apply pair_places in Hp1, Hp2.
    pose proof (Z.div_mod x1 2). pose proof (Z.div_mod x2 2). lia.
  - intros x _. apply pair_places_NoDup.
Qed.
End PassPlaces.

(** X12.  A render pass plots no pixel twice: the pixels of its plot
    requests, in the order of the requests, are all different. *)
Theorem DrawMandelbrotX_plots_once {C} `{ComplexArith C}
  (WIDTH HEIGHT : Z) (MAX_ITER : Q) (view : viewport)
  (results results' : list Z) (trace : list display_op) :
  Z.of_nat (length results) = HEIGHT ->
  DrawMandelbrotX WIDTH HEIGHT MAX_ITER view results = Some (results', trace) ->
  NoDup (omap plot_place trace).
Proof.
  intros Hlen Hrun.
  destruct (DrawMandelbrotX_pass_trace WIDTH HEIGHT MAX_ITER view results Hlen)
    as (res1 & Hrun1 & _ & _).
  rewrite Hrun1 in Hrun. injection Hrun as _ <-. apply pass_places_NoDup.
Qed.

Lemma DrawMandelbrotX_plots_once_witness :
  NoDup (omap plot_place
           (default ([], [])
              (DrawMandelbrotX (C:=qcomplex) 4 2 3 (Viewport (-2) 2 (-2) 2)
                 [7; 7])).2).
Proof.
  apply (DrawMandelbrotX_plots_once (C:=qcomplex) 4 2 3 (Viewport (-2) 2 (-2) 2)
           [7; 7]
           (default ([], [])
              (DrawMandelbrotX (C:=qcomplex) 4 2 3 (Viewport (-2) 2 (-2) 2)
                 [7; 7])).1).
  - reflexivity.
  - vm_compute. reflexivity.
Defined.

(** ** The outer loop *)

Lemma cursor_shown_of_knobs_ok (W H : Z) (inp : inputs) :
  0 < W -> 0 < H -> knobs_ok W H inp -> cursor_shown W H inp.
Proof.
  intros HW HH [[Hlo Hhi] Hne].
  pose proof (cursor_region_on_surface W H inp HW HH Hlo Hhi) as Hon.
  split; [assumption|].
  destruct (cursor_region W H inp) as [l r t b].
  unfold region_on_surface in Hon. unfold has_previous. simpl in *.
  apply negb_true_iff, Z.eqb_neq. intros Hsum. apply Hne.
  f_equal; lia.
Qed.

Lemma reset_previous_cursor_ok (W H : Z) (s : globals) :
  0 < W -> 0 < H -> edges_ok W H (pix_of s) ->
  exists s0,
    reset_previous_cursor s = Some s0
    /\ edges_ok W H (pix_of s0)
    /\ buffer s0 = buffer s /\ prev s0 = Region 0 0 0 0
    /\ MAX_ITER s0 = MAX_ITER s /\ view s0 = view s
    /\ isHiRez s0 = isHiRez s
    /\ nextSensorRead s0 = nextSensorRead s
    /\ (cursor_bound s0 <-> cursor_bound s).
Proof.
  intros HW HH (Ht & Hb & Hl & Hr). simpl in Ht, Hb, Hl, Hr.
  unfold reset_previous_cursor.
  rewrite !setitem_in_range by lia. rewrite !bind_Some.
  eexists. split; [reflexivity|]. simpl.
  split; [unfold edges_ok; simpl; rewrite !length_insert; auto|].
  do 6 (split; [reflexivity|]). split; intros Hbound; exact Hbound.
Qed.

Section LoopFacts.
Context {C : Type} `{ComplexArith C} {line_driver : DisplayDriver}
  {plot_driver : PlotDriver}.
Variables (WIDTH HEIGHT : Z).
Hypotheses (HW : 0 < WIDTH) (HH : 0 < HEIGHT).

Lemma foldl_paint_length (trace : list display_op) (buf : list Byte.byte) :
  length (foldl (paint WIDTH HEIGHT) buf trace) = length buf.
Proof.
  revert buf. induction trace as [|op trace IH]; intros buf; [reflexivity|].
  simpl. rewrite IH. destruct op; [apply display_pixel_length|reflexivity].
Qed.

Lemma overlay_inv_sizes (picture : list Byte.byte) (s : globals) :
  overlay_inv WIDTH HEIGHT picture s ->
  buffer_ok WIDTH HEIGHT (buffer s) /\ edges_ok WIDTH HEIGHT (pix_of s).
Proof.
  intros (Hpic & Hpix & Hstate). split; [|assumption].
  unfold buffer_ok in *.
  destruct Hstate as [[_ ->]|(_ & _ & _ & ->)]; [assumption|].
  now rewrite draw_outline_length.
Qed.

(** One pass of the outer loop: it completes, and the overlay invariant
    holds for the picture the render pass painted on the cleared screen. *)
Lemma Loop_pass_overlay (readings : list inputs) (s : globals)
  (results : list Z) :
  buffer_ok WIDTH HEIGHT (buffer s) ->
  edges_ok WIDTH HEIGHT (pix_of s) ->
  Z.of_nat (length results) = HEIGHT ->
  zoom_ready s readings ->
  Forall (knobs_ok WIDTH HEIGHT) readings ->
  exists results' trace pressed s',
    DrawMandelbrotX WIDTH HEIGHT (MAX_ITER s) (view s) results
      = Some (results', trace)
    /\ Loop_pass WIDTH HEIGHT readings (s, results)
       = Some (pressed, (s', results'))
    /\ Z.of_nat (length results') = HEIGHT
    /\ overlay_inv WIDTH HEIGHT
         (foldl (paint WIDTH HEIGHT)
            (display_clear WIDTH HEIGHT BLACK (buffer s)) trace) s'
    /\ (pressed = true -> cursor_bound s').
Proof.
  intros Hbuf Hpix Hres Hready Hknobs. unfold Loop_pass.
  set (cleared := display_clear WIDTH HEIGHT BLACK (buffer s)).
  destruct (reset_previous_cursor_ok WIDTH HEIGHT (with_buffer cleared s) HW HH)
    as (s0 & -> & Hpix0 & Hbuf0 & Hprev0 & Hmax0 & Hview0 & _ & Hnext0
        & Hbound0);
    [exact Hpix|].
  rewrite bind_Some. simpl in Hbuf0, Hmax0, Hview0, Hnext0.
  rewrite Hmax0, Hview0, Hbuf0.
  destruct (DrawMandelbrotX_pass_trace WIDTH HEIGHT (MAX_ITER s) (view s)
              results Hres) as (results' & Hdraw & Hres' & _).
  rewrite Hdraw, bind_Some.
  set (picture := foldl (paint WIDTH HEIGHT) cleared
                    (pass_trace WIDTH HEIGHT (MAX_ITER s) (view s))).
  assert (Hinv : overlay_inv WIDTH HEIGHT picture (with_buffer picture s0)).
  { split.
    - unfold buffer_ok, picture, cleared in *.
      now rewrite foldl_paint_length, display_clear_length.
    - split; [exact Hpix0|]. left. simpl. rewrite Hprev0. auto. }
  assert (Hshown : Forall (cursor_shown WIDTH HEIGHT) readings).
  { eapply Forall_impl; [exact Hknobs|]. intros inp.
    now apply cursor_shown_of_knobs_ok. }
  assert (Hready0 : zoom_ready (with_buffer picture s0) readings).
  { destruct Hready as [Hb|Hfirst].
    - left. apply Hbound0. exact Hb.
    - right. destruct readings; [exact I|]. simpl. now rewrite Hnext0. }
  destruct (track_keeps_overlay WIDTH HEIGHT HW HH picture readings _
              Hinv Hready0 Hshown)
    as (pressed & s' & -> & Hinv' & Hbound').
  rewrite bind_Some.
  exists results', (pass_trace WIDTH HEIGHT (MAX_ITER s) (view s)), pressed, s'.
  auto.
Qed.

(** Any number of passes complete and keep the sizes of the buffers. *)
Lemma Loop_passes_ok (passes : list (list inputs)) (s : globals)
  (results : list Z) :
  buffer_ok WIDTH HEIGHT (buffer s) ->
  edges_ok WIDTH HEIGHT (pix_of s) ->
  Z.of_nat (length results) = HEIGHT ->
  zoom_ready s (hd [] passes) ->
  Forall (Forall (knobs_ok WIDTH HEIGHT)) passes ->
  exists finished s' results',
    Loop_passes WIDTH HEIGHT passes (s, results)
      = Some (finished, (s', results'))
    /\ buffer_ok WIDTH HEIGHT (buffer s')
    /\ edges_ok WIDTH HEIGHT (pix_of s')
    /\ Z.of_nat (length results') = HEIGHT.
Proof.
  intros Hbuf Hpix Hres Hready Hall. revert s results Hbuf Hpix Hres Hready.
  induction Hall as [|readings rest Hknobs _ IH];
    intros s results Hbuf Hpix Hres Hready.
  - exists true, s, results. auto.
  - cbn [Loop_passes]. simpl in Hready.
    destruct (Loop_pass_overlay readings s results Hbuf Hpix Hres Hready Hknobs)
      as (results' & trace & pressed & s' & _ & -> & Hres' & Hinv & Hbound).
    rewrite bind_Some.
    destruct (overlay_inv_sizes _ _ Hinv) as [Hbuf' Hpix'].
    destruct pressed.
    + apply IH; try assumption. left. now apply Hbound.
    + exists false, s', results'. auto.
Qed.
End LoopFacts.

(** X13.  One pass of the outer loop.  With a frame buffer of [WIDTH]
    times [HEIGHT] bytes, save buffers of [WIDTH] and [HEIGHT] bytes, a
    [results] list of [HEIGHT] entries, readings in which the zoom knob
    stays below full scale and the rectangle is not (0,0,0,0), and the
    cursor names that [ZoomIn] prints bound or the first poll finding no
    button down and [MoveCursor] due ([zoom_ready]), the pass raises
    nothing, whatever rectangle an earlier pass left as the previous
    one; and when the tracking loop stops, the frame buffer is
    the picture the render pass painted on the cleared screen, or that
    picture with the outline of the last rectangle on it: off that
    outline every byte is the picture's. *)
Theorem Loop_pass_keeps_picture {C} `{ComplexArith C}
  {line_driver : DisplayDriver} {plot_driver : PlotDriver}
  (WIDTH HEIGHT : Z) (readings : list inputs) (s : globals) (results : list Z) :
  0 < WIDTH -> 0 < HEIGHT ->
  buffer_ok WIDTH HEIGHT (buffer s) ->
  edges_ok WIDTH HEIGHT (pix_of s) ->
  Z.of_nat (length results) = HEIGHT ->
  zoom_ready s readings ->
  Forall (knobs_ok WIDTH HEIGHT) readings ->
  exists results' trace pressed s',
    DrawMandelbrotX WIDTH HEIGHT (MAX_ITER s) (view s) results
      = Some (results', trace)
    /\ Loop_pass WIDTH HEIGHT readings (s, results)
       = Some (pressed, (s', results'))
    /\ let picture := foldl (paint WIDTH HEIGHT)
                        (display_clear WIDTH HEIGHT BLACK (buffer s)) trace in
       (buffer s' = picture
        \/ buffer s' = draw_outline WIDTH HEIGHT (prev s') picture)
       /\ forall k : nat,
            (forall x y, on_border (prev s') x y ->
                         0 <= x < WIDTH -> 0 <= y < HEIGHT ->
                         Z.of_nat k <> x + y * WIDTH) ->
            buffer s' !! k = picture !! k.
Proof.
  intros HW HH Hbuf Hpix Hres Hready Hknobs.
  destruct (Loop_pass_overlay WIDTH HEIGHT HW HH readings s results
              Hbuf Hpix Hres Hready Hknobs)
    as (results' & trace & pressed & s' & Hdraw & Hpass & _ & Hinv & _).
  exists results', trace, pressed, s'.
  split; [assumption|]. split; [assumption|].
  cbv zeta. now apply overlay_inv_picture.
Qed.

Lemma knobs_ok_1313 (now : Z) : knobs_ok 8 8 (knobs_1313 now).
Proof.
  split.
  - split; [apply Qle_bool_iff; reflexivity|apply Qlt_alt; reflexivity].
  - rewrite cursor_region_1313. discriminate.
Qed.

Lemma knobs_ok_5757 (now : Z) : knobs_ok 8 8 (knobs_5757 now).
Proof.
  split.
  - split; [apply Qle_bool_iff; reflexivity|apply Qlt_alt; reflexivity].
  - rewrite cursor_region_5757. discriminate.
Qed.

Lemma Loop_pass_keeps_picture_witness :
  let readings := [knobs_1313 0; knobs_5757 200] in
  let s := test_globals in
  let results := startup_results 8 in
  exists results' trace pressed s',
    DrawMandelbrotX (C:=qcomplex) 8 8 (MAX_ITER s) (view s) results
      = Some (results', trace)
    /\ @Loop_pass qcomplex _ axis_display direct_plot 8 8 readings (s, results)
       = Some (pressed, (s', results'))
    /\ let picture := foldl (@paint direct_plot 8 8)
                        (@display_clear direct_plot 8 8 BLACK (buffer s)) trace in
       (buffer s' = picture
        \/ buffer s' = @draw_outline axis_display 8 8 (prev s') picture)
       /\ forall k : nat,
            (forall x y, on_border (prev s') x y ->
                         0 <= x < 8 -> 0 <= y < 8 ->
                         Z.of_nat k <> x + y * 8) ->
            buffer s' !! k = picture !! k.
Proof.
  apply (@Loop_pass_keeps_picture qcomplex _ axis_display direct_plot 8 8
           [knobs_1313 0; knobs_5757 200] test_globals (startup_results 8)).
  - lia.
  - lia.
  - reflexivity.
  - repeat split.
  - reflexivity.
  - right. split; [repeat split|simpl; lia].
  - apply Forall_cons. split; [apply knobs_ok_1313|].
    apply Forall_cons. split; [apply knobs_ok_5757|].
    apply Forall_nil_2.
Defined.

(** X14.  When the outer loop never raises.  From sizes as at start-up,
    with readings in which the zoom knob stays below full scale and the
    rectangle is not (0,0,0,0), and with no button down at the first poll
    of the first pass, where [MoveCursor] is due because [Loop] has set
    [nextSensorRead] to -1 (or with the cursor names bound already), any
    number of passes (clear, reset, render, track until a button is
    pressed, apply the command) complete, and the frame buffer, the save
    buffers and [results] keep their sizes. *)
Theorem Loop_never_raises {C} `{ComplexArith C}
  {line_driver : DisplayDriver} {plot_driver : PlotDriver}
  (WIDTH HEIGHT : Z) (passes : list (list inputs)) (s : globals)
  (results : list Z) :
  0 < WIDTH -> 0 < HEIGHT ->
  buffer_ok WIDTH HEIGHT (buffer s) ->
  edges_ok WIDTH HEIGHT (pix_of s) ->
  Z.of_nat (length results) = HEIGHT ->
  zoom_ready (Loop_init s) (hd [] passes) ->
  Forall (Forall (knobs_ok WIDTH HEIGHT)) passes ->
  exists finished s' results',
    Loop WIDTH HEIGHT passes (s, results) = Some (finished, (s', results'))
    /\ buffer_ok WIDTH HEIGHT (buffer s')
    /\ edges_ok WIDTH HEIGHT (pix_of s')
    /\ Z.of_nat (length results') = HEIGHT.
Proof.
  intros HW HH Hbuf Hpix Hres Hready Hall. unfold Loop.
  apply Loop_passes_ok; assumption.
Qed.

Lemma Loop_never_raises_witness :
  let passes := [[knobs_1313 0; press_A (knobs_5757 200)];
                 [knobs_5757 400; knobs_1313 600]] in
  exists finished s' results',
    @Loop qcomplex _ axis_display direct_plot 8 8 passes
      (startup_globals 8 8, startup_results 8)
      = Some (finished, (s', results'))
    /\ buffer_ok 8 8 (buffer s')
    /\ edges_ok 8 8 (pix_of s')
    /\ Z.of_nat (length results') = 8.
Proof.
  apply (@Loop_never_raises qcomplex _ axis_display direct_plot 8 8
           [[knobs_1313 0; press_A (knobs_5757 200)];
            [knobs_5757 400; knobs_1313 600]]
           (startup_globals 8 8) (startup_results 8)).
  - lia.
  - lia.
  - reflexivity.
  - repeat split.
  - reflexivity.
  - right. split; [repeat split|simpl; lia].
  - apply Forall_cons. split.
    { apply Forall_cons. split; [apply knobs_ok_1313|].
      apply Forall_cons. split; [apply (knobs_ok_5757 200)|].
      apply Forall_nil_2. }
    apply Forall_cons. split.
    { apply Forall_cons. split; [apply knobs_ok_5757|].
      apply Forall_cons. split; [apply knobs_ok_1313|].
      apply Forall_nil_2. }
    apply Forall_nil_2.
Defined.

(** [reset_previous_cursor] leaves the cursor names as they are. *)
Lemma reset_previous_cursor_z (s s0 : globals) :
  reset_previous_cursor s = Some s0 -> z s0 = z s.
Proof.
  unfold reset_previous_cursor. intros Hrun.
  destruct (setitem (top_pix s) 0 Byte.x00); [|discriminate].
  rewrite bind_Some in Hrun.
  destruct (setitem (bottom_pix s) 0 Byte.x00); [|discriminate].
  rewrite bind_Some in Hrun.
  destruct (setitem (left_pix s) 0 Byte.x00); [|discriminate].
  rewrite bind_Some in Hrun.
  destruct (setitem (right_pix s) 0 Byte.x00); [|discriminate].
  rewrite bind_Some in Hrun. now injection Hrun as <-.
Qed.

(** X19.  A zoom-in at the first poll stops the program.  [ZoomIn] prints
    [z], [newWidth] and [newHeight], which only [MoveCursor] binds, and
    [Loop] polls the buttons before it first calls [MoveCursor].  So if
    [z] is not bound when [Loop] starts, as at start-up, and the first
    poll after the first render finds button A down with Y and B up, the
    loop raises (a [NameError]), whatever the later readings are. *)
Theorem Loop_zoom_in_at_first_poll_raises {C} `{ComplexArith C}
  {line_driver : DisplayDriver} {plot_driver : PlotDriver}
  (WIDTH HEIGHT : Z) (inp : inputs) (rest : list inputs)
  (more : list (list inputs)) (s : globals) (results : list Z) :
  z s = None ->
  buttonRez inp = false -> buttonCenter inp = false ->
  buttonZoomIn inp = true ->
  Loop WIDTH HEIGHT ((inp :: rest) :: more) (s, results) = None.
Proof.
  intros Hz HY HB HA. unfold Loop. cbn [Loop_passes fst snd].
  unfold Loop_pass.
  match goal with |- context [reset_previous_cursor ?s1] =>
    destruct (reset_previous_cursor s1) as [s0|] eqn:Hreset; [|reflexivity];
    apply reset_previous_cursor_z in Hreset; simpl in Hreset
  end.
  rewrite bind_Some.
  destruct (DrawMandelbrotX WIDTH HEIGHT (MAX_ITER s0) (view s0) results)
    as [[results' trace]|]; [|reflexivity].
  rewrite bind_Some. rewrite track_step, ButtonPressed_cases, HY, HB, HA.
  unfold ZoomIn. rewrite HA. cbn [z with_buffer]. rewrite Hreset, Hz.
  reflexivity.
Qed.

Lemma Loop_zoom_in_at_first_poll_raises_witness :
  @Loop qcomplex _ axis_display direct_plot 8 8
    [[press_A (knobs_1313 0); knobs_5757 200]; [knobs_1313 400]]
    (startup_globals 8 8, startup_results 8) = None.
Proof.
  apply (@Loop_zoom_in_at_first_poll_raises qcomplex _ axis_display
           direct_plot 8 8 (press_A (knobs_1313 0)) [knobs_5757 200]
           [[knobs_1313 400]] (startup_globals 8 8) (startup_results 8));
    reflexivity.
Defined.

(** ** The evaluator and the pixels it leaves black *)

(** X15.  [mandelbrot] always returns, and what it returns is the number
    of the first evaluation of the loop test that fails: the test holds
    at every counter below the result and fails at the result, where the
    test at counter [k] is [abs(z_k) <= 2 and k <= MAX_ITER] on the orbit
    [z_0 = 0], [z_(k+1) = z_k^2 + c]. *)
Theorem mandelbrot_escape_time {C} `{ComplexArith C} (MAX_ITER : Q) (c : C) :
  exists j : nat,
    mandelbrot MAX_ITER c = Some (Z.of_nat j)
    /\ continues MAX_ITER c j = false
    /\ (forall i, (i < j)%nat -> continues MAX_ITER c i = true)
    /\ forall j' : nat,
         continues MAX_ITER c j' = false ->
         (forall i, (i < j')%nat -> continues MAX_ITER c i = true) ->
         j' = j.
Proof.
  destruct (mandelbrot_returns MAX_ITER c) as [r Hr].
  destruct (mandelbrot_first_exit MAX_ITER c r Hr) as (j & -> & Hstop & Hgo).
  exists j. split; [assumption|]. split; [assumption|]. split; [assumption|].
  intros j' Hstop' Hgo'.
  destruct (lt_eq_lt_dec j' j) as [[Hlt| ->]|Hlt]; [|reflexivity|].
  - rewrite (Hgo j' Hlt) in Hstop'. discriminate.
  - rewrite (Hgo' j Hlt) in Hstop. discriminate.
Qed.

(** A point whose first iterate fails the size test has count 1. *)
Lemma mandelbrot_first_iterate_fails {C} `{ComplexArith C}
  (MAX_ITER : Q) (c : C) :
  (0 <= MAX_ITER)%Q -> cabs_le2 (csqr_add czero c) = false ->
  mandelbrot MAX_ITER c = Some 1.
Proof.
  intros Hpos Hfar.
  destruct (mandelbrot_returns MAX_ITER c) as [r Hr]. rewrite Hr. f_equal.
  destruct (mandelbrot_first_exit MAX_ITER c r Hr) as (j & -> & Hstop & Hgo).
  assert (H0 : continues MAX_ITER c 0 = true).
  { unfold continues. simpl. rewrite cabs_le2_zero. simpl.
    apply Qle_bool_iff. assumption. }
  assert (H1 : continues MAX_ITER c 1 = false).
  { unfold continues. simpl. rewrite Hfar. reflexivity. }
  destruct j as [|[|j]].
  - rewrite H0 in Hstop. discriminate.
  - reflexivity.
  - rewrite (Hgo 1%nat) in H1 by lia. discriminate.
Qed.

(** X16.  Pixels whose sample point fails the program's own size test at
    once stay black.  If, in the arithmetic the program runs on, the first
    iterate [0*0 + c] of the point [c] sampled at pixel [(x, y)] fails
    [abs(mz) <= 2] then, for every iteration budget that is not negative,
    the thread and the coordinator both give the pixel colour index 0,
    and no render pass plots it. *)
Theorem far_pixels_stay_black {C} `{ComplexArith C}
  (WIDTH HEIGHT : Z) (MAX_ITER : Q) (view : viewport) (x y : Z)
  (results results' : list Z) (trace : list display_op) :
  (0 <= MAX_ITER)%Q ->
  cabs_le2 (csqr_add czero
              (cmake (sample_re WIDTH view x) (sample_im HEIGHT view y)))
    = false ->
  Z.of_nat (length results) = HEIGHT ->
  DrawMandelbrotX WIDTH HEIGHT MAX_ITER view results
    = Some (results', trace) ->
  thread_colour WIDTH HEIGHT MAX_ITER view x y = Some 0
  /\ main_colour WIDTH HEIGHT MAX_ITER view x y = Some 0
  /\ forall i pen, Plot x y i pen ∉ trace.
Proof.
  intros Hpos Hfar Hlen Hrun.
  pose proof (mandelbrot_first_iterate_fails MAX_ITER _ Hpos Hfar) as Hm.
  assert (Ht : thread_colour WIDTH HEIGHT MAX_ITER view x y = Some 0).
  { unfold thread_colour. rewrite Hm. reflexivity. }
  assert (Hc : main_colour WIDTH HEIGHT MAX_ITER view x y = Some 0).
  { unfold main_colour. rewrite Hm. reflexivity. }
  split; [assumption|]. split; [assumption|].
  intros i pen Hin.
  destruct (DrawMandelbrotX_pass_trace WIDTH HEIGHT MAX_ITER view
              results Hlen) as (res1 & Hrun1 & _ & _).
  rewrite Hrun1 in Hrun. injection Hrun as _ <-.
  apply elem_of_pass_trace in Hin as (_ & Hnz & _ & [(_ & _ & Hi)|(_ & _ & Hi)]);
    congruence.
Qed.

Lemma far_pixels_stay_black_witness :
  let view := Viewport (-3) 3 (-3) 3 in
  let out := default ([], [])
               (DrawMandelbrotX (C:=qcomplex) 4 2 3 view [0; 0]) in
  thread_colour (C:=qcomplex) 4 2 3 view 0 0 = Some 0
  /\ main_colour (C:=qcomplex) 4 2 3 view 0 0 = Some 0
  /\ forall i pen, Plot 0 0 i pen ∉ out.2.
Proof.
  apply (far_pixels_stay_black (C:=qcomplex) 4 2 3 (Viewport (-3) 3 (-3) 3)
           0 0 [0; 0]
           (default ([], [])
              (DrawMandelbrotX (C:=qcomplex) 4 2 3 (Viewport (-3) 3 (-3) 3)
                 [0; 0])).1).
  - discriminate.
  - reflexivity.
  - reflexivity.
  - vm_compute. reflexivity.
Defined.

(** ** More on the cursor and the commands *)

(** X17.  A steady knob causes no redraw.  After a call of [MoveCursor]
    that was due, a further call whose readings give the same rectangle
    completes and leaves the frame buffer, the save buffers and the
    previous rectangle as they are, whether or not it is due itself. *)
Theorem MoveCursor_steady {D : DisplayDriver} (W H : Z)
  (inp1 inp2 : inputs) (s s1 : globals) :
  nextSensorRead s <= ticks_ms inp1 ->
  MoveCursor W H inp1 s = Some s1 ->
  cursor_region W H inp2 = cursor_region W H inp1 ->
  exists s2,
    MoveCursor W H inp2 s1 = Some s2
    /\ buffer s2 = buffer s1 /\ pix_of s2 = pix_of s1 /\ prev s2 = prev s1
    /\ prev s2 = cursor_region W H inp1.
Proof.
  intros Hdue Hmove Hsame.
  assert (Hprev : prev s1 = cursor_region W H inp1).
  { unfold MoveCursor in Hmove.
    assert (Hgate : (ticks_ms inp1 >=? nextSensorRead s) = true)
      by (apply Z.geb_le; assumption).
    rewrite Hgate in Hmove. case_bool_decide as Hmoved.
    - destruct (restore_previous W s) as [b|]; [|discriminate].
      rewrite bind_Some in Hmove.
      destruct (save_outline W (cursor_region W H inp1) b (pix_of s))
        as [pix|]; [|discriminate].
      rewrite bind_Some in Hmove. now injection Hmove as <-.
    - injection Hmove as <-. cbn [prev].
      destruct (prev s) as [l r t b].
      destruct (cursor_region W H inp1) as [l' r' t' b']. simpl in Hmoved.
      f_equal; lia. }
  unfold MoveCursor.
  destruct (ticks_ms inp2 >=? nextSensorRead s1).
  - rewrite Hsame, Hprev.
    rewrite bool_decide_eq_false_2 by (intros [?|[?|[?|?]]]; congruence).
    eexists. split; [reflexivity|].
    unfold pix_of. cbn [buffer prev top_pix bottom_pix left_pix right_pix].
    repeat split; rewrite ?Hprev; reflexivity.
  - exists s1. auto.
Qed.

Lemma MoveCursor_steady_witness :
  let s1 := default test_globals
              (@MoveCursor axis_display 8 8 (knobs_1313 0) test_globals) in
  exists s2,
    @MoveCursor axis_display 8 8 (knobs_1313 200) s1 = Some s2
    /\ buffer s2 = buffer s1 /\ pix_of s2 = pix_of s1 /\ prev s2 = prev s1
    /\ prev s2 = cursor_region 8 8 (knobs_1313 0).
Proof.
  apply (@MoveCursor_steady axis_display 8 8 (knobs_1313 0) (knobs_1313 200)
           test_globals).
  - simpl. lia.
  - vm_compute. reflexivity.
  - rewrite !cursor_region_1313. reflexivity.
Defined.

Lemma ButtonPressed_keeps_collapsed (W H : Z) (inp : inputs) (s s1 : globals)
  (pressed : bool) :
  0 < W -> 0 < H ->
  ButtonPressed W H inp s = Some (pressed, s1) ->
  view_collapsed (view s) -> view_collapsed (view s1).
Proof.
  intros HW HH Hrun [Hre Him]. apply inject_Z_nonzero in HW, HH.
  rewrite ButtonPressed_cases in Hrun.
  unfold ChangeRez, Center, ZoomIn, ZoomOut, with_rez, with_view in Hrun.
  assert (Hr0 : (realEnd (view s) - realStart (view s) == 0)%Q)
    by (rewrite Hre; ring).
  assert (Hi0 : (imEnd (view s) - imStart (view s) == 0)%Q)
    by (rewrite Him; ring).
  destruct (buttonRez inp); [|destruct (buttonCenter inp);
    [|destruct (buttonZoomIn inp); [|destruct (buttonZoomOut inp)]]].
  - injection Hrun as _ <-. cbn [snd].
    destruct (negb (isHiRez s)); split; assumption.
  - injection Hrun as _ <-. cbn [snd].
    unfold view_collapsed, center_view.
    cbn [view realStart realEnd imStart imEnd]. rewrite Hre, Him.
    split; reflexivity.
  - destruct (z s), (newWidth s), (newHeight s); try discriminate.
    injection Hrun as _ <-.
    unfold view_collapsed, zoom_in_view.
    cbn [view realStart realEnd imStart imEnd]. rewrite Hr0, Hi0.
    split; field; assumption.
  - injection Hrun as _ <-.
    unfold view_collapsed, zoom_out_view.
    cbn [view realStart realEnd imStart imEnd]. rewrite Hr0, Hi0, Hre, Him.
    split; reflexivity.
  - injection Hrun as _ <-. split; assumption.
Qed.

(** X18.  A collapsed viewport cannot be left.  Once both spans are 0
    (as after a zoom into a one-pixel rectangle), they are 0 after every
    run of the tracking loop, whichever button ends it: no command of the
    program widens the view again. *)
Theorem collapsed_view_stays {D : DisplayDriver} (W H : Z)
  (readings : list inputs) (s s' : globals) (pressed : bool) :
  0 < W -> 0 < H ->
  view_collapsed (view s) ->
  track W H readings s = Some (pressed, s') ->
  view_collapsed (view s').
Proof.
  intros HW HH. revert s. induction readings as [|inp rest IH]; intros s Hc Hrun.
  - simpl in Hrun. now injection Hrun as _ <-.
  - rewrite track_step in Hrun.
    destruct (ButtonPressed W H inp s) as [[p s0]|] eqn:Hb; [|discriminate].
    pose proof (ButtonPressed_keeps_collapsed W H inp s s0 p HW HH Hb Hc) as Hc1.
    destruct p.
    + now injection Hrun as _ <-.
    + destruct (MoveCursor W H inp s0) as [s1|] eqn:Hmove; [|discriminate].
      rewrite bind_Some in Hrun. apply (IH s1); [|assumption].
      destruct (MoveCursor_keeps_settings W H inp _ s1 Hmove) as (_ & _ & ->).
      assumption.
Qed.

Lemma collapsed_view_stays_witness :
  let s := with_view (Viewport 0 0 0 0) test_globals in
  let result := default (false, s)
                  (@track axis_display 8 8
                     [knobs_1313 0; press_X (knobs_5757 200)] s) in
  view_collapsed (view result.2).
Proof.
  apply (@collapsed_view_stays axis_display 8 8
           [knobs_1313 0; press_X (knobs_5757 200)]
           (with_view (Viewport 0 0 0 0) test_globals)
           (default (false, with_view (Viewport 0 0 0 0) test_globals)
              (@track axis_display 8 8
                 [knobs_1313 0; press_X (knobs_5757 200)]
                 (with_view (Viewport 0 0 0 0) test_globals))).2
           (default (false, with_view (Viewport 0 0 0 0) test_globals)
              (@track axis_display 8 8
                 [knobs_1313 0; press_X (knobs_5757 200)]
                 (with_view (Viewport 0 0 0 0) test_globals))).1).
  - lia.
  - lia.
  - split; reflexivity.
  - vm_compute. reflexivity.
Defined.
